(** * The Imports Manager of the robotframework language server

    A shallow embedding of
    [robotcode/language_server/robotframework/diagnostics/imports_manager.py]:
    the [LibraryMetaData] fingerprint and its [filepath_base], the three
    kinds of import entries, the on-disk libdoc cache, the change
    dispatcher and the resource-document debounce, with the properties
    the specification states about them.

    Python objects that are mutated in place are modelled by explicit
    state passing.  Exceptions are values of [exn]; the manager
    re-raises [SystemExit] and [KeyboardInterrupt] wherever it swallows
    everything else, so these two are kept apart from ordinary errors. *)

From Stdlib Require Import ZArith NArith Ascii Lia.
From stdpp Require Import gmap strings list.

Open Scope N_scope.
Open Scope list_scope.

(** ** Exceptions and results *)

Inductive exn : Type :=
  | SystemExit
  | KeyboardInterrupt
  | Error (kind : string).

Inductive result (A : Type) : Type :=
  | Ok (a : A)
  | Raise (e : exn).
Arguments Ok {A} a.
Arguments Raise {A} e.

Definition is_exit (e : exn) : bool :=
  match e with
  | SystemExit | KeyboardInterrupt => true
  | Error _ => false
  end.

Definition is_ok {A} (r : result A) : bool :=
  match r with Ok _ => true | Raise _ => false end.

(** ** A state and exception monad

    A Python call may change the state and then raise: the state
    reached is kept in both cases. *)

Definition M (S A : Type) : Type := S -> result A * S.

Definition ret {S A} (a : A) : M S A := fun s => (Ok a, s).
Definition raise {S A} (e : exn) : M S A := fun s => (Raise e, s).
Definition bind {S A B} (m : M S A) (k : A -> M S B) : M S B :=
  fun s => match m s with
           | (Ok a, s') => k a s'
           | (Raise e, s') => (Raise e, s')
           end.
Definition get {S} : M S S := fun s => (Ok s, s).
Definition gets {S A} (f : S -> A) : M S A := fun s => (Ok (f s), s).
Definition modify {S} (f : S -> S) : M S unit := fun s => (Ok tt, f s).
Definition lift_result {S A} (r : result A) : M S A := fun s => (r, s).

(** [try: m except h]: the handler sees every exception. *)
Definition try_except {S A} (m : M S A) (h : exn -> M S A) : M S A :=
  fun s => match m s with
           | (Ok a, s') => (Ok a, s')
           | (Raise e, s') => h e s'
           end.

(** [try: m finally: f]. *)
Definition try_finally {S A} (m : M S A) (f : M S unit) : M S A :=
  fun s => match m s with
           | (r, s') =>
               match f s' with
               | (Ok _, s'') => (r, s'')
               | (Raise e, s'') => (Raise e, s'')
               end
           end.

Declare Scope monad_scope.
Delimit Scope monad_scope with monad.
Notation "x <- m ;; k" := (bind m (fun x => k))
  (at level 100, m at level 99, k at level 200) : monad_scope.
Notation "m ;;; k" := (bind m (fun _ => k))
  (at level 100, k at level 200) : monad_scope.
Open Scope monad_scope.

(** ** Strings as byte sequences

    A [str] is represented by the bytes [os.fsencode] gives for it
    (UTF-8 with the error handler [surrogateescape], as on a POSIX
    system): the characters of a [string] are these bytes.  A byte that
    belongs to no well-formed UTF-8 sequence stands for the lone
    surrogate the decoder of file names makes of it. *)

Fixpoint string_bytes (s : string) : list N :=
  match s with
  | EmptyString => []
  | String c r => N_of_ascii c :: string_bytes r
  end.

Definition in_range (lo hi b : N) : bool := (lo <=? b) && (b <=? hi).

(** Well-formed UTF-8 byte sequences (The Unicode Standard, table 3-7):
    no overlong forms, no encoded surrogates, nothing above U+10FFFF. *)
Fixpoint utf8_valid (data : list N) : bool :=
  match data with
  | [] => true
  | b :: r =>
      if b <=? 127 then utf8_valid r
      else if in_range 194 223 b then
        match r with
        | c1 :: r1 => in_range 128 191 c1 && utf8_valid r1
        | _ => false
        end
      else if in_range 224 239 b then
        match r with
        | c1 :: c2 :: r2 =>
            in_range (if b =? 224 then 160 else 128)
              (if b =? 237 then 159 else 191) c1
            && in_range 128 191 c2 && utf8_valid r2
        | _ => false
        end
      else if in_range 240 244 b then
        match r with
        | c1 :: c2 :: c3 :: r3 =>
            in_range (if b =? 240 then 144 else 128)
              (if b =? 244 then 143 else 191) c1
            && in_range 128 191 c2 && in_range 128 191 c3 && utf8_valid r3
        | _ => false
        end
      else false
  end.

(** [s.encode("utf-8")]: the strict encoder gives the bytes back and
    refuses a string with a lone surrogate. *)
Definition str_encode_utf8 (s : string) : result (list N) :=
  if utf8_valid (string_bytes s) then Ok (string_bytes s)
  else Raise (Error "UnicodeEncodeError").

Fixpoint string_replace_char (a b : ascii) (s : string) : string :=
  match s with
  | EmptyString => EmptyString
  | String c r =>
      String (if Ascii.eqb c a then b else c) (string_replace_char a b r)
  end.

(** ** zlib.adler32 (RFC 1950) *)

Definition MOD_ADLER : N := 65521.

Fixpoint adler32_loop (data : list N) (a b : N) : N * N :=
  match data with
  | [] => (a, b)
  | x :: rest =>
      let a' := (a + x) mod MOD_ADLER in
      let b' := (b + a') mod MOD_ADLER in
      adler32_loop rest a' b'
  end.

Definition adler32 (data : list N) : N :=
  let '(a, b) := adler32_loop data 1 0 in
  N.lor (N.shiftl b 16) a.

(** ** The format specification [:08x] *)

Definition hex_digit (d : N) : ascii :=
  match d with
  | 0 => "0" | 1 => "1" | 2 => "2" | 3 => "3" | 4 => "4" | 5 => "5"
  | 6 => "6" | 7 => "7" | 8 => "8" | 9 => "9" | 10 => "a" | 11 => "b"
  | 12 => "c" | 13 => "d" | 14 => "e" | _ => "f"
  end%char.

Fixpoint hex_aux (fuel : nat) (n : N) (acc : string) : string :=
  match fuel with
  | O => acc
  | S fuel' =>
      let acc' := String (hex_digit (n mod 16)) acc in
      if n / 16 =? 0 then acc' else hex_aux fuel' (n / 16) acc'
  end.

(** [format(n, "x")]: the digits of [n], without leading zeros. *)
Definition format_x (n : N) : string :=
  hex_aux (S (N.to_nat (N.log2 n))) n EmptyString.

Fixpoint zero_fill (k : nat) (s : string) : string :=
  match k with
  | O => s
  | S k' => String "0"%char (zero_fill k' s)
  end.

(** [format(n, "08x")]: zero-padded on the left to width 8; longer
    numbers are not truncated. *)
Definition format_08x (n : N) : string :=
  let s := format_x n in
  zero_fill (8 - String.length s)%nat s.

(** ** LibraryMetaData *)

Record LibraryMetaData : Type := mkLibraryMetaData {
  meta_version : string;
  name : option string;
  member_name : option string;
  origin : option string;
  submodule_search_locations : option (list string);
  by_path : bool;
  mtimes : option (gmap string Z)
}.

#[global] Instance LibraryMetaData_eq_dec : EqDecision LibraryMetaData.
Proof. solve_decision. Defined.

(** [pathlib] is a collaborator: [path_parent s] is [str(Path(s).parent)]
    and [path_stem s] is [Path(s).stem]. *)
Record PathLib : Type := mkPathLib {
  path_parent : string -> string;
  path_stem : string -> string
}.

(** Truthiness of an [Optional[str]]. *)
Definition truthy (o : option string) : bool :=
  match o with
  | Some (String _ _) => true
  | _ => false
  end.

Definition filepath_base (P : PathLib) (m : LibraryMetaData) : result string :=
  if by_path m then
    match origin m with
    | Some o =>
        match str_encode_utf8 (path_parent P o) with
        | Ok data => Ok (format_08x (adler32 data) +:+ "_" +:+ path_stem P o)
        | Raise e => Raise e
        end
    | None => Raise (Error "ValueError")
    end
  else
    match name m with
    | Some n =>
        Ok (string_replace_char "." "/" n
              +:+ (if truthy (member_name m)
                   then "." +:+ default "" (member_name m)
                   else ""))
    | None => Raise (Error "ValueError")
    end.

(** A second monad, for code that can raise but touches no state. *)
Definition rbind {A B} (r : result A) (k : A -> result B) : result B :=
  match r with
  | Ok a => k a
  | Raise e => Raise e
  end.
Notation "x <~ r ;; k" := (rbind r (fun x => k))
  (at level 100, r at level 99, k at level 200) : monad_scope.

Fixpoint rmapM {A B} (f : A -> result B) (l : list A) : result (list B) :=
  match l with
  | [] => Ok []
  | x :: rest => y <~ f x ;; ys <~ rmapM f rest ;; Ok (y :: ys)
  end.

(** ** Documents *)

Record ModuleSpec : Type := mkModuleSpec {
  ms_name : string;
  ms_origin : option string;
  ms_submodule_search_locations : option (list string);
  ms_member_name : option string
}.

#[global] Instance ModuleSpec_eq_dec : EqDecision ModuleSpec.
Proof. solve_decision. Defined.

(** [LibraryDoc] (and [VariablesDoc], its subclass): the fields the
    manager reads, and [ld_body] for everything else. *)
Record LibraryDoc : Type := mkLibraryDoc {
  ld_name : string;
  ld_source : option string;
  ld_module_spec : option ModuleSpec;
  ld_python_path : option (list string);
  ld_stdout : option string;
  ld_body : string
}.

#[global] Instance LibraryDoc_eq_dec : EqDecision LibraryDoc.
Proof. solve_decision. Defined.

Record TextDocument : Type := mkTextDocument {
  document_uri : string;
  _version : option nat
}.

#[global] Instance TextDocument_eq_dec : EqDecision TextDocument.
Proof. solve_decision. Defined.

Inductive FileChangeType : Type := CREATED | CHANGED | DELETED.

#[global] Instance FileChangeType_eq_dec : EqDecision FileChangeType.
Proof. solve_decision. Defined.

Record FileEvent : Type := mkFileEvent {
  fe_uri : string;
  fe_type : FileChangeType
}.

Inductive ImportKind : Type := Library | Resource | Variables.

#[global] Instance ImportKind_eq_dec : EqDecision ImportKind.
Proof. solve_decision. Defined.

Abbreviation Vars := (gmap string string).

(** ** Constants of the module *)

Definition LOAD_LIBRARY_TIME_OUT : nat := 30.
Definition FIND_FILE_TIME_OUT : nat := 10.

(** ** Faults of reading

    What is wrong with reading the file at a path.  [Unreachable e]: the
    path itself cannot be resolved (a directory on the way may not be
    searched, a name is too long, the device fails): [stat] raises [e],
    which [Path.exists] hands on unless it is one of the errors it takes
    for absence, and opening the file raises [e] as well.
    [Unreadable e]: the path resolves, and [read_text] raises [e] (the
    file may not be read, it is not UTF-8, a signal arrives). *)
Inductive read_failure : Type :=
  | Unreachable (e : exn)
  | Unreadable (e : exn).

Definition failure_exn (f : read_failure) : exn :=
  match f with
  | Unreachable e | Unreadable e => e
  end.

(** ** Collaborators

    Everything the manager imports: [pathlib], the [robot] helpers of
    [robotcode.robot.diagnostics.library_doc], the JSON codec, the
    configuration, and the outcome of filesystem and worker calls. *)
Record Env : Type := mkEnv {
  pathlib : PathLib;
  path_resolve : string -> string;
  path_is_relative_to : string -> string -> bool;
  path_exists : string -> bool;
  path_samefile : string -> string -> result bool;
  path_suffix : string -> string;
  stat_mtime_ns : string -> result Z;
  iter_files : string -> result (list string);
  uri_scheme : string -> string;
  uri_to_path : string -> string;
  (* configuration *)
  __version__ : string;
  folder : string;
  lib_doc_cache_path : string;
  variables_doc_cache_path : string;
  ignored_libraries_patters : list string;
  ignored_variables_patters : list string;
  pattern_matches : string -> string -> bool;
  get_robot_version : nat * nat;
  (* robot helpers *)
  contains_variable : string -> bool;
  STDLIBS : list string;
  ROBOT_LIBRARY_PACKAGE : string;
  is_library_by_path : string -> bool;
  is_variables_by_path : string -> bool;
  robot_find_library :
    string -> string -> string -> Vars -> option Vars -> result string;
  robot_find_variables :
    string -> string -> string -> option Vars -> option Vars -> result string;
  robot_find_file :
    string -> string -> string -> Vars -> option Vars -> string -> result string;
  find_file_ex : string -> string -> string -> result string;
  get_module_spec : string -> result (option ModuleSpec);
  resolve_args :
    list string -> string -> string -> option Vars -> option Vars ->
    result (list string);
  (* the dictionary memoised in [_resolvable_command_line_variables],
     or the exception its computation ended with; the first call, which
     loads the variable files of the configuration, has happened *)
  get_resolvable_command_line_variables : result Vars;
  (* JSON codec *)
  as_json_meta : LibraryMetaData -> result string;
  from_json_meta : string -> result LibraryMetaData;
  as_json_doc : LibraryDoc -> result string;
  from_json_doc : string -> result LibraryDoc;
  (* faults of the cache directory: the exception a call on this path
     raises, if any; a failed [write_text] may have truncated the file
     already and then leaves the given text behind *)
  read_fault : string -> option read_failure;
  write_fault : string -> option (exn * option string);
  mkdir_fault : string -> option exn;
  (* the worker process started as executor number [n]: the seconds
     it runs for ([None]: it never ends) and what it yields at its end *)
  worker :
    nat -> ImportKind -> string -> list string -> string -> string ->
    option Vars -> option Vars -> option N * result LibraryDoc;
  (* documents *)
  get_or_open_document : string -> result TextDocument;
  resource_library_doc : TextDocument -> result LibraryDoc
}.

(** ** The observable calls of the manager *)

Inductive fs_op : Type :=
  | OpMkdir (p : string)
  | OpWriteText (p : string) (text : string)
  | OpRename (src dst : string).

Inductive event : Type :=
  | EvLogException (e : exn)
  | EvCall (fn : string) (arg : string)
  | EvExecutor (id : nat) (max_workers : nat) (start_method : string)
  | EvSubmit (id : nat) (k : ImportKind) (nm : string) (args : list string)
  | EvResult (id : nat) (timeout : nat)
  | EvShutdown (id : nat) (wait : bool)
  | EvFs (op : fs_op)
  | EvAddFileWatchers (globs : list string)
  | EvRemoveFileWatcher (globs : list string)
  | EvChanged (k : ImportKind) (docs : list LibraryDoc)
  | EvTimerStart (interval : nat)
  | EvTimerCancel.

(** ** SimpleLRUCache *)

(** Modelled from the spec: [robotcode.core.utils.caching.SimpleLRUCache]
    is not among the sources.  "Results are memoized by (name, base_dir,
    extra_vars_fingerprint, [kind-specific flags]) in a bounded LRU
    (default 256 entries, LRU eviction).  The LRU is cleared on any
    registry removal of that kind."  The key is the tuple of positional
    arguments handed to [get]; the most recently used entry is first. *)
Definition SimpleLRUCache (K : Type) : Type := list (K * string).

Definition max_items : nat := 256.

Fixpoint lru_find {K} `{EqDecision K} (key : K) (c : SimpleLRUCache K)
  : option string :=
  match c with
  | [] => None
  | (k, v) :: rest => if decide (k = key) then Some v else lru_find key rest
  end.

Fixpoint lru_remove {K} `{EqDecision K} (key : K) (c : SimpleLRUCache K)
  : SimpleLRUCache K :=
  match c with
  | [] => []
  | (k, v) :: rest =>
      if decide (k = key) then lru_remove key rest
      else (k, v) :: lru_remove key rest
  end.

Definition lru_put {K} `{EqDecision K} (key : K) (v : string)
  (c : SimpleLRUCache K) : SimpleLRUCache K :=
  take max_items ((key, v) :: lru_remove key c).

(** ** The state outside the entry registries *)

Definition LibraryFilesKey : Type := string * string * option Vars.
Definition ResourceFilesKey : Type := string * string * string * option Vars.
Definition VariablesFilesKey : Type := string * string * option Vars * bool.

(** [w_blocked]: the seconds the calls so far have spent waiting for
    worker processes; [None] when a call waits for ever, so that it
    never returns to its caller. *)
Record World : Type := mkWorld {
  w_fs : gmap string string;
  w_trace : list event;
  w_executors : nat;
  _library_files_cache : SimpleLRUCache LibraryFilesKey;
  _resource_files_cache : SimpleLRUCache ResourceFilesKey;
  _variables_files_cache : SimpleLRUCache VariablesFilesKey;
  w_blocked : option N
}.

Definition set_fs (f : gmap string string -> gmap string string) (w : World)
  : World :=
  mkWorld (f (w_fs w)) (w_trace w) (w_executors w)
    (_library_files_cache w) (_resource_files_cache w)
    (_variables_files_cache w) (w_blocked w).

Definition emit (ev : event) (w : World) : World :=
  mkWorld (w_fs w) (w_trace w ++ [ev]) (w_executors w)
    (_library_files_cache w) (_resource_files_cache w)
    (_variables_files_cache w) (w_blocked w).

Definition set_executors (n : nat) (w : World) : World :=
  mkWorld (w_fs w) (w_trace w) n
    (_library_files_cache w) (_resource_files_cache w)
    (_variables_files_cache w) (w_blocked w).

Definition set_library_files_cache (c : SimpleLRUCache LibraryFilesKey)
  (w : World) : World :=
  mkWorld (w_fs w) (w_trace w) (w_executors w)
    c (_resource_files_cache w) (_variables_files_cache w) (w_blocked w).

Definition set_resource_files_cache (c : SimpleLRUCache ResourceFilesKey)
  (w : World) : World :=
  mkWorld (w_fs w) (w_trace w) (w_executors w)
    (_library_files_cache w) c (_variables_files_cache w) (w_blocked w).

Definition set_variables_files_cache (c : SimpleLRUCache VariablesFilesKey)
  (w : World) : World :=
  mkWorld (w_fs w) (w_trace w) (w_executors w)
    (_library_files_cache w) (_resource_files_cache w) c (w_blocked w).

(** Waiting: [Some d] for [d] seconds, [None] for ever. *)
Definition add_wait (d t : option N) : option N :=
  match d, t with
  | Some d, Some t => Some (t + d)
  | _, _ => None
  end.

Definition set_blocked (t : option N) (w : World) : World :=
  mkWorld (w_fs w) (w_trace w) (w_executors w)
    (_library_files_cache w) (_resource_files_cache w)
    (_variables_files_cache w) t.

Definition block (d : option N) : M World unit :=
  modify (fun w => set_blocked (add_wait d (w_blocked w)) w).

Definition log (ev : event) : M World unit := modify (emit ev).

(** [SimpleLRUCache.get] with [func] and its positional arguments, on
    one of the three caches. *)
Definition SimpleLRUCache_get {K} `{EqDecision K}
  (getc : World -> SimpleLRUCache K)
  (setc : SimpleLRUCache K -> World -> World)
  (func : K -> M World string) (key : K) : M World string :=
  c <- gets getc ;;
  match lru_find key c with
  | Some v => modify (setc (lru_put key v c)) ;;; ret v
  | None =>
      v <- func key ;;
      modify (fun w => setc (lru_put key v (getc w)) w) ;;;
      ret v
  end.

(** [Path(a, b)] for a relative or absolute second component. *)
Definition is_absolute (p : string) : bool :=
  match p with
  | String c _ => Ascii.eqb c "/"
  | EmptyString => false
  end.

Definition Path2 (a b : string) : string :=
  if is_absolute b then b else a +:+ "/" +:+ b.

(** Comparison of version tuples, [v >= w]. *)
Definition version_ge (v w : nat * nat) : bool :=
  (w.1 <? v.1)%nat || ((w.1 =? v.1)%nat && (w.2 <=? v.2)%nat).

Section Manager.

Variable E : Env.

(** ** Files of the cache directory *)

(** [Path.exists]: [stat] and, on an [OSError] that does not mean
    absence, the error itself. *)
Definition exists_ (p : string) : M World bool :=
  fun w =>
    match read_fault E p with
    | Some (Unreachable e) => (Raise e, w)
    | _ =>
        (Ok (match w_fs w !! p with Some _ => true | None => false end), w)
    end.

Definition read_text (p : string) : M World string :=
  fun w =>
    match read_fault E p with
    | Some f => (Raise (failure_exn f), w)
    | None =>
        match w_fs w !! p with
        | Some text => (Ok text, w)
        | None => (Raise (Error "FileNotFoundError"), w)
        end
    end.

(** [Path.write_text] opens the file itself for writing and writes the
    text into it. *)
Definition write_text (p text : string) : M World unit :=
  fun w =>
    let w1 := emit (EvFs (OpWriteText p text)) w in
    match write_fault E p with
    | Some (e, Some torn) => (Raise e, set_fs (insert p torn) w1)
    | Some (e, None) => (Raise e, w1)
    | None => (Ok tt, set_fs (insert p text) w1)
    end.

Definition mkdir (p : string) : M World unit :=
  fun w =>
    let w1 := emit (EvFs (OpMkdir p)) w in
    match mkdir_fault E p with
    | Some e => (Raise e, w1)
    | None => (Ok tt, w1)
    end.

Definition log_exception (e : exn) : M World unit := log (EvLogException e).

(** ** Path resolution *)

Definition _find_library (key : LibraryFilesKey) : M World string :=
  let '(name, base_dir, variables) := key in
  if contains_variable E name then
    cv <- lift_result (get_resolvable_command_line_variables E) ;;
    lift_result (robot_find_library E name (folder E) base_dir cv variables)
  else
    let result :=
      if bool_decide (name ∈ STDLIBS E)
      then ROBOT_LIBRARY_PACKAGE E +:+ "." +:+ name
      else name in
    if is_library_by_path E result
    then lift_result (find_file_ex E result base_dir "Library")
    else ret result.

Definition find_library (name base_dir : string) (variables : option Vars)
  : M World string :=
  SimpleLRUCache_get _library_files_cache set_library_files_cache
    _find_library (name, base_dir, variables).

Definition __find_resource (key : ResourceFilesKey) : M World string :=
  let '(name, base_dir, file_type, variables) := key in
  log (EvCall "__find_resource" name) ;;;
  if contains_variable E name then
    cv <- lift_result (get_resolvable_command_line_variables E) ;;
    lift_result
      (robot_find_file E name (folder E) base_dir cv variables file_type)
  else lift_result (find_file_ex E name base_dir file_type).

Definition find_resource (name base_dir file_type : string)
  (variables : option Vars) : M World string :=
  SimpleLRUCache_get _resource_files_cache set_resource_files_cache
    __find_resource (name, base_dir, file_type, variables).

(** [__find_variables(name, base_dir, variables, resolve_variables,
    resolve_command_line_vars)]; the decorator [_logger.call] records
    each call. *)
Definition __find_variables (name base_dir : string) (variables : option Vars)
  (resolve_variables resolve_command_line_vars : bool) : M World string :=
  log (EvCall "__find_variables" name) ;;;
  if resolve_variables && contains_variable E name then
    cv <- (if resolve_command_line_vars
           then v <- lift_result (get_resolvable_command_line_variables E) ;;
                ret (Some v)
           else ret None) ;;
    lift_result (robot_find_variables E name (folder E) base_dir cv variables)
  else if version_ge (get_robot_version E) (5, 0)%nat then
    if is_variables_by_path E name
    then lift_result (find_file_ex E name base_dir "Variables")
    else ret name
  else lift_result (find_file_ex E name base_dir "Variables").

(** The cache calls [func] with the four positional arguments it was
    given: the fourth one lands in the parameter [resolve_variables]
    and [resolve_command_line_vars] keeps its default [True]. *)
Definition find_variables (name base_dir : string) (variables : option Vars)
  (resolve_variables resolve_command_line_vars : bool) : M World string :=
  SimpleLRUCache_get _variables_files_cache set_variables_files_cache
    (fun '(a1, a2, a3, a4) => __find_variables a1 a2 a3 a4 true)
    (name, base_dir, variables, resolve_command_line_vars).

(** ** Fingerprinting *)

Definition ignored (patterns : list string) (m : LibraryMetaData) : bool :=
  existsb
    (fun p =>
       (match name m with Some n => pattern_matches E p n | None => false end)
       || (match origin m with
           | Some o => pattern_matches E p o
           | None => false
           end))
    patterns.

Definition set_mtimes (mt : option (gmap string Z)) (m : LibraryMetaData)
  : LibraryMetaData :=
  mkLibraryMetaData (meta_version m) (name m) (member_name m) (origin m)
    (submodule_search_locations m) (by_path m) mt.

Definition nonempty {A} (o : option (list A)) : bool :=
  match o with
  | Some (_ :: _) => true
  | _ => false
  end.

(** The dictionary comprehension over the [*.py] files below every
    submodule search location. *)
Definition submodule_mtimes (locs : list string)
  : result (list (string * Z)) :=
  kvs <~ rmapM
           (fun loc =>
              files <~ iter_files E loc ;;
              rmapM (fun f => t <~ stat_mtime_ns E f ;; Ok (f, t)) files)
           locs ;;
  Ok (concat kvs).

Definition dict_update (d : gmap string Z) (kvs : list (string * Z))
  : gmap string Z :=
  fold_left (fun acc kv => <[kv.1 := kv.2]> acc) kvs d.

(** The part of [get_library_meta] and [get_variables_meta] below the
    construction of [result]. *)
Definition fingerprint (patterns : list string) (import_name : string)
  (result0 : option LibraryMetaData)
  : result (option LibraryMetaData * string) :=
  match result0 with
  | Some r =>
      if ignored patterns r then Ok (None, import_name)
      else
        r1 <~ (match origin r with
               | Some o =>
                   t <~ stat_mtime_ns E o ;;
                   Ok (set_mtimes (Some {[ o := t ]}) r)
               | None => Ok r
               end) ;;
        r2 <~ (if nonempty (submodule_search_locations r1) then
                 kvs <~ submodule_mtimes
                          (default [] (submodule_search_locations r1)) ;;
                 Ok (set_mtimes
                       (Some (dict_update (default ∅ (mtimes r1)) kvs)) r1)
               else Ok r1) ;;
        Ok (Some r2, import_name)
  | None => Ok (None, import_name)
  end.

Definition identify (by_path_p : bool) (import_name : string)
  : result (option LibraryMetaData) :=
  if by_path_p then
    if path_exists E import_name then
      Ok (Some (mkLibraryMetaData (__version__ E)
                  (Some (path_stem (pathlib E) import_name)) None
                  (Some import_name) None true None))
    else Ok None
  else
    module_spec <~ get_module_spec E import_name ;;
    match module_spec with
    | Some ms =>
        match ms_origin ms with
        | Some o =>
            Ok (Some (mkLibraryMetaData (__version__ E)
                        (Some (ms_name ms)) (ms_member_name ms) (Some o)
                        (ms_submodule_search_locations ms) false None))
        | None => Ok None
        end
    | None => Ok None
    end.

Definition get_library_meta (name base_dir : string) (variables : option Vars)
  : M World (option LibraryMetaData * string) :=
  fun w =>
    let '(import_name, w1) := find_library name base_dir variables w in
    let body :=
      nm <~ import_name ;;
      result0 <~ identify (is_library_by_path E nm) nm ;;
      fingerprint (ignored_libraries_patters E) nm result0 in
    match body with
    | Ok r => (Ok r, w1)
    | Raise e =>
        if is_exit e then (Raise e, w1)
        else
          (* [return None, import_name] after the [except] clause *)
          match import_name with
          | Ok nm => (Ok (None, nm), w1)
          | Raise _ => (Raise (Error "UnboundLocalError"), w1)
          end
    end.

Definition get_variables_meta (name base_dir : string)
  (variables : option Vars)
  (resolve_variables resolve_command_line_vars : bool)
  : M World (option LibraryMetaData * string) :=
  fun w =>
    let '(import_name, w1) :=
      find_variables name base_dir variables
        resolve_variables resolve_command_line_vars w in
    let body :=
      nm <~ import_name ;;
      result0 <~ identify (is_variables_by_path E nm) nm ;;
      fingerprint (ignored_variables_patters E) nm result0 in
    match body with
    | Ok r => (Ok r, w1)
    | Raise e =>
        if is_exit e then (Raise e, w1)
        else (* [return None, name] *) (Ok (None, name), w1)
    end.

End Manager.

(** ** Building a libdoc: cache lookup, worker process, cache update *)

Definition meta_file_of (cache_path base : string) : string :=
  Path2 cache_path (base +:+ ".meta.json").

Definition spec_file_of (cache_path base : string) : string :=
  Path2 cache_path (base +:+ ".spec.json").

Section Build.

Variable E : Env.

(** [ProcessPoolExecutor(max_workers=1, mp_context=mp.get_context("spawn"))]:
    executors are numbered in the order of their creation. *)
Definition new_executor : M World nat :=
  fun w =>
    let id := w_executors w in
    (Ok id, emit (EvExecutor id 1 "spawn") (set_executors (S id) w)).

(** The block [if meta is not None: ...] of both [_get_libdoc] closures:
    [Some doc] is its [return], [None] is falling through to the worker.
    [filepath_base] is a property without side effects; it is evaluated
    once here. *)
Definition load_spec (cache_path : string) (meta : option LibraryMetaData)
  : M World (option LibraryDoc) :=
  match meta with
  | None => ret None
  | Some m =>
      base <- lift_result (filepath_base (pathlib E) m) ;;
      let meta_file := meta_file_of cache_path base in
      found <- exists_ E meta_file ;;
      if found then
        try_except
          (try_except
             (text <- read_text E meta_file ;;
              saved_meta <- lift_result (from_json_meta E text) ;;
              if decide (saved_meta = m) then
                let spec_path := spec_file_of cache_path base in
                spec <- read_text E spec_path ;;
                doc <- lift_result (from_json_doc E spec) ;;
                ret (Some doc)
              else ret None)
             (fun e =>
                if is_exit e then raise e else raise (Error "RuntimeError")))
          (fun e =>
             if is_exit e then raise e
             else log_exception e ;;; ret None)
      else ret None
  end.

(** [Future.result(timeout)] on a worker that runs for [run.1] seconds
    and yields [run.2]: how long the call waits, and what it gives. *)
Definition result_wait (timeout : nat) (seconds : option N) : N :=
  match seconds with
  | Some t => N.min t (N.of_nat timeout)
  | None => N.of_nat timeout
  end.

Definition future_result {A} (timeout : nat) (run : option N * result A)
  : result A :=
  match run.1 with
  | Some t =>
      if t <=? N.of_nat timeout then run.2 else Raise (Error "TimeoutError")
  | None => Raise (Error "TimeoutError")
  end.

(** What [.result(LOAD_LIBRARY_TIME_OUT)] gives for the worker of
    executor [id]. *)
Definition run_worker (id : nat) (k : ImportKind) (name : string)
  (args : list string) (working_dir base_dir : string) (cv : option Vars)
  (variables : option Vars) : result LibraryDoc :=
  future_result LOAD_LIBRARY_TIME_OUT
    (worker E id k name args working_dir base_dir cv variables).

(** The seconds the worker of executor [id] runs for; when the command
    line variables raise, nothing is submitted. *)
Definition worker_seconds (id : nat) (k : ImportKind) (name : string)
  (args : list string) (working_dir base_dir : string)
  (command_line_vars : result (option Vars)) (variables : option Vars)
  : option N :=
  match command_line_vars with
  | Ok cv => (worker E id k name args working_dir base_dir cv variables).1
  | Raise _ => Some 0
  end.

(** [executor.shutdown(wait=True)] returns when the worker has ended:
    a call that was not cancelled goes on running after
    [Future.result] has timed out. *)
Definition shutdown_wait (timeout : nat) (seconds : option N) : option N :=
  match seconds with
  | Some t => Some (t - result_wait timeout seconds)
  | None => None
  end.

(** The block from [executor = ProcessPoolExecutor(...)] to
    [executor.shutdown(wait=True)]. *)
Definition run_in_worker (k : ImportKind) (name : string) (args : list string)
  (working_dir base_dir : string) (command_line_vars : result (option Vars))
  (variables : option Vars) : M World LibraryDoc :=
  id <- new_executor ;;
  let seconds :=
    worker_seconds id k name args working_dir base_dir command_line_vars
      variables in
  try_finally
    (try_except
       (cv <- lift_result command_line_vars ;;
        log (EvSubmit id k name args) ;;;
        log (EvResult id LOAD_LIBRARY_TIME_OUT) ;;;
        block (Some (result_wait LOAD_LIBRARY_TIME_OUT seconds)) ;;;
        lift_result
          (run_worker id k name args working_dir base_dir cv variables))
       (fun e =>
          if is_exit e then raise e
          else log_exception e ;;; raise e))
    (log (EvShutdown id true) ;;;
     block (match command_line_vars with
            | Ok _ => shutdown_wait LOAD_LIBRARY_TIME_OUT seconds
            | Raise _ => Some 0
            end)).

(** The block [try: if meta is not None: ...] that follows the worker. *)
Definition save_spec (cache_path : string) (meta : option LibraryMetaData)
  (result : LibraryDoc) : M World unit :=
  try_except
    (match meta with
     | Some m =>
         base <- lift_result (filepath_base (pathlib E) m) ;;
         let meta_file := meta_file_of cache_path base in
         let spec_file := spec_file_of cache_path base in
         mkdir E (path_parent (pathlib E) spec_file) ;;;
         try_except
           (text <- lift_result (as_json_doc E result) ;;
            write_text E spec_file text)
           (fun e =>
              if is_exit e then raise e else raise (Error "RuntimeError")) ;;;
         text <- lift_result (as_json_meta E m) ;;
         write_text E meta_file text
     | None => ret tt
     end)
    (fun e => if is_exit e then raise e else log_exception e).

Definition all_command_line_vars : result (option Vars) :=
  cv <~ get_resolvable_command_line_variables E ;; Ok (Some cv).

(** [get_libdoc_for_library_import._get_libdoc]; [variables] is
    captured from the enclosing call. *)
Definition library_get_libdoc (variables : option Vars)
  (name : string) (args : list string) (working_dir base_dir : string)
  : M World LibraryDoc :=
  ms <- get_library_meta E name base_dir variables ;;
  let meta := ms.1 in
  cached <- load_spec (lib_doc_cache_path E) meta ;;
  match cached with
  | Some doc => ret doc
  | None =>
      result <- run_in_worker Library name args working_dir base_dir
                  all_command_line_vars variables ;;
      save_spec (lib_doc_cache_path E) meta result ;;;
      ret result
  end.

(** [get_libdoc_for_variables_import._get_libdoc]; [variables] and
    [resolve_command_line_vars] are captured from the enclosing call. *)
Definition variables_get_libdoc (variables : option Vars)
  (resolve_command_line_vars : bool)
  (name : string) (args : list string) (working_dir base_dir : string)
  : M World LibraryDoc :=
  ms <- get_variables_meta E name base_dir variables true
          resolve_command_line_vars ;;
  let meta := ms.1 in
  cached <- load_spec (variables_doc_cache_path E) meta ;;
  match cached with
  | Some doc => ret doc
  | None =>
      result <- run_in_worker Variables name args (folder E) base_dir
                  (if resolve_command_line_vars then all_command_line_vars
                   else Ok None)
                  variables ;;
      save_spec (variables_doc_cache_path E) meta result ;;;
      ret result
  end.

End Build.

(** ** Import entries

    An entry is a mutable object; its methods run on the pair of the
    entry and the world.  [references] lists the sentinels of the
    [WeakSet] that are still alive.  A [FileWatcherEntry] is
    represented by the globs it watches.  The closure an entry is
    created with is represented by the variables it captured. *)

Definition FileWatcherEntry : Type := list string.

Definition on_world {X A} (m : M World A) : M (X * World) A :=
  fun s => match m s.2 with (r, w') => (r, (s.1, w')) end.

(** The calls [remove_file_watcher_entry] and [add_file_watchers] of the
    workspace part, recorded as events.  The calls are taken to return:
    an exception raised by the connection to the client inside them is
    not covered. *)
Definition remove_file_watchers (fws : list FileWatcherEntry) (w : World)
  : World :=
  fold_left (fun w fw => emit (EvRemoveFileWatcher fw) w) fws w.

Definition add_file_watchers (globs : list string) (w : World) : World :=
  emit (EvAddFileWatchers globs) w.

Record _LibrariesEntryKey : Type := mk_LibrariesEntryKey {
  lk_name : string;
  lk_args : list string
}.

#[global] Instance _LibrariesEntryKey_eq_dec : EqDecision _LibrariesEntryKey.
Proof. solve_decision. Defined.

Record _LibrariesEntry : Type := mk_LibrariesEntry {
  l_id : nat;
  l_references : list nat;
  l_file_watchers : list FileWatcherEntry;
  l_name : string;
  l_args : list string;
  l_working_dir : string;
  l_base_dir : string;
  l_variables : option Vars;
  l_lib_doc : option LibraryDoc;
  l_ignore_reference : bool
}.

Definition l_set_doc (d : option LibraryDoc) (fws : list FileWatcherEntry)
  (e : _LibrariesEntry) : _LibrariesEntry :=
  mk_LibrariesEntry (l_id e) (l_references e) fws (l_name e) (l_args e)
    (l_working_dir e) (l_base_dir e) (l_variables e) d (l_ignore_reference e).

Definition l_set_references (refs : list nat) (e : _LibrariesEntry)
  : _LibrariesEntry :=
  mk_LibrariesEntry (l_id e) refs (l_file_watchers e) (l_name e) (l_args e)
    (l_working_dir e) (l_base_dir e) (l_variables e) (l_lib_doc e)
    (l_ignore_reference e).

Record _ResourcesEntryKey : Type := mk_ResourcesEntryKey {
  rk_name : string
}.

#[global] Instance _ResourcesEntryKey_eq_dec : EqDecision _ResourcesEntryKey.
Proof. solve_decision. Defined.

(** [r_source] is the resolved source the closure [_get_document] of
    [_get_entry_for_resource_import] captured. *)
Record _ResourcesEntry : Type := mk_ResourcesEntry {
  r_id : nat;
  r_references : list nat;
  r_file_watchers : list FileWatcherEntry;
  r_name : string;
  r_source : string;
  r_document : option TextDocument;
  r_lib_doc : option LibraryDoc
}.

Definition r_set_doc (doc : option TextDocument) (d : option LibraryDoc)
  (fws : list FileWatcherEntry) (e : _ResourcesEntry) : _ResourcesEntry :=
  mk_ResourcesEntry (r_id e) (r_references e) fws (r_name e) (r_source e)
    doc d.

Definition r_set_references (refs : list nat) (e : _ResourcesEntry)
  : _ResourcesEntry :=
  mk_ResourcesEntry (r_id e) refs (r_file_watchers e) (r_name e) (r_source e)
    (r_document e) (r_lib_doc e).

Record _VariablesEntryKey : Type := mk_VariablesEntryKey {
  vk_name : string;
  vk_args : list string
}.

#[global] Instance _VariablesEntryKey_eq_dec : EqDecision _VariablesEntryKey.
Proof. solve_decision. Defined.

Record _VariablesEntry : Type := mk_VariablesEntry {
  v_id : nat;
  v_references : list nat;
  v_file_watchers : list FileWatcherEntry;
  v_name : string;
  v_args : list string;
  v_working_dir : string;
  v_base_dir : string;
  v_variables : option Vars;
  v_resolve_command_line_vars : bool;
  v_lib_doc : option LibraryDoc
}.

Definition v_set_doc (d : option LibraryDoc) (fws : list FileWatcherEntry)
  (e : _VariablesEntry) : _VariablesEntry :=
  mk_VariablesEntry (v_id e) (v_references e) fws (v_name e) (v_args e)
    (v_working_dir e) (v_base_dir e) (v_variables e)
    (v_resolve_command_line_vars e) d.

Definition v_set_references (refs : list nat) (e : _VariablesEntry)
  : _VariablesEntry :=
  mk_VariablesEntry (v_id e) refs (v_file_watchers e) (v_name e) (v_args e)
    (v_working_dir e) (v_base_dir e) (v_variables e)
    (v_resolve_command_line_vars e) (v_lib_doc e).

Definition RESOURCE_EXTENSIONS (robot_version : nat * nat) : list string :=
  if version_ge robot_version (6, 1)%nat
  then [".resource"; ".robot"; ".txt"; ".tsv"; ".rst"; ".rest"; ".json";
        ".rsrc"]
  else [".resource"; ".robot"; ".txt"; ".tsv"; ".rst"; ".rest"].

Definition is_none {A} (o : option A) : bool :=
  match o with Some _ => false | None => true end.

Definition is_nil {A} (l : list A) : bool :=
  match l with [] => true | _ :: _ => false end.

Section Entries.

Variable E : Env.

Definition joinpath (p child : string) : string := p +:+ "/" +:+ child.

(** *** _LibrariesEntry *)

Definition l_invalidate : M (_LibrariesEntry * World) unit :=
  fun s =>
    let '(e, w) := s in
    if is_none (l_lib_doc e) && is_nil (l_file_watchers e) then (Ok tt, s)
    else (Ok tt, (l_set_doc None [] e,
                  remove_file_watchers (l_file_watchers e) w)).

(** The condition under which a changed path concerns the library. *)
Definition l_watches (d : LibraryDoc) (path : string) : bool :=
  (match ld_module_spec d with
   | Some ms =>
       match ms_submodule_search_locations ms with
       | Some locs =>
           existsb
             (fun e => path_is_relative_to E path (path_resolve E e)) locs
       | None => false
       end
   | None => false
   end)
  || (match ld_module_spec d with
      | Some ms =>
          match ms_origin ms with
          | Some o =>
              path_is_relative_to E path (path_parent (pathlib E) o)
          | None => false
          end
      | None => false
      end)
  || (truthy (ld_source d)
      && path_is_relative_to E path
           (path_parent (pathlib E) (default "" (ld_source d))))
  || (is_none (ld_module_spec d) && negb (truthy (ld_source d))
      && nonempty (ld_python_path d)
      && existsb (fun e => path_is_relative_to E path (path_resolve E e))
           (default [] (ld_python_path d))).

Fixpoint l_check_changes (changes : list FileEvent)
  : M (_LibrariesEntry * World) (option FileChangeType) :=
  match changes with
  | [] => ret None
  | change :: rest =>
      if negb (bool_decide (uri_scheme E (fe_uri change) = "file"))
      then l_check_changes rest
      else
        e <- gets fst ;;
        match l_lib_doc e with
        | Some d =>
            if l_watches d (uri_to_path E (fe_uri change))
            then l_invalidate ;;; ret (Some (fe_type change))
            else l_check_changes rest
        | None => l_check_changes rest
        end
  end.

Definition l_check_file_changed (changes : list FileEvent)
  : M (_LibrariesEntry * World) (option FileChangeType) :=
  e <- gets fst ;;
  if is_none (l_lib_doc e) then ret None else l_check_changes changes.

(** The file watchers [_update] registers for a freshly loaded doc. *)
Definition l_watch_globs (d : LibraryDoc) : list (list string) :=
  let source_or_origin :=
    match ld_source d with
    | Some s => Some s
    | None =>
        match ld_module_spec d with
        | Some ms => ms_origin ms
        | None => None
        end
    end in
  let file_globs :=
    match source_or_origin with
    | Some so => [[joinpath (path_parent (pathlib E) so) "**"]]
    | None =>
        match ld_python_path d with
        | Some pp => [map (fun s => joinpath s "**") pp]
        | None => []
        end
    end in
  match ld_module_spec d with
  | Some (mkModuleSpec _ _ (Some locs) _) =>
      let module_globs :=
        map (fun location => joinpath (path_resolve E location) "**") locs in
      match source_or_origin with
      | Some so =>
          if bool_decide
               (path_parent (pathlib E) so ∈ map (path_resolve E) locs)
          then [module_globs]
          else module_globs :: file_globs
      | None => module_globs :: file_globs
      end
  | _ => file_globs
  end.

Definition l_update : M (_LibrariesEntry * World) unit :=
  e <- gets fst ;;
  d <- on_world
         (library_get_libdoc E (l_variables e) (l_name e) (l_args e)
            (l_working_dir e) (l_base_dir e)) ;;
  modify
    (fun s =>
       (l_set_doc (Some d) (l_file_watchers s.1 ++ l_watch_globs d) s.1,
        fold_left (fun w g => add_file_watchers g w) (l_watch_globs d) s.2)).

Definition l_is_valid (e : _LibrariesEntry) : bool :=
  negb (is_none (l_lib_doc e)).

Definition l_get_libdoc : M (_LibrariesEntry * World) LibraryDoc :=
  e <- gets fst ;;
  (if is_none (l_lib_doc e) then l_update else ret tt) ;;;
  e <- gets fst ;;
  match l_lib_doc e with
  | Some d => ret d
  | None => raise (Error "AssertionError")
  end.

End Entries.

Definition ascii_lower (c : ascii) : ascii :=
  let n := N_of_ascii c in
  if (65 <=? n) && (n <=? 90) then ascii_of_N (n + 32) else c.

Fixpoint str_lower (s : string) : string :=
  match s with
  | EmptyString => EmptyString
  | String c r => String (ascii_lower c) (str_lower r)
  end.

Section MoreEntries.

Variable E : Env.

(** *** _ResourcesEntry *)

Definition r_invalidate : M (_ResourcesEntry * World) unit :=
  fun s =>
    let '(e, w) := s in
    if is_none (r_document e) && is_nil (r_file_watchers e) then (Ok tt, s)
    else (Ok tt, (r_set_doc None None [] e,
                  remove_file_watchers (r_file_watchers e) w)).

Definition r_concerns (e : _ResourcesEntry) (path : string) : bool :=
  match r_document e with
  | Some doc =>
      bool_decide
        (path_resolve E path
         = path_resolve E (uri_to_path E (document_uri doc)))
  | None => true
  end.

Fixpoint r_check_file_changed (changes : list FileEvent)
  : M (_ResourcesEntry * World) (option FileChangeType) :=
  match changes with
  | [] => ret None
  | change :: rest =>
      if negb (bool_decide (uri_scheme E (fe_uri change) = "file"))
      then r_check_file_changed rest
      else
        e <- gets fst ;;
        if r_concerns e (uri_to_path E (fe_uri change))
        then r_invalidate ;;; ret (Some (fe_type change))
        else r_check_file_changed rest
  end.

(** The closure [_get_document] of [_get_entry_for_resource_import]. *)
Definition _get_document (source : string) : result TextDocument :=
  let source_path := path_resolve E source in
  let extension := path_suffix E source_path in
  if bool_decide
       (str_lower extension ∈ RESOURCE_EXTENSIONS (get_robot_version E))
  then get_or_open_document E source_path
  else Raise (Error "ImportError").

Definition r_update : M (_ResourcesEntry * World) unit :=
  e <- gets fst ;;
  doc <- lift_result (_get_document (r_source e)) ;;
  modify
    (fun s =>
       match _version doc with
       | None =>
           let globs := [uri_to_path E (document_uri doc)] in
           (r_set_doc (Some doc) (r_lib_doc s.1)
              (r_file_watchers s.1 ++ [globs]) s.1,
            add_file_watchers globs s.2)
       | Some _ =>
           (r_set_doc (Some doc) (r_lib_doc s.1) (r_file_watchers s.1) s.1,
            s.2)
       end).

Definition r_is_valid (e : _ResourcesEntry) : bool :=
  negb (is_none (r_document e)).

Definition r__get_document : M (_ResourcesEntry * World) TextDocument :=
  e <- gets fst ;;
  (if is_none (r_document e) then r_update else ret tt) ;;;
  e <- gets fst ;;
  match r_document e with
  | Some doc => ret doc
  | None => raise (Error "AssertionError")
  end.

Definition r_get_document : M (_ResourcesEntry * World) TextDocument :=
  r__get_document.

Definition r_get_libdoc : M (_ResourcesEntry * World) LibraryDoc :=
  e <- gets fst ;;
  match r_lib_doc e with
  | Some d => ret d
  | None =>
      doc <- r__get_document ;;
      d <- lift_result (resource_library_doc E doc) ;;
      modify
        (fun s =>
           (r_set_doc (r_document s.1) (Some d) (r_file_watchers s.1) s.1,
            s.2)) ;;;
      ret d
  end.

(** *** _VariablesEntry *)

Definition v_invalidate : M (_VariablesEntry * World) unit :=
  fun s =>
    let '(e, w) := s in
    if is_none (v_lib_doc e) && is_nil (v_file_watchers e) then (Ok tt, s)
    else (Ok tt, (v_set_doc None [] e,
                  remove_file_watchers (v_file_watchers e) w)).

Fixpoint v_check_changes (changes : list FileEvent)
  : M (_VariablesEntry * World) (option FileChangeType) :=
  match changes with
  | [] => ret None
  | change :: rest =>
      if negb (bool_decide (uri_scheme E (fe_uri change) = "file"))
      then v_check_changes rest
      else
        e <- gets fst ;;
        let path := uri_to_path E (fe_uri change) in
        let source := default None (ld_source <$> v_lib_doc e) in
        if truthy source && path_exists E path then
          same <- lift_result (path_samefile E path (default "" source)) ;;
          if same : bool
          then v_invalidate ;;; ret (Some (fe_type change))
          else v_check_changes rest
        else v_check_changes rest
  end.

Definition v_check_file_changed (changes : list FileEvent)
  : M (_VariablesEntry * World) (option FileChangeType) :=
  e <- gets fst ;;
  if is_none (v_lib_doc e) then ret None else v_check_changes changes.

Definition v_update : M (_VariablesEntry * World) unit :=
  e <- gets fst ;;
  d <- on_world
         (variables_get_libdoc E (v_variables e)
            (v_resolve_command_line_vars e) (v_name e) (v_args e)
            (v_working_dir e) (v_base_dir e)) ;;
  let globs := [default "None" (ld_source d)] in
  modify
    (fun s =>
       (v_set_doc (Some d) (v_file_watchers s.1 ++ [globs]) s.1,
        add_file_watchers globs s.2)).

Definition v_is_valid (e : _VariablesEntry) : bool :=
  negb (is_none (v_lib_doc e)).

Definition v_get_libdoc : M (_VariablesEntry * World) LibraryDoc :=
  e <- gets fst ;;
  (if is_none (v_lib_doc e) then v_update else ret tt) ;;;
  e <- gets fst ;;
  match v_lib_doc e with
  | Some d => ret d
  | None => raise (Error "AssertionError")
  end.

End MoreEntries.

(** ** The manager

    The three registries are [OrderedDict]s: association lists in
    insertion order, with at most one entry per key. *)

Fixpoint od_get {K V} `{EqDecision K} (key : K) (d : list (K * V))
  : option V :=
  match d with
  | [] => None
  | (k, v) :: rest => if decide (k = key) then Some v else od_get key rest
  end.

Fixpoint od_pop {K V} `{EqDecision K} (key : K) (d : list (K * V))
  : list (K * V) :=
  match d with
  | [] => []
  | (k, v) :: rest =>
      if decide (k = key) then rest else (k, v) :: od_pop key rest
  end.

Fixpoint od_replace {K V} `{EqDecision K} (key : K) (v' : V)
  (d : list (K * V)) : list (K * V) :=
  match d with
  | [] => []
  | (k, v) :: rest =>
      if decide (k = key) then (k, v') :: rest
      else (k, v) :: od_replace key v' rest
  end.

Definition od_setdefault {K V} `{EqDecision K} (key : K) (v : V)
  (d : list (K * V)) : list (K * V) :=
  match od_get key d with
  | Some _ => d
  | None => d ++ [(key, v)]
  end.

Record ImportsManager : Type := mkImportsManager {
  world : World;
  _libaries : list (_LibrariesEntryKey * _LibrariesEntry);
  _resources : list (_ResourcesEntryKey * _ResourcesEntry);
  _variables : list (_VariablesEntryKey * _VariablesEntry);
  next_id : nat;
  _resource_document_changed_timer : option nat;
  _resource_document_changed_documents : list TextDocument
}.

Definition set_world (w : World) (m : ImportsManager) : ImportsManager :=
  mkImportsManager w (_libaries m) (_resources m) (_variables m) (next_id m)
    (_resource_document_changed_timer m)
    (_resource_document_changed_documents m).

Definition set_libaries (d : list (_LibrariesEntryKey * _LibrariesEntry))
  (m : ImportsManager) : ImportsManager :=
  mkImportsManager (world m) d (_resources m) (_variables m) (next_id m)
    (_resource_document_changed_timer m)
    (_resource_document_changed_documents m).

Definition set_resources (d : list (_ResourcesEntryKey * _ResourcesEntry))
  (m : ImportsManager) : ImportsManager :=
  mkImportsManager (world m) (_libaries m) d (_variables m) (next_id m)
    (_resource_document_changed_timer m)
    (_resource_document_changed_documents m).

Definition set_variables (d : list (_VariablesEntryKey * _VariablesEntry))
  (m : ImportsManager) : ImportsManager :=
  mkImportsManager (world m) (_libaries m) (_resources m) d (next_id m)
    (_resource_document_changed_timer m)
    (_resource_document_changed_documents m).

Definition set_next_id (n : nat) (m : ImportsManager) : ImportsManager :=
  mkImportsManager (world m) (_libaries m) (_resources m) (_variables m) n
    (_resource_document_changed_timer m)
    (_resource_document_changed_documents m).

Definition set_timer (t : option nat) (docs : list TextDocument)
  (m : ImportsManager) : ImportsManager :=
  mkImportsManager (world m) (_libaries m) (_resources m) (_variables m)
    (next_id m) t docs.

Definition in_world {A} (m : M World A) : M ImportsManager A :=
  fun mgr => match m (world mgr) with (r, w') => (r, set_world w' mgr) end.

(** One record of the lists [libraries_changed], [resource_changed] and
    [variables_changed] of the dispatcher. *)
Definition Changed (K : Type) : Type :=
  K * FileChangeType * option LibraryDoc.

(** A [for key, entry in registry.items()] loop whose body returns what
    it appends to a list, if anything.  The entries are objects: what
    the body did to them stays when a later iteration raises. *)
Fixpoint for_items {K X R} (body : K -> M (X * World) (option R))
  (reg : list (K * X)) (w : World)
  : result (list R) * (list (K * X) * World) :=
  match reg with
  | [] => (Ok [], ([], w))
  | (k, e) :: rest =>
      match body k (e, w) with
      | (Raise ex, (e', w')) => (Raise ex, ((k, e') :: rest, w'))
      | (Ok res, (e', w')) =>
          match for_items body rest w' with
          | (r, (rest', w'')) =>
              (match r with
               | Ok found =>
                   Ok (match res with
                       | Some x => x :: found
                       | None => found
                       end)
               | Raise ex => Raise ex
               end,
               ((k, e') :: rest', w''))
          end
      end
  end.

Definition record_change {K} (key : K) (result : option FileChangeType)
  (lib_doc : option LibraryDoc) : option (Changed K) :=
  match result with
  | Some t => Some (key, t, lib_doc)
  | None => None
  end.

Definition changed_docs {K} (changes : list (Changed K)) : list LibraryDoc :=
  omap (fun c => c.2) changes.

Definition deleted_keys {K} (changes : list (Changed K)) : list K :=
  omap (fun c => if decide (c.1.2 = DELETED) then Some c.1.1 else None)
    changes.

Fixpoint forM_ {S A} (f : A -> M S unit) (l : list A) : M S unit :=
  match l with
  | [] => ret tt
  | x :: rest => f x ;;; forM_ f rest
  end.

Section Dispatcher.

Variable E : Env.

Definition l_scan_body (changes : list FileEvent) (key : _LibrariesEntryKey)
  : M (_LibrariesEntry * World) (option (Changed _LibrariesEntryKey)) :=
  e <- gets fst ;;
  lib_doc <- (if l_is_valid e then d <- l_get_libdoc E ;; ret (Some d)
              else ret None) ;;
  result <- l_check_file_changed E changes ;;
  ret (record_change key result lib_doc).

Definition r_scan_body (changes : list FileEvent) (key : _ResourcesEntryKey)
  : M (_ResourcesEntry * World) (option (Changed _ResourcesEntryKey)) :=
  e <- gets fst ;;
  lib_doc <- (if r_is_valid e then d <- r_get_libdoc E ;; ret (Some d)
              else ret None) ;;
  result <- r_check_file_changed E changes ;;
  ret (record_change key result lib_doc).

Definition v_scan_body (changes : list FileEvent) (key : _VariablesEntryKey)
  : M (_VariablesEntry * World) (option (Changed _VariablesEntryKey)) :=
  e <- gets fst ;;
  lib_doc <- (if v_is_valid e then d <- v_get_libdoc E ;; ret (Some d)
              else ret None) ;;
  result <- v_check_file_changed E changes ;;
  ret (record_change key result lib_doc).

Definition scan_libraries (changes : list FileEvent)
  : M ImportsManager (list (Changed _LibrariesEntryKey)) :=
  fun mgr =>
    match for_items (l_scan_body changes) (_libaries mgr) (world mgr) with
    | (r, (reg, w)) => (r, set_world w (set_libaries reg mgr))
    end.

Definition scan_resources (changes : list FileEvent)
  : M ImportsManager (list (Changed _ResourcesEntryKey)) :=
  fun mgr =>
    match for_items (r_scan_body changes) (_resources mgr) (world mgr) with
    | (r, (reg, w)) => (r, set_world w (set_resources reg mgr))
    end.

Definition scan_variables (changes : list FileEvent)
  : M ImportsManager (list (Changed _VariablesEntryKey)) :=
  fun mgr =>
    match for_items (v_scan_body changes) (_variables mgr) (world mgr) with
    | (r, (reg, w)) => (r, set_world w (set_variables reg mgr))
    end.

(** [__remove_library_entry].  The second test of the references does
    not mention [now]. *)
Definition __remove_library_entry (entry_key : _LibrariesEntryKey)
  (entry : _LibrariesEntry) (now : bool) : M ImportsManager unit :=
  try_finally
    (if is_nil (l_references entry) || now then
       if is_nil (l_references entry) then
         mgr <- get ;;
         match od_get entry_key (_libaries mgr) with
         | Some e1 =>
             if decide (l_id e1 = l_id entry) then
               modify (set_libaries (od_pop entry_key (_libaries mgr))) ;;;
               in_world (fun w => (Ok tt, (l_invalidate (entry, w)).2.2))
             else ret tt
         | None => ret tt
         end
       else ret tt
     else ret tt)
    (in_world (modify (set_library_files_cache []))).

(** [__remove_resource_entry].  Both tests of the references mention
    [now]. *)
Definition __remove_resource_entry (entry_key : _ResourcesEntryKey)
  (entry : _ResourcesEntry) (now : bool) : M ImportsManager unit :=
  try_finally
    (if is_nil (r_references entry) || now then
       if is_nil (r_references entry) || now then
         mgr <- get ;;
         match od_get entry_key (_resources mgr) with
         | Some e1 =>
             if decide (r_id e1 = r_id entry) then
               modify (set_resources (od_pop entry_key (_resources mgr))) ;;;
               in_world (fun w => (Ok tt, (r_invalidate (entry, w)).2.2))
             else ret tt
         | None => ret tt
         end
       else ret tt
     else ret tt)
    (in_world (modify (set_resource_files_cache []))).

(** [__remove_variables_entry].  The second test of the references does
    not mention [now]. *)
Definition __remove_variables_entry (entry_key : _VariablesEntryKey)
  (entry : _VariablesEntry) (now : bool) : M ImportsManager unit :=
  try_finally
    (if is_nil (v_references entry) || now then
       if is_nil (v_references entry) then
         mgr <- get ;;
         match od_get entry_key (_variables mgr) with
         | Some e1 =>
             if decide (v_id e1 = v_id entry) then
               modify (set_variables (od_pop entry_key (_variables mgr))) ;;;
               in_world (fun w => (Ok tt, (v_invalidate (entry, w)).2.2))
             else ret tt
         | None => ret tt
         end
       else ret tt
     else ret tt)
    (in_world (modify (set_variables_files_cache []))).

(** [self._libaries[l]] and its two siblings. *)
Definition getitem {K V} `{EqDecision K} (d : list (K * V)) (key : K)
  : M ImportsManager V :=
  match od_get key d with
  | Some v => ret v
  | None => raise (Error "KeyError")
  end.

Definition announce (k : ImportKind) (docs : list LibraryDoc)
  : M ImportsManager unit :=
  in_world (log (EvChanged k docs)).

Definition did_change_watched_files (changes : list FileEvent)
  : M ImportsManager unit :=
  libraries_changed <- scan_libraries changes ;;
  resource_changed <-
    try_except (scan_resources changes)
      (fun e => in_world (log_exception e) ;;; raise e) ;;
  variables_changed <- scan_variables changes ;;
  (if is_nil libraries_changed then ret tt
   else
     forM_ (fun l =>
              mgr <- get ;;
              entry <- getitem (_libaries mgr) l ;;
              __remove_library_entry l entry true)
       (deleted_keys libraries_changed) ;;;
     announce Library (changed_docs libraries_changed)) ;;;
  (if is_nil resource_changed then ret tt
   else
     forM_ (fun r =>
              mgr <- get ;;
              entry <- getitem (_resources mgr) r ;;
              __remove_resource_entry r entry true)
       (deleted_keys resource_changed) ;;;
     announce Resource (changed_docs resource_changed)) ;;;
  (if is_nil variables_changed then ret tt
   else
     forM_ (fun v =>
              mgr <- get ;;
              entry <- getitem (_variables mgr) v ;;
              __remove_variables_entry v entry true)
       (deleted_keys variables_changed) ;;;
     announce Variables (changed_docs variables_changed)).

End Dispatcher.

(** ** Open resource documents: the debounce timer

    [_resource_document_changed_timer] holds the interval of the
    [threading.Timer] that is running, if any.  The document store keeps
    one [TextDocument] per uri: membership in the set of pending
    documents is decided by the uri. *)

Definition _resource_document_changed_timer_interval : nat := 1.

Definition pending (document : TextDocument) (docs : list TextDocument)
  : bool :=
  existsb (fun d => bool_decide (document_uri d = document_uri document)) docs.

Section Debounce.

Variable E : Env.

(** The handler of [documents.did_change]; the decorator [language_id]
    restricts it to robotframework documents. *)
Definition resource_document_changed (document : TextDocument)
  : M ImportsManager unit :=
  mgr <- get ;;
  if pending document (_resource_document_changed_documents mgr) then ret tt
  else
    (match _resource_document_changed_timer mgr with
     | Some _ => in_world (log EvTimerCancel)
     | None => ret tt
     end) ;;;
    modify
      (fun mgr =>
         set_timer (Some _resource_document_changed_timer_interval)
           (_resource_document_changed_documents mgr ++ [document]) mgr) ;;;
    in_world (log (EvTimerStart _resource_document_changed_timer_interval)).

(** The body of the loop of [__resource_document_changed]: the doc it
    appends to [resource_changed], if any. *)
Definition r_changed_body (document : TextDocument) (key : _ResourcesEntryKey)
  : M (_ResourcesEntry * World) (option LibraryDoc) :=
  try_except
    (e <- gets fst ;;
     if negb (r_is_valid e) then ret None
     else
       doc <- r_get_document E ;;
       if bool_decide (document_uri doc = document_uri document) then
         lib_doc <- r_get_libdoc E ;;
         r_invalidate ;;;
         ret (Some lib_doc)
       else ret None)
    (fun e => if is_exit e then raise e else ret None).

Definition __resource_document_changed (document : TextDocument)
  : M ImportsManager unit :=
  resource_changed <-
    (fun mgr =>
       match for_items (r_changed_body document) (_resources mgr) (world mgr)
       with
       | (r, (reg, w)) => (r, set_world w (set_resources reg mgr))
       end) ;;
  if is_nil resource_changed then ret tt
  else announce Resource resource_changed.

(** The callback of the timer. *)
Definition __resource_documents_changed : M ImportsManager unit :=
  mgr <- get ;;
  let documents := _resource_document_changed_documents mgr in
  modify (set_timer None []) ;;;
  forM_ __resource_document_changed documents.

(** The timer thread: a timer that was cancelled or never started does
    not call back. *)
Definition timer_expired : M ImportsManager unit :=
  mgr <- get ;;
  match _resource_document_changed_timer mgr with
  | Some _ => __resource_documents_changed
  | None => ret tt
  end.

End Debounce.

(** ** The facade *)

Section Facade.

Variable E : Env.

Definition at_library {A} (key : _LibrariesEntryKey)
  (m : M (_LibrariesEntry * World) A) : M ImportsManager A :=
  fun mgr =>
    match od_get key (_libaries mgr) with
    | None => (Raise (Error "KeyError"), mgr)
    | Some e =>
        match m (e, world mgr) with
        | (r, (e', w')) =>
            (r, set_world w'
                  (set_libaries (od_replace key e' (_libaries mgr)) mgr))
        end
    end.

Definition at_resource {A} (key : _ResourcesEntryKey)
  (m : M (_ResourcesEntry * World) A) : M ImportsManager A :=
  fun mgr =>
    match od_get key (_resources mgr) with
    | None => (Raise (Error "KeyError"), mgr)
    | Some e =>
        match m (e, world mgr) with
        | (r, (e', w')) =>
            (r, set_world w'
                  (set_resources (od_replace key e' (_resources mgr)) mgr))
        end
    end.

Definition at_variables {A} (key : _VariablesEntryKey)
  (m : M (_VariablesEntry * World) A) : M ImportsManager A :=
  fun mgr =>
    match od_get key (_variables mgr) with
    | None => (Raise (Error "KeyError"), mgr)
    | Some e =>
        match m (e, world mgr) with
        | (r, (e', w')) =>
            (r, set_world w'
                  (set_variables (od_replace key e' (_variables mgr)) mgr))
        end
    end.

Definition add_reference (sentinel : option nat) (refs : list nat)
  : list nat :=
  match sentinel with
  | Some s => if bool_decide (s ∈ refs) then refs else refs ++ [s]
  | None => refs
  end.

Definition get_libdoc_for_library_import (name : string) (args : list string)
  (base_dir : string) (sentinel : option nat) (variables : option Vars)
  : M ImportsManager LibraryDoc :=
  source <- in_world (find_library E name base_dir variables) ;;
  cv <- lift_result (get_resolvable_command_line_variables E) ;;
  resolved_args <-
    lift_result (resolve_args E args (folder E) base_dir (Some cv) variables) ;;
  let entry_key := mk_LibrariesEntryKey source resolved_args in
  modify
    (fun mgr =>
       match od_get entry_key (_libaries mgr) with
       | Some _ => mgr
       | None =>
           set_next_id (S (next_id mgr))
             (set_libaries
                (_libaries mgr
                 ++ [(entry_key,
                      mk_LibrariesEntry (next_id mgr) [] [] name args
                        (folder E) base_dir variables None
                        (is_none sentinel))])
                mgr)
       end) ;;;
  at_library entry_key
    (modify
       (fun s =>
          (if l_ignore_reference s.1 then s.1
           else l_set_references (add_reference sentinel (l_references s.1))
                  s.1,
           s.2))) ;;;
  at_library entry_key (l_get_libdoc E).

Definition get_libdoc_for_variables_import (name : string)
  (args : list string) (base_dir : string) (sentinel : option nat)
  (variables : option Vars)
  (resolve_variables resolve_command_line_vars : bool)
  : M ImportsManager LibraryDoc :=
  source <- in_world
              (find_variables E name base_dir variables resolve_variables
                 resolve_command_line_vars) ;;
  cv <- (if resolve_command_line_vars
         then v <- lift_result (get_resolvable_command_line_variables E) ;;
              ret (Some v)
         else ret None) ;;
  resolved_args <-
    lift_result (resolve_args E args (folder E) base_dir cv variables) ;;
  let entry_key := mk_VariablesEntryKey source resolved_args in
  modify
    (fun mgr =>
       match od_get entry_key (_variables mgr) with
       | Some _ => mgr
       | None =>
           set_next_id (S (next_id mgr))
             (set_variables
                (_variables mgr
                 ++ [(entry_key,
                      mk_VariablesEntry (next_id mgr) [] [] name
                        resolved_args (folder E) base_dir variables
                        resolve_command_line_vars None)])
                mgr)
       end) ;;;
  at_variables entry_key
    (modify
       (fun s =>
          (v_set_references (add_reference sentinel (v_references s.1)) s.1,
           s.2))) ;;;
  at_variables entry_key (v_get_libdoc E).

Definition _get_entry_for_resource_import (name base_dir : string)
  (sentinel : option nat) (variables : option Vars)
  : M ImportsManager _ResourcesEntryKey :=
  source <- in_world (find_resource E name base_dir "Resource" variables) ;;
  let entry_key := mk_ResourcesEntryKey source in
  modify
    (fun mgr =>
       match od_get entry_key (_resources mgr) with
       | Some _ => mgr
       | None =>
           set_next_id (S (next_id mgr))
             (set_resources
                (_resources mgr
                 ++ [(entry_key,
                      mk_ResourcesEntry (next_id mgr) [] [] name source
                        None None)])
                mgr)
       end) ;;;
  at_resource entry_key
    (modify
       (fun s =>
          (r_set_references (add_reference sentinel (r_references s.1)) s.1,
           s.2))) ;;;
  ret entry_key.

Definition get_libdoc_for_resource_import (name base_dir : string)
  (sentinel : option nat) (variables : option Vars)
  : M ImportsManager LibraryDoc :=
  entry_key <- _get_entry_for_resource_import name base_dir sentinel
                 variables ;;
  at_resource entry_key (r_get_libdoc E).

End Facade.

(** ** A concrete environment

    POSIX-style [parent] and [stem] for paths without trailing or
    doubled separators, and an environment built from them; the
    examples below run the manager in it. *)

Fixpoint split_last (sep : ascii) (s : string) : option (string * string) :=
  match s with
  | EmptyString => None
  | String c r =>
      match split_last sep r with
      | Some (a, b) => Some (String c a, b)
      | None =>
          if Ascii.eqb c sep then Some (EmptyString, r) else None
      end
  end.

Definition posix_name (s : string) : string :=
  match split_last "/" s with
  | Some (_, b) => b
  | None => s
  end.

Definition posix_parent (s : string) : string :=
  match split_last "/" s with
  | Some (EmptyString, _) => "/"
  | Some (a, _) => a
  | None => "."
  end.

Definition posix_stem (s : string) : string :=
  let n := posix_name s in
  match split_last "." n with
  | Some (EmptyString, _) => n
  | Some (a, _) => a
  | None => n
  end.

Definition posix_suffix (s : string) : string :=
  let n := posix_name s in
  match split_last "." n with
  | Some (EmptyString, _) => ""
  | Some (_, b) => "." +:+ b
  | None => ""
  end.

Definition posix : PathLib := mkPathLib posix_parent posix_stem.

Fixpoint is_prefix (p s : string) : bool :=
  match p, s with
  | EmptyString, _ => true
  | String a p', String b s' => Ascii.eqb a b && is_prefix p' s'
  | _, _ => false
  end.

Definition is_lower_hex (c : ascii) : bool :=
  let n := N_of_ascii c in
  ((48 <=? n) && (n <=? 57)) || ((97 <=? n) && (n <=? 102)).

Fixpoint string_forallb (f : ascii -> bool) (s : string) : bool :=
  match s with
  | EmptyString => true
  | String c r => f c && string_forallb f r
  end.

(** ** The filepath base in the words of the specification *)

Definition sum_N (l : list N) : N := foldr N.add 0 l.

(** Adler-32 (RFC 1950, 8.2): [s1] is one plus the sum of all bytes,
    [s2] is the sum of the values [s1] has after each byte, both taken
    modulo 65521; the checksum is [s2 * 65536 + s1]. *)
Definition adler_s1 (data : list N) : N := 1 + sum_N data.

Definition adler_s2 (data : list N) : N :=
  sum_N (map (fun k => adler_s1 (take k data)) (seq 1 (length data))).

Definition adler32_rfc (data : list N) : N :=
  (adler_s2 data mod 65521) * 65536 + adler_s1 data mod 65521.

(** The number a string of lowercase hexadecimal digits denotes. *)
Definition hex_digit_value (c : ascii) : option N :=
  let n := N_of_ascii c in
  if (48 <=? n) && (n <=? 57) then Some (n - 48)
  else if (97 <=? n) && (n <=? 102) then Some (n - 87)
  else None.

Fixpoint hex_value_from (v : N) (s : string) : option N :=
  match s with
  | EmptyString => Some v
  | String c r =>
      match hex_digit_value c with
      | Some d => hex_value_from (16 * v + d) r
      | None => None
      end
  end.

Definition hex_value (s : string) : option N := hex_value_from 0 s.

(** [r] is [s] with every character [a] replaced by [b]. *)
Definition replaced (a b : ascii) (s r : string) : Prop :=
  String.length r = String.length s
  /\ forall i,
       String.get i r
       = (fun c => if Ascii.eqb c a then b else c) <$> String.get i s.

(** A library next to a directory whose name is the single byte 255,
    which is no UTF-8: its parent path decodes to a lone surrogate. *)
Definition escaped_origin : string :=
  "/w/" +:+ String (ascii_of_N 255) "/My.py".

Definition escaped_meta : LibraryMetaData :=
  mkLibraryMetaData "0.1" (Some "My") None (Some escaped_origin) None true
    None.

(** ** Vocabulary of the properties *)

(** Both [_get_libdoc] closures have the same three blocks; they differ
    in the fingerprinting call, the cache directory and the worker. *)
Definition get_libdoc_with (E : Env)
  (get_meta : M World (option LibraryMetaData * string))
  (cache_path : string) (worker : M World LibraryDoc) : M World LibraryDoc :=
  ms <- get_meta ;;
  let meta := ms.1 in
  cached <- load_spec E cache_path meta ;;
  match cached with
  | Some doc => ret doc
  | None =>
      result <- worker ;;
      save_spec E cache_path meta result ;;;
      ret result
  end.

(** What the worker process yields for a build. *)
Definition worker_outcome (E : Env) (id : nat) (k : ImportKind)
  (name : string) (args : list string) (working_dir base_dir : string)
  (command_line_vars : result (option Vars)) (variables : option Vars)
  : result LibraryDoc :=
  cv <~ command_line_vars ;;
  run_worker E id k name args working_dir base_dir cv variables.

(** The calls between the creation of an executor and its shutdown. *)
Definition worker_calls (id : nat) (k : ImportKind) (name : string)
  (args : list string) (command_line_vars : result (option Vars))
  (outcome : result LibraryDoc) : list event :=
  (match command_line_vars with
   | Ok _ => [EvSubmit id k name args; EvResult id LOAD_LIBRARY_TIME_OUT]
   | Raise _ => []
   end)
  ++ (match outcome with
      | Ok _ => []
      | Raise e => if is_exit e then [] else [EvLogException e]
      end).

Definition fs_ops (tr : list event) : list fs_op :=
  omap (fun ev => match ev with EvFs op => Some op | _ => None end) tr.

Definition is_executor_event (ev : event) : bool :=
  match ev with
  | EvExecutor _ _ _ | EvSubmit _ _ _ _ | EvResult _ _ | EvShutdown _ _ => true
  | _ => false
  end.

Definition is_changed_event (ev : event) : bool :=
  match ev with
  | EvChanged _ _ => true
  | _ => false
  end.

(** [m] names its pair of cache files, unless it is a by-path meta
    whose origin has a parent path that is not UTF-8. *)
Definition base_known (P : PathLib) (m : LibraryMetaData) : Prop :=
  is_ok (filepath_base P m) = true
  \/ (by_path m = true
      /\ filepath_base P m = Raise (Error "UnicodeEncodeError")
      /\ exists o, origin m = Some o
                   /\ utf8_valid (string_bytes (path_parent P o)) = false).

(** The lookup of the stored pair of [m] ends with [e] before anything
    is read: [m] has no filepath base, or the probe [meta_file.exists()]
    raises. *)
Definition lookup_refused (E : Env) (cache_path : string)
  (m : LibraryMetaData) (e : exn) : Prop :=
  filepath_base (pathlib E) m = Raise e
  \/ exists base,
       filepath_base (pathlib E) m = Ok base
       /\ read_fault E (meta_file_of cache_path base) = Some (Unreachable e).

(** Waiting for [d] more seconds. *)
Definition blocked_for (d : option N) (w : World) : World :=
  set_blocked (add_wait d (w_blocked w)) w.

(** No call on the cache files raises [SystemExit] or
    [KeyboardInterrupt]. *)
Definition cache_io_ordinary (E : Env) : Prop :=
  (forall p f, read_fault E p = Some f -> is_exit (failure_exn f) = false)
  /\ (forall p e t, write_fault E p = Some (e, t) -> is_exit e = false)
  /\ (forall p e, mkdir_fault E p = Some e -> is_exit e = false)
  /\ (forall t e, from_json_meta E t = Raise e -> is_exit e = false)
  /\ (forall t e, from_json_doc E t = Raise e -> is_exit e = false)
  /\ (forall m e, as_json_meta E m = Raise e -> is_exit e = false)
  /\ (forall d e, as_json_doc E d = Raise e -> is_exit e = false).

(** The stored pair of [m] is there and loads as [(m, doc)]. *)
Definition stored_pair (E : Env) (cache_path : string) (w : World)
  (m : LibraryMetaData) (doc : LibraryDoc) : Prop :=
  exists base mtext stext,
    filepath_base (pathlib E) m = Ok base
    /\ w_fs w !! meta_file_of cache_path base = Some mtext
    /\ read_fault E (meta_file_of cache_path base) = None
    /\ from_json_meta E mtext = Ok m
    /\ w_fs w !! spec_file_of cache_path base = Some stext
    /\ read_fault E (spec_file_of cache_path base) = None
    /\ from_json_doc E stext = Ok doc.

(** [meta.json] of [m] exists and can be probed, and reading or parsing
    it or the [spec.json] it vouches for fails with an error. *)
Definition stored_pair_error (E : Env) (cache_path : string) (w : World)
  (m : LibraryMetaData) : Prop :=
  exists base mtext,
    filepath_base (pathlib E) m = Ok base
    /\ w_fs w !! meta_file_of cache_path base = Some mtext
    /\ ((exists k, read_fault E (meta_file_of cache_path base)
                   = Some (Unreadable (Error k)))
        \/ (read_fault E (meta_file_of cache_path base) = None
            /\ exists k, from_json_meta E mtext = Raise (Error k))
        \/ (read_fault E (meta_file_of cache_path base) = None
            /\ from_json_meta E mtext = Ok m
            /\ ((exists k, read_fault E (spec_file_of cache_path base)
                           = Some (Unreadable (Error k))
                           \/ read_fault E (spec_file_of cache_path base)
                              = Some (Unreachable (Error k)))
                \/ (read_fault E (spec_file_of cache_path base) = None
                    /\ w_fs w !! spec_file_of cache_path base = None)
                \/ (read_fault E (spec_file_of cache_path base) = None
                    /\ exists stext k,
                         w_fs w !! spec_file_of cache_path base = Some stext
                         /\ from_json_doc E stext = Raise (Error k))))).

(** "Each write is atomic (write to a temporary file then rename)": the
    file [p] got its content by a rename from another path. *)
Definition written_atomically (p : string) (ops : list fs_op) : Prop :=
  exists tmp, tmp <> p /\ OpRename tmp p ∈ ops.

Definition is_call_event (ev : event) : bool :=
  match ev with
  | EvCall _ _ => true
  | _ => false
  end.

Definition is_log_event (ev : event) : bool :=
  match ev with
  | EvLogException _ => true
  | _ => false
  end.

(** A step from [w] to [w'] that leaves the cache directory and the
    executors alone and records nothing but calls. *)
Definition quiet (w w' : World) : Prop :=
  w_fs w' = w_fs w
  /\ w_executors w' = w_executors w
  /\ exists tr, w_trace w' = w_trace w ++ tr
                /\ forallb is_call_event tr = true.

Definition emits (evs : list event) (w : World) : World :=
  mkWorld (w_fs w) (w_trace w ++ evs) (w_executors w)
    (_library_files_cache w) (_resource_files_cache w)
    (_variables_files_cache w) (w_blocked w).

(** The operations on the cache directory a build can leave in the
    trace when it stores the pair of [m] and [doc]: the directory is
    made, then [spec.json] is written, then [meta.json]; a step that
    fails is the last one. *)
Definition store_ops (E : Env) (cache_path base : string)
  (m : LibraryMetaData) (doc : LibraryDoc) (ops : list fs_op) : Prop :=
  let dir := path_parent (pathlib E) (spec_file_of cache_path base) in
  ops = [OpMkdir dir]
  \/ (exists text,
        as_json_doc E doc = Ok text
        /\ mkdir_fault E dir = None
        /\ ops = [OpMkdir dir; OpWriteText (spec_file_of cache_path base) text]
        /\ (write_fault E (spec_file_of cache_path base) <> None
            \/ exists e, as_json_meta E m = Raise e))
  \/ (exists text mtext,
        as_json_doc E doc = Ok text
        /\ mkdir_fault E dir = None
        /\ write_fault E (spec_file_of cache_path base) = None
        /\ as_json_meta E m = Ok mtext
        /\ ops = [OpMkdir dir;
                  OpWriteText (spec_file_of cache_path base) text;
                  OpWriteText (meta_file_of cache_path base) mtext]).

(** ** A concrete workspace

    The folder [/w] with a library [My.py], a variables file [vars.py]
    and a resource [a.resource]; the cache lives in [/c/libdoc] and
    [/c/variables].  The faults of the cache directory, the clock of
    the source files and the worker are left open. *)

Definition demo_doc : LibraryDoc :=
  mkLibraryDoc "My" (Some "/w/My.py") None None None "keywords of My".

Definition demo_vars_doc : LibraryDoc :=
  mkLibraryDoc "vars" (Some "/w/vars.py") None None None "variables of vars".

Definition demo_resource_doc : LibraryDoc :=
  mkLibraryDoc "a" (Some "/w/a.resource") None None None "keywords of a".

Definition demo_meta_at (t : Z) : LibraryMetaData :=
  mkLibraryMetaData "0.1" (Some "My") None (Some "/w/My.py") None true
    (Some {[ "/w/My.py" := t ]}).

Definition demo_meta : LibraryMetaData := demo_meta_at 100.

(** A codec that knows the metas of [My.py] at the times 99 and 100. *)
Definition demo_as_json_meta (m : LibraryMetaData) : result string :=
  if decide (m = demo_meta_at 100) then Ok "meta of My at 100"
  else if decide (m = demo_meta_at 99) then Ok "meta of My at 99"
  else Raise (Error "TypeError").

Definition demo_from_json_meta (t : string) : result LibraryMetaData :=
  if decide (t = "meta of My at 100") then Ok (demo_meta_at 100)
  else if decide (t = "meta of My at 99") then Ok (demo_meta_at 99)
  else Raise (Error "JSONDecodeError").

Definition demo_as_json_doc (d : LibraryDoc) : result string :=
  Ok (ld_body d).

Definition demo_from_json_doc (t : string) : result LibraryDoc :=
  if decide (t = "keywords of My") then Ok demo_doc
  else Raise (Error "JSONDecodeError").

Definition demo_find_file_ex (name base_dir file_type : string)
  : result string :=
  Ok (Path2 base_dir name).

Definition demo_by_path (s : string) : bool :=
  bool_decide (posix_suffix s = ".py").

Fixpoint drop_chars (n : nat) (s : string) : string :=
  match n, s with
  | S n', String _ r => drop_chars n' r
  | _, _ => s
  end.

Definition timed_env
  (rf : string -> option read_failure)
  (wf : string -> option (exn * option string))
  (stat : string -> result Z)
  (run : nat -> option N * result LibraryDoc) : Env :=
  {| pathlib := posix;
     path_resolve := fun p => p;
     path_is_relative_to := fun p q => is_prefix q p;
     path_exists := fun _ => true;
     path_samefile := fun p q => Ok (bool_decide (p = q));
     path_suffix := posix_suffix;
     stat_mtime_ns := stat;
     iter_files := fun _ => Ok [];
     uri_scheme := fun u => if is_prefix "file://" u then "file" else "untitled";
     uri_to_path := drop_chars 7;
     __version__ := "0.1";
     folder := "/w";
     lib_doc_cache_path := "/c/libdoc";
     variables_doc_cache_path := "/c/variables";
     ignored_libraries_patters := [];
     ignored_variables_patters := [];
     pattern_matches := fun p s => bool_decide (p = s);
     get_robot_version := (6, 1)%nat;
     contains_variable := fun _ => false;
     STDLIBS := ["OperatingSystem"];
     ROBOT_LIBRARY_PACKAGE := "robot.libraries";
     is_library_by_path := demo_by_path;
     is_variables_by_path := demo_by_path;
     robot_find_library := fun _ _ _ _ _ => Raise (Error "DataError");
     robot_find_variables := fun _ _ _ _ _ => Raise (Error "DataError");
     robot_find_file := fun _ _ _ _ _ _ => Raise (Error "DataError");
     find_file_ex := demo_find_file_ex;
     get_module_spec := fun _ => Ok None;
     resolve_args := fun args _ _ _ _ => Ok args;
     get_resolvable_command_line_variables := Ok ∅;
     as_json_meta := demo_as_json_meta;
     from_json_meta := demo_from_json_meta;
     as_json_doc := demo_as_json_doc;
     from_json_doc := demo_from_json_doc;
     read_fault := rf;
     write_fault := wf;
     mkdir_fault := fun _ => None;
     worker := fun id _ _ _ _ _ _ _ => run id;
     get_or_open_document := fun p => Ok (mkTextDocument ("file://" +:+ p) None);
     resource_library_doc := fun _ => Ok demo_resource_doc |}.

(** Every worker takes one second. *)
Definition demo_env
  (rf : string -> option read_failure)
  (wf : string -> option (exn * option string))
  (stat : string -> result Z)
  (yield : nat -> result LibraryDoc) : Env :=
  timed_env rf wf stat (fun id => (Some 1, yield id)).

Definition no_fault {A} (p : string) : option A := None.

Definition demo_clock (p : string) : result Z := Ok 100%Z.

(** The environment without faults, with a worker that succeeds. *)
Definition calm : Env :=
  demo_env no_fault no_fault demo_clock (fun _ => Ok demo_doc).

Definition empty_world : World := mkWorld ∅ [] 0 [] [] [] (Some 0).

(** The cache directory after a build of [My.py] at time 100. *)
Definition cached_world : World :=
  mkWorld {[ "/c/libdoc/00d700a7_My.meta.json" := "meta of My at 100";
             "/c/libdoc/00d700a7_My.spec.json" := "keywords of My" ]}
    [] 0 [] [] [] (Some 0).

(** Reading any cache file is interrupted from the keyboard. *)
Definition interrupted : Env :=
  demo_env (fun _ => Some (Unreadable KeyboardInterrupt)) no_fault demo_clock
    (fun _ => Ok demo_doc).

(** Every read and every write of a cache file fails with an error. *)
Definition faulty : Env :=
  demo_env (fun _ => Some (Unreadable (Error "PermissionError")))
    (fun _ => Some (Error "OSError", None)) demo_clock
    (fun _ => Ok demo_doc).

(** Writing [spec.json] fails after four characters. *)
Definition torn : Env :=
  demo_env no_fault
    (fun p =>
       if decide (p = "/c/libdoc/00d700a7_My.spec.json")
       then Some (Error "OSError", Some "keyw") else None)
    demo_clock (fun _ => Ok demo_doc).

(** The cache directory after a build of [My.py] at time 99. *)
Definition stale_world : World :=
  mkWorld {[ "/c/libdoc/00d700a7_My.meta.json" := "meta of My at 99";
             "/c/libdoc/00d700a7_My.spec.json" := "old keywords of My" ]}
    [] 0 [] [] [] (Some 0).

(** Writing any cache file ends in [SystemExit]. *)
Definition exiting : Env :=
  demo_env no_fault (fun _ => Some (SystemExit, None)) demo_clock
    (fun _ => Ok demo_doc).

(** What a build adds to the trace [before] when it stores the pair of
    [m]: nothing but [mkdir] and [write_text] on the two final paths,
    [meta.json] only after [spec.json], and not at all when the write of
    [spec.json] fails; and nothing at all when [m] has no filepath
    base. *)
Definition persist_order (E : Env) (cache_path : string)
  (m : LibraryMetaData) (before after : list event) : Prop :=
  exists tr,
    after = before ++ tr
    /\ match filepath_base (pathlib E) m with
       | Ok base =>
           let spec := spec_file_of cache_path base in
           let meta := meta_file_of cache_path base in
           let ops := fs_ops tr in
           (forall op, op ∈ ops ->
              op = OpMkdir (path_parent (pathlib E) spec)
              \/ exists t, op = OpWriteText spec t \/ op = OpWriteText meta t)
           /\ (forall i t, ops !! i = Some (OpWriteText meta t) ->
                 write_fault E spec = None
                 /\ exists j t', (j < i)%nat
                                 /\ ops !! j = Some (OpWriteText spec t'))
           /\ (write_fault E spec <> None ->
               forall t, OpWriteText meta t ∉ ops)
       | Raise _ =>
           (* no name for the two files: nothing is stored *)
           fs_ops tr = []
       end.

(** The outcome of a build is the stored Doc, or the exception of the
    fingerprinting or of naming the cache files, or what the worker
    yields. *)
Definition cache_transparent (E : Env) (cache_path : string) (w : World)
  (fresh : result (option LibraryMetaData * string))
  (worker : result LibraryDoc) (outcome : result LibraryDoc * World) : Prop :=
  (exists m src doc,
     fresh = Ok (Some m, src) /\ stored_pair E cache_path w m doc
     /\ outcome.1 = Ok doc)
  \/ (exists e, fresh = Raise e /\ outcome.1 = Raise e)
  \/ (exists m src e,
        fresh = Ok (Some m, src) /\ filepath_base (pathlib E) m = Raise e
        /\ outcome.1 = Raise e)
  \/ (outcome.1 = worker
      /\ w_executors outcome.2 = S (w_executors w)
      /\ forall m src doc, fresh = Ok (Some m, src)
                           -> ~ stored_pair E cache_path w m doc).

(** The clock of the source files cannot be read. *)
Definition stat_fails : Env :=
  demo_env no_fault no_fault (fun _ => Raise (Error "OSError"))
    (fun _ => Ok demo_vars_doc).

(** A build that started executor [id] and shut it down again; what
    follows the shutdown concerns no executor. *)
Definition one_shot_worker (id : nat) (k : ImportKind) (name : string)
  (args : list string) (command_line_vars : result (option Vars))
  (outcome : result LibraryDoc) (before after : list event) : Prop :=
  exists tr,
    after = before ++ [EvExecutor id 1 "spawn"]
            ++ worker_calls id k name args command_line_vars outcome
            ++ [EvShutdown id true] ++ tr
    /\ forallb (fun ev => negb (is_executor_event ev)) tr = true.


(** The probe [meta_file.exists()] for the pair of the fresh meta
    returns. *)
Definition probe_returns (E : Env) (cache_path : string)
  (fresh : result (option LibraryMetaData * string)) : Prop :=
  forall m src base e,
    fresh = Ok (Some m, src) ->
    filepath_base (pathlib E) m = Ok base ->
    read_fault E (meta_file_of cache_path base) <> Some (Unreachable e).

(** No path of the cache directory can be resolved: the directory may
    not be searched. *)
Definition locked : Env :=
  demo_env (fun _ => Some (Unreachable (Error "PermissionError"))) no_fault
    demo_clock (fun _ => Ok demo_doc).

(** The worker of the first executor runs for 100 seconds before it
    yields the Doc; the later ones take one second. *)
Definition overrunning : Env :=
  timed_env no_fault no_fault demo_clock
    (fun id => match id with
               | O => (Some 100, Ok demo_doc)
               | S _ => (Some 1, Ok demo_doc)
               end).

(** The worker of the first executor never ends. *)
Definition hanging : Env :=
  timed_env no_fault no_fault demo_clock
    (fun id => match id with
               | O => (None, Ok demo_doc)
               | S _ => (Some 1, Ok demo_doc)
               end).

(** A library entry for [My.py], not loaded yet, held by sentinel 7. *)
Definition demo_library_key : _LibrariesEntryKey :=
  mk_LibrariesEntryKey "/w/My.py" [].

Definition demo_library_entry : _LibrariesEntry :=
  mk_LibrariesEntry 0 [7%nat] [] "My.py" [] "/w" "/w" None None false.

(** ** What one pass of the dispatcher finds

    The type of the first change with a [file] uri whose path satisfies
    [concerns]. *)
Fixpoint first_change (E : Env) (concerns : string -> bool)
  (changes : list FileEvent) : option FileChangeType :=
  match changes with
  | [] => None
  | change :: rest =>
      if bool_decide (uri_scheme E (fe_uri change) = "file")
         && concerns (uri_to_path E (fe_uri change))
      then Some (fe_type change)
      else first_change E concerns rest
  end.

(** A library entry is affected when it holds a doc that watches one of
    the changed paths. *)
Definition l_change (E : Env) (changes : list FileEvent)
  (e : _LibrariesEntry) : option (FileChangeType * LibraryDoc) :=
  match l_lib_doc e with
  | Some d =>
      match first_change E (l_watches E d) changes with
      | Some t => Some (t, d)
      | None => None
      end
  | None => None
  end.

Definition l_scanned (E : Env) (changes : list FileEvent)
  (e : _LibrariesEntry) : _LibrariesEntry :=
  match l_change E changes e with
  | Some _ => l_set_doc None [] e
  | None => e
  end.

(** The doc a resource entry holds: the one it has, or the one its
    document yields. *)
Definition r_held (E : Env) (e : _ResourcesEntry)
  : result (option LibraryDoc) :=
  match r_document e with
  | None => Ok None
  | Some doc =>
      match r_lib_doc e with
      | Some d => Ok (Some d)
      | None => d <~ resource_library_doc E doc ;; Ok (Some d)
      end
  end.

Definition r_change (E : Env) (changes : list FileEvent)
  (e : _ResourcesEntry) : option FileChangeType :=
  first_change E (r_concerns E e) changes.

Definition r_scanned (E : Env) (changes : list FileEvent)
  (e : _ResourcesEntry) : _ResourcesEntry :=
  let e1 :=
    match r_held E e with
    | Ok (Some d) => r_set_doc (r_document e) (Some d) (r_file_watchers e) e
    | _ => e
    end in
  match r_change E changes e with
  | Some _ =>
      if is_none (r_document e1) && is_nil (r_file_watchers e1) then e1
      else r_set_doc None None [] e1
  | None => e1
  end.

Fixpoint v_first_change (E : Env) (source : option string)
  (changes : list FileEvent) : result (option FileChangeType) :=
  match changes with
  | [] => Ok None
  | change :: rest =>
      if bool_decide (uri_scheme E (fe_uri change) = "file")
         && truthy source
         && path_exists E (uri_to_path E (fe_uri change))
      then
        same <~ path_samefile E (uri_to_path E (fe_uri change))
                  (default "" source) ;;
        if same : bool then Ok (Some (fe_type change))
        else v_first_change E source rest
      else v_first_change E source rest
  end.

Definition v_change (E : Env) (changes : list FileEvent)
  (e : _VariablesEntry) : result (option (FileChangeType * LibraryDoc)) :=
  match v_lib_doc e with
  | Some d =>
      t <~ v_first_change E (ld_source d) changes ;;
      Ok (match t with Some t => Some (t, d) | None => None end)
  | None => Ok None
  end.

Definition v_scanned (E : Env) (changes : list FileEvent)
  (e : _VariablesEntry) : _VariablesEntry :=
  match v_change E changes e with
  | Ok (Some _) => v_set_doc None [] e
  | _ => e
  end.

(** The event a kind is announced with, if any of its entries was
    affected. *)
Definition changed_event {K} (k : ImportKind) (found : list (Changed K))
  : list event :=
  if is_nil found then [] else [EvChanged k (changed_docs found)].

Definition l_found (E : Env) (changes : list FileEvent)
  (reg : list (_LibrariesEntryKey * _LibrariesEntry))
  : list (Changed _LibrariesEntryKey) :=
  omap (fun ke => match l_change E changes ke.2 with
                  | Some (t, d) => Some (ke.1, t, Some d)
                  | None => None
                  end) reg.

(** [None] when holding a doc raises for one of the entries. *)
Definition r_found (E : Env) (changes : list FileEvent)
  (reg : list (_ResourcesEntryKey * _ResourcesEntry))
  : result (list (Changed _ResourcesEntryKey)) :=
  found <~ rmapM (fun ke =>
                    held <~ r_held E ke.2 ;;
                    Ok (match r_change E changes ke.2 with
                        | Some t => Some (ke.1, t, held)
                        | None => None
                        end)) reg ;;
  Ok (omap (fun x => x) found).

Definition v_found (E : Env) (changes : list FileEvent)
  (reg : list (_VariablesEntryKey * _VariablesEntry))
  : result (list (Changed _VariablesEntryKey)) :=
  found <~ rmapM (fun ke =>
                    c <~ v_change E changes ke.2 ;;
                    Ok (match c with
                        | Some (t, d) => Some (ke.1, t, Some d)
                        | None => None
                        end)) reg ;;
  Ok (omap (fun x => x) found).

Definition map_values {K X} (f : X -> X) (reg : list (K * X)) : list (K * X) :=
  map (fun ke => (ke.1, f ke.2)) reg.

(** The registries are dictionaries: no key occurs twice. *)
Definition registries_ok (mgr : ImportsManager) : Prop :=
  NoDup (map fst (_libaries mgr))
  /\ NoDup (map fst (_resources mgr))
  /\ NoDup (map fst (_variables mgr)).

Definition not_changed (ev : event) : bool := negb (is_changed_event ev).

(** An entry that holds nothing and watches nothing. *)
Definition l_spent (e : _LibrariesEntry) : Prop :=
  l_lib_doc e = None /\ l_file_watchers e = [].

Definition r_spent (e : _ResourcesEntry) : Prop :=
  r_document e = None /\ r_file_watchers e = [].

Definition v_spent (e : _VariablesEntry) : Prop :=
  v_lib_doc e = None /\ v_file_watchers e = [].

(** [evs] is announced between [mgr] and [mgr']; apart from that,
    entries of the one kind [k] are dropped from their registry. *)
Definition announces (k : ImportKind) (evs : list event)
  (mgr mgr' : ImportsManager) : Prop :=
  w_trace (world mgr') = w_trace (world mgr) ++ evs
  /\ match k with
     | Library =>
         sublist (_libaries mgr') (_libaries mgr)
         /\ _resources mgr' = _resources mgr
         /\ _variables mgr' = _variables mgr
     | Resource =>
         _libaries mgr' = _libaries mgr
         /\ sublist (_resources mgr') (_resources mgr)
         /\ _variables mgr' = _variables mgr
     | Variables =>
         _libaries mgr' = _libaries mgr
         /\ _resources mgr' = _resources mgr
         /\ sublist (_variables mgr') (_variables mgr)
     end.

(** A manager that has loaded [My.py], [a.resource] and [vars.py];
    every entry is still referenced by a sentinel. *)
Definition loaded_library_entry : _LibrariesEntry :=
  mk_LibrariesEntry 0 [7%nat] [["/w/**"]] "My.py" [] "/w" "/w" None
    (Some demo_doc) false.

Definition demo_resource_key : _ResourcesEntryKey :=
  mk_ResourcesEntryKey "/w/a.resource".

Definition demo_document : TextDocument :=
  mkTextDocument "file:///w/a.resource" (Some 3%nat).

Definition loaded_resource_entry : _ResourcesEntry :=
  mk_ResourcesEntry 1 [8%nat; 9%nat] [] "a.resource" "/w/a.resource"
    (Some demo_document) (Some demo_resource_doc).

Definition demo_variables_key : _VariablesEntryKey :=
  mk_VariablesEntryKey "/w/vars.py" [].

Definition loaded_variables_entry : _VariablesEntry :=
  mk_VariablesEntry 2 [10%nat] [["/w/vars.py"]] "vars.py" [] "/w" "/w" None
    true (Some demo_vars_doc).

Definition demo_manager : ImportsManager :=
  mkImportsManager empty_world
    [(demo_library_key, loaded_library_entry)]
    [(demo_resource_key, loaded_resource_entry)]
    [(demo_variables_key, loaded_variables_entry)]
    3 None [].

(** A manager without entries. *)
Definition empty_manager : ImportsManager :=
  mkImportsManager empty_world [] [] [] 0 None [].

(** ** Vocabulary of the debounce properties *)

(** A burst of [n] notifications [did_change] for [document], with no
    expiry of the timer in between. *)
Fixpoint burst (n : nat) (document : TextDocument) : M ImportsManager unit :=
  match n with
  | O => ret tt
  | S n => resource_document_changed document ;;; burst n document
  end.

(** The entry is valid and holds the edited document. *)
Definition r_edited (document : TextDocument) (e : _ResourcesEntry) : bool :=
  match r_document e with
  | Some doc => bool_decide (document_uri doc = document_uri document)
  | None => false
  end.

(** What the loop of [__resource_document_changed] appends for an entry. *)
Definition r_reconciled (E : Env) (document : TextDocument)
  (e : _ResourcesEntry) : result (option LibraryDoc) :=
  if r_edited document e then
    match r_held E e with
    | Ok held => Ok held
    | Raise ex => if is_exit ex then Raise ex else Ok None
    end
  else Ok None.

(** The entry after the loop has visited it. *)
Definition r_after_edit (E : Env) (document : TextDocument)
  (e : _ResourcesEntry) : _ResourcesEntry :=
  if r_edited document e then
    match r_held E e with
    | Ok (Some _) => r_set_doc None None [] e
    | _ => e
    end
  else e.

Definition resources_changed_event (docs : list LibraryDoc) : list event :=
  if is_nil docs then [] else [EvChanged Resource docs].

(** An environment in which names with a variable are resolved by
    robot's own search. *)
Definition templating : Env :=
  {| pathlib := pathlib calm;
     path_resolve := path_resolve calm;
     path_is_relative_to := path_is_relative_to calm;
     path_exists := path_exists calm;
     path_samefile := path_samefile calm;
     path_suffix := path_suffix calm;
     stat_mtime_ns := stat_mtime_ns calm;
     iter_files := iter_files calm;
     uri_scheme := uri_scheme calm;
     uri_to_path := uri_to_path calm;
     __version__ := __version__ calm;
     folder := folder calm;
     lib_doc_cache_path := lib_doc_cache_path calm;
     variables_doc_cache_path := variables_doc_cache_path calm;
     ignored_libraries_patters := ignored_libraries_patters calm;
     ignored_variables_patters := ignored_variables_patters calm;
     pattern_matches := pattern_matches calm;
     get_robot_version := get_robot_version calm;
     contains_variable := is_prefix "${";
     STDLIBS := STDLIBS calm;
     ROBOT_LIBRARY_PACKAGE := ROBOT_LIBRARY_PACKAGE calm;
     is_library_by_path := is_library_by_path calm;
     is_variables_by_path := is_variables_by_path calm;
     robot_find_library := robot_find_library calm;
     robot_find_variables := fun _ _ _ _ _ => Ok "/w/res/vars.py";
     robot_find_file := robot_find_file calm;
     find_file_ex := find_file_ex calm;
     get_module_spec := get_module_spec calm;
     resolve_args := resolve_args calm;
     get_resolvable_command_line_variables :=
       get_resolvable_command_line_variables calm;
     as_json_meta := as_json_meta calm;
     from_json_meta := from_json_meta calm;
     as_json_doc := as_json_doc calm;
     from_json_doc := from_json_doc calm;
     read_fault := read_fault calm;
     write_fault := write_fault calm;
     mkdir_fault := mkdir_fault calm;
     worker := worker calm;
     get_or_open_document := get_or_open_document calm;
     resource_library_doc := resource_library_doc calm |}.

(** ** Vocabulary of the entry properties *)

(** The change has a uri of scheme [file]. *)
Definition is_file_event (E : Env) (change : FileEvent) : bool :=
  bool_decide (uri_scheme E (fe_uri change) = "file").

(** The environment in which no path exists any more. *)
Definition vanished : Env :=
  {| pathlib := pathlib calm;
     path_resolve := path_resolve calm;
     path_is_relative_to := path_is_relative_to calm;
     path_exists := fun _ => false;
     path_samefile := path_samefile calm;
     path_suffix := path_suffix calm;
     stat_mtime_ns := stat_mtime_ns calm;
     iter_files := iter_files calm;
     uri_scheme := uri_scheme calm;
     uri_to_path := uri_to_path calm;
     __version__ := __version__ calm;
     folder := folder calm;
     lib_doc_cache_path := lib_doc_cache_path calm;
     variables_doc_cache_path := variables_doc_cache_path calm;
     ignored_libraries_patters := ignored_libraries_patters calm;
     ignored_variables_patters := ignored_variables_patters calm;
     pattern_matches := pattern_matches calm;
     get_robot_version := get_robot_version calm;
     contains_variable := contains_variable calm;
     STDLIBS := STDLIBS calm;
     ROBOT_LIBRARY_PACKAGE := ROBOT_LIBRARY_PACKAGE calm;
     is_library_by_path := is_library_by_path calm;
     is_variables_by_path := is_variables_by_path calm;
     robot_find_library := robot_find_library calm;
     robot_find_variables := robot_find_variables calm;
     robot_find_file := robot_find_file calm;
     find_file_ex := find_file_ex calm;
     get_module_spec := get_module_spec calm;
     resolve_args := resolve_args calm;
     get_resolvable_command_line_variables :=
       get_resolvable_command_line_variables calm;
     as_json_meta := as_json_meta calm;
     from_json_meta := from_json_meta calm;
     as_json_doc := as_json_doc calm;
     from_json_doc := from_json_doc calm;
     read_fault := read_fault calm;
     write_fault := write_fault calm;
     mkdir_fault := mkdir_fault calm;
     worker := worker calm;
     get_or_open_document := get_or_open_document calm;
     resource_library_doc := resource_library_doc calm |}.

(** The timer runs exactly while documents are pending, and no document
    is pending twice. *)
Definition debounce_ok (mgr : ImportsManager) : Prop :=
  (_resource_document_changed_timer mgr = None
   <-> _resource_document_changed_documents mgr = [])
  /\ NoDup (map document_uri (_resource_document_changed_documents mgr)).


(** * The workspace part (common/parts/workspace.py) *)

Module WorkspacePart.

(** ** Settings

    The settings are what the client sent: any JSON value.  A number
    is kept as an integer; the code below treats all numbers alike. *)
#[warnings="-register-all"]
Inductive json : Type :=
| JNull
| JBool (b : bool)
| JNumber (z : Z)
| JString (s : string)
| JList (l : list json)
| JDict (d : list (string * json)).

(** [needle in hay] for two [str]. *)
Fixpoint string_contains (needle hay : string) : bool :=
  is_prefix needle hay
  || match hay with
     | EmptyString => false
     | String _ rest => string_contains needle rest
     end.

(** [s.split(sep)] with a separator of one character. *)
Fixpoint split_on (sep : ascii) (s : string) : list string :=
  match s with
  | EmptyString => [EmptyString]
  | String c rest =>
      if Ascii.eqb c sep then EmptyString :: split_on sep rest
      else
        match split_on sep rest with
        | x :: xs => String c x :: xs
        | [] => [String c EmptyString]
        end
  end.

(** [str(section)]. *)
Definition str_of (section : option string) : string :=
  default "None" section.

(** [sub_key in result]: keys of a dict, substrings of a str, elements
    of a list; the other values are not iterable. *)
Definition contains (sub_key : string) (value : json) : result bool :=
  match value with
  | JDict d =>
      Ok (match od_get sub_key d with Some _ => true | None => false end)
  | JString s => Ok (string_contains sub_key s)
  | JList l =>
      Ok (existsb (fun e => match e with
                            | JString s => bool_decide (s = sub_key)
                            | _ => false
                            end) l)
  | JNull | JBool _ | JNumber _ => Raise (Error "TypeError")
  end.

(** [result.get(sub_key, None)]: only a dict has [get]. *)
Definition get_item (sub_key : string) (value : json) : result json :=
  match value with
  | JDict d => Ok (default JNull (od_get sub_key d))
  | _ => Raise (Error "AttributeError")
  end.

(** The loop over the sub keys of the section. *)
Fixpoint lookup_section (sub_keys : list string) (value : json)
  : result json :=
  match sub_keys with
  | [] => Ok value
  | sub_key :: rest =>
      found <~ contains sub_key value ;;
      if found : bool then
        value' <~ get_item sub_key value ;;
        lookup_section rest value'
      else Ok (JDict [])
  end.

(** The value a path of keys leads to when every step is a key of a
    dict. *)
Fixpoint dict_path (sub_keys : list string) (value : json) : option json :=
  match sub_keys with
  | [] => Some value
  | sub_key :: rest =>
      match value with
      | JDict d =>
          match od_get sub_key d with
          | Some value' => dict_path rest value'
          | None => None
          end
      | _ => None
      end
  end.

(** What [get_configuration_raw] returns: the task of a request sent to
    the client, or a task that is completed already. *)
Inductive configuration_task : Type :=
| Requested (scope_uri section : option string)
| Completed (values : list json).

(** [client_configuration] is the test of the client capabilities. *)
Definition get_configuration_raw (client_configuration : bool)
  (settings : json) (section : option string) (scope_uri : option string)
  (request : bool) : result configuration_task :=
  if client_configuration && request then Ok (Requested scope_uri section)
  else
    r <~ lookup_section (split_on "." (str_of section)) settings ;;
    Ok (Completed [r]).

(** ** Workspace folders

    A [Uri] is represented by the string it was made from; how long it
    is and when it equals a [DocumentUri] is decided by the class
    [Uri], which is a collaborator. *)
Record WorkspaceFolder : Type := mkWorkspaceFolder {
  wf_id : nat;
  wf_name : string;
  wf_uri : string;
  wf_document_uri : string
}.

Record TypesWorkspaceFolder : Type := mkTypesWorkspaceFolder {
  twf_uri : string;
  twf_name : string
}.

Record WorkspaceFoldersChangeEvent : Type := mkWorkspaceFoldersChangeEvent {
  added : list TypesWorkspaceFolder;
  removed : list TypesWorkspaceFolder
}.

(** The state of the part the folders need; the values of the settings
    cache are of a type [C] the code here never looks into. *)
Record Workspace (C : Type) : Type := mkWorkspace {
  _workspace_folders : list WorkspaceFolder;
  _settings_cache : list ((option nat * string) * C);
  next_folder_id : nat
}.
Arguments mkWorkspace {C} _ _ _.
Arguments _workspace_folders {C} _.
Arguments _settings_cache {C} _.
Arguments next_folder_id {C} _.

(** [sorted(l, key=key, reverse=True)]: a stable sort, the elements of
    equal key keep their order. *)
Fixpoint insert_desc {A} (key : A -> nat) (x : A) (l : list A) : list A :=
  match l with
  | [] => [x]
  | y :: rest =>
      if (key x <? key y)%nat then y :: insert_desc key x rest
      else x :: y :: rest
  end.

Fixpoint sorted_desc {A} (key : A -> nat) (l : list A) : list A :=
  match l with
  | [] => []
  | x :: rest => insert_desc key x (sorted_desc key rest)
  end.

(** [list.remove(x)] for objects compared by identity. *)
Fixpoint list_remove (id : nat) (l : list WorkspaceFolder)
  : option (list WorkspaceFolder) :=
  match l with
  | [] => None
  | w :: rest =>
      if decide (wf_id w = id) then Some rest
      else match list_remove id rest with
           | Some rest' => Some (w :: rest')
           | None => None
           end
  end.

Section Folders.

Variable E : Env.
Variable uri_len : string -> nat.
Variable uri_eq : string -> string -> bool.

Definition get_workspace_folder (folders : list WorkspaceFolder)
  (uri : string) : option WorkspaceFolder :=
  let found :=
    sorted_desc (fun v1 => uri_len (wf_uri v1))
      (List.filter
         (fun f =>
            path_is_relative_to E (uri_to_path E uri)
              (uri_to_path E (wf_uri f)))
         folders) in
  match found with
  | f :: _ => Some f
  | [] => None
  end.

(** The folders [to_remove] collects for one folder of the event. *)
Definition folders_of (folders : list WorkspaceFolder)
  (f : TypesWorkspaceFolder) : list WorkspaceFolder :=
  List.filter (fun w => uri_eq (wf_uri w) (twf_uri f)) folders.

Fixpoint remove_folders {C} (to_remove : list WorkspaceFolder)
  : M (Workspace C) unit :=
  match to_remove with
  | [] => ret tt
  | r :: rest =>
      ws <- get ;;
      match list_remove (wf_id r) (_workspace_folders ws) with
      | None => raise (Error "ValueError")
      | Some folders =>
          modify
            (fun ws =>
               mkWorkspace folders
                 (List.filter
                    (fun kc => negb (bool_decide (kc.1.1 = Some (wf_id r))))
                    (_settings_cache ws))
                 (next_folder_id ws)) ;;;
          remove_folders rest
      end
  end.

Fixpoint append_folders {C} (l : list TypesWorkspaceFolder)
  : M (Workspace C) unit :=
  match l with
  | [] => ret tt
  | a :: rest =>
      modify
        (fun ws =>
           mkWorkspace
             (_workspace_folders ws
              ++ [mkWorkspaceFolder (next_folder_id ws) (twf_name a)
                    (twf_uri a) (twf_uri a)])
             (_settings_cache ws) (S (next_folder_id ws))) ;;;
      append_folders rest
  end.

Definition _workspace_did_change_workspace_folders {C}
  (event : WorkspaceFoldersChangeEvent) : M (Workspace C) unit :=
  ws <- get ;;
  let to_remove :=
    flat_map (folders_of (_workspace_folders ws)) (removed event)
    ++ flat_map (folders_of (_workspace_folders ws)) (added event) in
  remove_folders to_remove ;;;
  append_folders (added event).

End Folders.

End WorkspacePart.

(** The folders [append_folders] creates, numbered from [id] on. *)
Fixpoint new_folders (id : nat) (l : list WorkspacePart.TypesWorkspaceFolder)
  : list WorkspacePart.WorkspaceFolder :=
  match l with
  | [] => []
  | a :: rest =>
      WorkspacePart.mkWorkspaceFolder id (WorkspacePart.twf_name a)
        (WorkspacePart.twf_uri a) (WorkspacePart.twf_uri a)
      :: new_folders (S id) rest
  end.

(** The folder is one of [l], as an object. *)
Definition is_one_of (l : list WorkspacePart.WorkspaceFolder) (id : nat)
  : bool :=
  existsb (fun r => bool_decide (id = WorkspacePart.wf_id r)) l.

(** * Code lenses and inlay hints (common/parts/code_lens.py,
    common/parts/inlay_hint.py)

    An event called with arguments gives back one result per handler:
    the value the handler returned, or the exception it raised.  The
    handlers are collaborators; the functions below take the list of
    their results.  [CodeLens] and [InlayHint] objects are mutable and
    may be shared between results: they live in a heap and are named by
    their address. *)

Module LensParts.

Definition Position : Type := (nat * nat)%type.
Definition Range : Type := (Position * Position)%type.

Record CodeLens : Type := mkCodeLens {
  cl_range : Range;
  cl_command : option string;
  cl_data : option string
}.

Record InlayHint : Type := mkInlayHint {
  ih_position : Position;
  ih_label : string
}.

Inductive handled (A : Type) : Type :=
| Raised (e : exn)
| Returned (value : option A).
Arguments Raised {A} _.
Arguments Returned {A} _.

Definition is_cancelled (e : exn) : bool :=
  match e with
  | Error kind => bool_decide (kind = "CancelledError")
  | _ => false
  end.

(** The objects, and what [_logger.exception] was called with. *)
Record PartState (O : Type) : Type := mkPartState {
  objects : gmap nat O;
  logged : list exn
}.
Arguments mkPartState {O} _ _.
Arguments objects {O} _.
Arguments logged {O} _.

Definition log_unless_cancelled {O} (e : exn) : M (PartState O) unit :=
  if is_cancelled e then ret tt
  else modify (fun s => mkPartState (objects s) (logged s ++ [e])).

Section Parts.

(** [document.range_to_utf16] and [document.position_to_utf16]. *)
Variable range_to_utf16 : TextDocument -> Range -> Range.
Variable position_to_utf16 : TextDocument -> Position -> Position.

(** [check_current_task_canceled()] at the [i]-th turn of a loop raises
    CancelledError when the task has been cancelled by then. *)
Variable canceled : nat -> bool.

Definition check_current_task_canceled {O} (i : nat)
  : M (PartState O) unit :=
  if canceled i then raise (Error "CancelledError") else ret tt.

(** *** code_lens.py *)

Fixpoint code_lens_collect (i : nat) (handler_results : list (handled (list nat)))
  (results : list nat) : M (PartState CodeLens) (list nat) :=
  match handler_results with
  | [] => ret results
  | r :: rest =>
      check_current_task_canceled i ;;;
      match r with
      | Raised e =>
          log_unless_cancelled e ;;; code_lens_collect (S i) rest results
      | Returned None => code_lens_collect (S i) rest results
      | Returned (Some l) => code_lens_collect (S i) rest (results ++ l)
      end
  end.

(** [for r in results: r.range = document.range_to_utf16(r.range)]. *)
Definition convert_ranges (document : TextDocument) (results : list nat)
  : M (PartState CodeLens) unit :=
  modify
    (fun s =>
       mkPartState
         (fold_left
            (fun h r =>
               alter
                 (fun c =>
                    mkCodeLens (range_to_utf16 document (cl_range c))
                      (cl_command c) (cl_data c)) r h)
            results (objects s))
         (logged s)).

Definition _text_document_code_lens (document : option TextDocument)
  (handler_results : list (handled (list nat)))
  : M (PartState CodeLens) (option (list nat)) :=
  match document with
  | None => ret None
  | Some document =>
      results <- code_lens_collect 0 handler_results [] ;;
      if is_nil results then ret None
      else convert_ranges document results ;;; ret (Some results)
  end.

Fixpoint code_lens_resolve_collect (i : nat)
  (handler_results : list (handled CodeLens)) (results : list CodeLens)
  : M (PartState CodeLens) (list CodeLens) :=
  match handler_results with
  | [] => ret results
  | r :: rest =>
      check_current_task_canceled i ;;;
      match r with
      | Raised e =>
          log_unless_cancelled e ;;;
          code_lens_resolve_collect (S i) rest results
      | Returned None => code_lens_resolve_collect (S i) rest results
      | Returned (Some c) =>
          code_lens_resolve_collect (S i) rest (results ++ [c])
      end
  end.

(** The warning "More then one resolve result collected." is not
    recorded. *)
Definition _code_lens_resolve (params : CodeLens)
  (handler_results : list (handled CodeLens))
  : M (PartState CodeLens) CodeLens :=
  results <- code_lens_resolve_collect 0 handler_results [] ;;
  if (1 <? length results)%nat then ret (List.last results params)
  else ret params.

(** *** inlay_hint.py *)

Fixpoint inlay_hint_collect (handler_results : list (handled (list nat)))
  (results : list nat) : M (PartState InlayHint) (list nat) :=
  match handler_results with
  | [] => ret results
  | r :: rest =>
      match r with
      | Raised e => log_unless_cancelled e ;;; inlay_hint_collect rest results
      | Returned None => inlay_hint_collect rest results
      | Returned (Some l) => inlay_hint_collect rest (results ++ l)
      end
  end.

Definition convert_positions (document : TextDocument) (results : list nat)
  : M (PartState InlayHint) unit :=
  modify
    (fun s =>
       mkPartState
         (fold_left
            (fun h r =>
               alter
                 (fun c =>
                    mkInlayHint (position_to_utf16 document (ih_position c))
                      (ih_label c)) r h)
            results (objects s))
         (logged s)).

Definition _text_document_inlay_hint (document : option TextDocument)
  (handler_results : list (handled (list nat)))
  : M (PartState InlayHint) (option (list nat)) :=
  match document with
  | None => ret None
  | Some document =>
      results <- inlay_hint_collect handler_results [] ;;
      if is_nil results then ret None
      else convert_positions document results ;;; ret (Some results)
  end.

(** A result that is no [InlayHint] is [Returned None] here. *)
Fixpoint _inlay_hint_resolve (params : InlayHint)
  (handler_results : list (handled InlayHint))
  : M (PartState InlayHint) InlayHint :=
  match handler_results with
  | [] => ret params
  | r :: rest =>
      match r with
      | Raised e => log_unless_cancelled e ;;; _inlay_hint_resolve params rest
      | Returned (Some hint) => ret hint
      | Returned None => _inlay_hint_resolve params rest
      end
  end.

End Parts.

End LensParts.

(** ** Vocabulary of the properties of the two parts *)

(** The addresses the handlers returned, in the order of the handlers. *)
Definition collected (rs : list (LensParts.handled (list nat))) : list nat :=
  flat_map (fun r => match r with
                     | LensParts.Returned (Some l) => l
                     | _ => []
                     end) rs.

(** The values the handlers returned. *)
Definition values_of {A} (rs : list (LensParts.handled A)) : list A :=
  omap (fun r => match r with
                 | LensParts.Returned v => v
                 | LensParts.Raised _ => None
                 end) rs.

(** The exceptions of the handlers that are logged. *)
Definition logged_of {A} (rs : list (LensParts.handled A)) : list exn :=
  omap (fun r => match r with
                 | LensParts.Raised e =>
                     if LensParts.is_cancelled e then None else Some e
                 | LensParts.Returned _ => None
                 end) rs.

(** The results up to the first one that is a value. *)
Fixpoint until_value {A} (rs : list (LensParts.handled A))
  : list (LensParts.handled A) :=
  match rs with
  | [] => []
  | LensParts.Returned (Some _) :: _ => []
  | r :: rest => r :: until_value rest
  end.

Definition convert_lens (range_to_utf16 : TextDocument -> LensParts.Range
                                          -> LensParts.Range)
  (document : TextDocument) (c : LensParts.CodeLens) : LensParts.CodeLens :=
  LensParts.mkCodeLens (range_to_utf16 document (LensParts.cl_range c))
    (LensParts.cl_command c) (LensParts.cl_data c).

Definition convert_hint (position_to_utf16 : TextDocument
                                             -> LensParts.Position
                                             -> LensParts.Position)
  (document : TextDocument) (c : LensParts.InlayHint) : LensParts.InlayHint :=
  LensParts.mkInlayHint
    (position_to_utf16 document (LensParts.ih_position c))
    (LensParts.ih_label c).

(** ** [Workspace._workspace_will_create_files]

    The [will_create_files] event is a list of handlers; calling it gives
    one result per handler, an exception where the handler raised.  The
    mappings among the results are merged with [dict.update] into one
    dictionary from uri to edits; [TextEdit] is left abstract. *)
Module CreateFiles.

Section Merge.
Context {TextEdit : Type}.

Definition Changes : Type := gmap string (list TextEdit).

Definition handler : Type := list string -> LensParts.handled Changes.

Definition will_create_files (handlers : list handler) (uris : list string)
  : list (LensParts.handled Changes) :=
  map (fun h => h uris) handlers.

(** [result.update(e)]: the keys of [e] take the values of [e]. *)
Definition update (result e : Changes) : Changes := e ∪ result.

Definition merge (results : list (LensParts.handled Changes)) : Changes :=
  foldl (fun result e =>
           match e with
           | LensParts.Returned (Some m) => update result m
           | _ => result
           end) ∅ results.

(** [None] is the reply without a [WorkspaceEdit], [Some changes] is
    [WorkspaceEdit(changes=changes)]. *)
Definition _workspace_will_create_files (handlers : list handler)
    (files : list string) : option Changes :=
  let results := will_create_files handlers files in
  if (length results =? 0)%nat then None else Some (merge results).

End Merge.

End CreateFiles.

(** The result [e] has edits for [uri]. *)
Definition mentions {TextEdit} (uri : string)
    (e : LensParts.handled (@CreateFiles.Changes TextEdit)) : Prop :=
  match e with
  | LensParts.Returned (Some m) => is_Some (m !! uri)
  | _ => False
  end.

(** * Properties *)

(** ** The digest and its rendering *)

Lemma adler32_loop_bound (data : list N) : forall a b,
  a < MOD_ADLER -> b < MOD_ADLER ->
  (adler32_loop data a b).1 < MOD_ADLER /\ (adler32_loop data a b).2 < MOD_ADLER.
Proof.
  induction data as [|x rest IH]; intros a b Ha Hb; simpl; [tauto|].
  apply IH; apply N.mod_lt; discriminate.
Qed.

Lemma sum_N_mod_ext {A} (f g : A -> N) (l : list A) :
  (forall k, f k mod MOD_ADLER = g k mod MOD_ADLER) ->
  sum_N (map f l) mod MOD_ADLER = sum_N (map g l) mod MOD_ADLER.
Proof.
  intros Hfg. induction l as [|k l IH]; simpl; [reflexivity|].
  rewrite N.Div0.add_mod, Hfg, IH, <- N.Div0.add_mod. reflexivity.
Qed.

(** The two running sums of the loop. *)
Lemma adler32_loop_sums (data : list N) : forall a b,
  a < MOD_ADLER -> b < MOD_ADLER ->
  (adler32_loop data a b).1 = (a + sum_N data) mod MOD_ADLER
  /\ (adler32_loop data a b).2
     = (b + sum_N (map (fun k => a + sum_N (take k data))
                     (seq 1 (length data)))) mod MOD_ADLER.
Proof.
  induction data as [|x rest IH]; intros a b Ha Hb.
  - simpl. rewrite !N.add_0_r, !N.mod_small by assumption. auto.
  - cbn [adler32_loop]. cbv zeta.
    assert (Ha' : (a + x) mod MOD_ADLER < MOD_ADLER)
      by (apply N.mod_lt; discriminate).
    assert (Hb' : (b + (a + x) mod MOD_ADLER) mod MOD_ADLER < MOD_ADLER)
      by (apply N.mod_lt; discriminate).
    destruct (IH _ _ Ha' Hb') as [H1 H2]. rewrite H1, H2. clear H1 H2 IH.
    split.
    + rewrite N.Div0.add_mod_idemp_l. simpl. f_equal. lia.
    + set (c := a + x).
      set (f := fun k : nat => sum_N (take k rest)).
      assert (Hr : sum_N (map (fun k => a + sum_N (take k (x :: rest)))
                            (seq 1 (length (x :: rest))))
                   = c + sum_N (map (fun k => c + f k) (seq 1 (length rest)))).
      { cbn [length seq map]. rewrite <- seq_shift, map_map.
        cbn [sum_N foldr take]. subst c f. cbn beta.
        f_equal; [|]. 
        - unfold sum_N. simpl. lia.
        - f_equal. apply map_ext. intros k. unfold sum_N. simpl. lia. }
      rewrite Hr. clear Hr.
      rewrite N.Div0.add_mod_idemp_l.
      rewrite (N.Div0.add_mod (b + c mod MOD_ADLER)).
      rewrite (sum_N_mod_ext (fun k => c mod MOD_ADLER + f k)
                 (fun k => c + f k))
        by (intros k; apply N.Div0.add_mod_idemp_l).
      rewrite N.Div0.add_mod_idemp_r, N.Div0.add_mod_idemp_l.
      set (sigma := sum_N (map (fun k => c + f k) (seq 1 (length rest)))).
      replace (b + c mod MOD_ADLER + sigma)
        with (b + sigma + c mod MOD_ADLER) by lia.
      rewrite N.Div0.add_mod_idemp_r.
      f_equal. lia.
Qed.

Lemma lor_shiftl_16 (a b : N) :
  a < 2 ^ 16 -> N.lor (N.shiftl b 16) a = b * 65536 + a.
Proof.
  intros Ha.
  assert (Hland : N.land (N.shiftl b 16) a = 0).
  { apply N.bits_inj. intros n. rewrite N.land_spec, N.bits_0.
    destruct (N.ltb_spec n 16) as [Hn|Hn].
    - rewrite N.shiftl_spec_low by exact Hn. reflexivity.
    - destruct (N.eq_dec a 0) as [->|Hne].
      + rewrite N.bits_0. apply andb_false_r.
      + rewrite (N.bits_above_log2 a n); [apply andb_false_r|].
        apply N.log2_lt_pow2 in Ha; lia. }
  rewrite <- N.lxor_lor by exact Hland.
  rewrite <- N.add_nocarry_lxor by exact Hland.
  rewrite N.shiftl_mul_pow2. reflexivity.
Qed.

(** The loop computes the checksum of RFC 1950. *)
Lemma adler32_is_rfc (data : list N) : adler32 data = adler32_rfc data.
Proof.
  unfold adler32, adler32_rfc.
  pose proof (adler32_loop_sums data 1 0 eq_refl eq_refl) as [H1 H2].
  pose proof (adler32_loop_bound data 1 0 eq_refl eq_refl) as [Ha _].
  destruct (adler32_loop data 1 0) as [a b]. simpl in H1, H2, Ha.
  rewrite lor_shiftl_16 by (unfold MOD_ADLER in Ha; lia).
  subst a b. unfold adler_s2, adler_s1, MOD_ADLER. rewrite N.add_0_l.
  reflexivity.
Qed.

Lemma lor_lt_pow2 (x y n : N) : x < 2 ^ n -> y < 2 ^ n -> N.lor x y < 2 ^ n.
Proof.
  intros Hx Hy.
  destruct (N.eq_dec (N.lor x y) 0) as [->|Hne].
  - apply N.neq_0_lt_0, N.pow_nonzero. discriminate.
  - apply N.log2_lt_pow2; [lia|].
    rewrite N.log2_lor.
    destruct (N.eq_dec x 0) as [->|Hx0], (N.eq_dec y 0) as [->|Hy0].
    + exfalso. apply Hne. reflexivity.
    + rewrite N.max_r by (simpl; lia). apply N.log2_lt_pow2; lia.
    + rewrite N.max_l by (simpl; lia). apply N.log2_lt_pow2; lia.
    + apply N.max_lub_lt; apply N.log2_lt_pow2; lia.
Qed.

Lemma adler32_lt (data : list N) : adler32 data < 2 ^ 32.
Proof.
  unfold adler32.
  pose proof (adler32_loop_bound data 1 0 eq_refl eq_refl) as [Ha Hb].
  destruct (adler32_loop data 1 0) as [a b]; simpl in *.
  unfold MOD_ADLER in *.
  apply lor_lt_pow2; [|lia].
  rewrite N.shiftl_mul_pow2.
  change (2 ^ 32) with (65536 * 2 ^ 16). 
  apply N.mul_lt_mono_pos_r; [reflexivity | lia].
Qed.

Lemma hex_aux_length (fuel : nat) : forall (k : nat) (n : N) (acc : string),
  (1 <= k)%nat -> n < 16 ^ N.of_nat k ->
  (String.length (hex_aux fuel n acc) <= k + String.length acc)%nat.
Proof.
  induction fuel as [|fuel IH]; intros k n acc Hk Hn; simpl; [lia|].
  destruct (N.eqb_spec (n / 16) 0) as [Hz|Hnz]; simpl; [lia|].
  destruct k as [|[|k]]; [lia| |].
  - exfalso. apply Hnz. apply N.div_small. simpl in Hn. lia.
  - specialize (IH (S k) (n / 16) (String (hex_digit (n mod 16)) acc)).
    simpl String.length in IH.
    assert (n / 16 < 16 ^ N.of_nat (S k)).
    { apply N.Div0.div_lt_upper_bound.
      replace (N.of_nat (S (S k))) with (N.succ (N.of_nat (S k))) in Hn by lia.
      rewrite N.pow_succ_r' in Hn. exact Hn. }
    specialize (IH ltac:(lia) H). lia.
Qed.

Lemma zero_fill_length (k : nat) (s : string) :
  String.length (zero_fill k s) = (k + String.length s)%nat.
Proof. induction k; simpl; congruence. Qed.

Lemma format_08x_length (n : N) :
  n < 2 ^ 32 -> String.length (format_08x n) = 8%nat.
Proof.
  intros Hn. unfold format_08x. rewrite zero_fill_length.
  pose proof (hex_aux_length (S (N.to_nat (N.log2 n))) 8 n EmptyString
                ltac:(lia) Hn) as Hlen.
  fold (format_x n) in Hlen. simpl in Hlen. lia.
Qed.

Lemma hex_digit_is_hex (d : N) : is_lower_hex (hex_digit d) = true.
Proof.
  destruct d as [|p]; [reflexivity|].
  do 4 (destruct p as [p|p|]; try reflexivity).
Qed.

Lemma hex_aux_is_hex (fuel : nat) : forall (n : N) (acc : string),
  string_forallb is_lower_hex acc = true ->
  string_forallb is_lower_hex (hex_aux fuel n acc) = true.
Proof.
  induction fuel as [|fuel IH]; intros n acc Hacc; simpl; [exact Hacc|].
  assert (string_forallb is_lower_hex (String (hex_digit (n mod 16)) acc)
          = true) as Hacc'.
  { cbn [string_forallb]. rewrite hex_digit_is_hex. exact Hacc. }
  destruct (n / 16 =? 0); [exact Hacc' | apply IH, Hacc'].
Qed.

Lemma format_08x_is_hex (n : N) :
  string_forallb is_lower_hex (format_08x n) = true.
Proof.
  unfold format_08x.
  generalize (8 - String.length (format_x n))%nat as k.
  induction k as [|k IH]; simpl.
  - apply hex_aux_is_hex. reflexivity.
  - exact IH.
Qed.

Example adler32_Wikipedia :
  format_08x (adler32 (string_bytes "Wikipedia")) = "11e60398".
Proof. reflexivity. Qed.

Example filepath_base_by_path :
  filepath_base posix
    (mkLibraryMetaData "0.1" (Some "My") None (Some "C:/some dir/My.py")
       None true None)
  = Ok "14ef03c0_My".
Proof. reflexivity. Qed.

Example filepath_base_module :
  filepath_base posix
    (mkLibraryMetaData "0.1" (Some "robot.libraries.OperatingSystem") None
       (Some "/lib/robot/libraries/OperatingSystem.py") None false None)
  = Ok "robot/libraries/OperatingSystem".
Proof. reflexivity. Qed.

(** ** C2: the filepath base *)

Lemma hex_digit_value_digit (d : N) :
  d < 16 -> hex_digit_value (hex_digit d) = Some d.
Proof.
  intros Hd. destruct d as [|p]; [reflexivity|].
  do 4 (destruct p as [p|p|]; try reflexivity); lia.
Qed.

Lemma hex_value_from_aux (fuel : nat) : forall (n : N) (acc : string),
  n < 16 ^ N.of_nat fuel ->
  hex_value_from 0 (hex_aux fuel n acc) = hex_value_from n acc.
Proof.
  induction fuel as [|fuel IH]; intros n acc Hn.
  - simpl in *. assert (n = 0) as -> by lia. reflexivity.
  - cbn [hex_aux]. cbv zeta.
    assert (Hstep : hex_value_from (n / 16)
                      (String (hex_digit (n mod 16)) acc)
                    = hex_value_from n acc).
    { cbn [hex_value_from].
      rewrite hex_digit_value_digit by (apply N.mod_lt; discriminate).
      f_equal. pose proof (N.div_mod n 16 ltac:(discriminate)). lia. }
    destruct (N.eqb_spec (n / 16) 0) as [Hz|Hnz].
    + rewrite <- Hstep, Hz. reflexivity.
    + rewrite IH; [exact Hstep|].
      apply N.Div0.div_lt_upper_bound.
      replace (N.of_nat (S fuel)) with (N.succ (N.of_nat fuel)) in Hn by lia.
      rewrite N.pow_succ_r' in Hn. exact Hn.
Qed.

Lemma hex_value_zero_fill (k : nat) (s : string) :
  hex_value_from 0 (zero_fill k s) = hex_value_from 0 s.
Proof. induction k as [|k IH]; simpl; [reflexivity | exact IH]. Qed.

(** Reading the rendering back gives the number. *)
Lemma hex_value_format_08x (n : N) : hex_value (format_08x n) = Some n.
Proof.
  unfold hex_value, format_08x, format_x. rewrite hex_value_zero_fill.
  rewrite hex_value_from_aux; [reflexivity|].
  destruct (N.eq_dec n 0) as [->|Hn]; [reflexivity|].
  eapply N.lt_le_trans; [apply N.log2_spec; lia|].
  replace (N.of_nat (S (N.to_nat (N.log2 n)))) with (N.succ (N.log2 n)) by lia.
  apply N.pow_le_mono_l. lia.
Qed.

Lemma string_replace_char_replaced (a b : ascii) (s : string) :
  replaced a b s (string_replace_char a b s).
Proof.
  split.
  - induction s as [|c s IH]; simpl; congruence.
  - induction s as [|c s IH]; intros i; [reflexivity|].
    destruct i as [|i]; simpl; [reflexivity | apply IH].
Qed.

(** C2 (as amended).  For a meta [m] with [by_path] and an origin whose
    parent path is well-formed UTF-8, [filepath_base m] is a string [h]
    of exactly 8 lowercase hexadecimal characters that denotes the
    Adler-32 checksum (RFC 1950) of the bytes of the parent path,
    followed by ["_"] and the stem of the origin; when the parent path
    is not well-formed UTF-8 it raises UnicodeEncodeError.  For a meta
    without [by_path] and with a name, it is the name with every ["."]
    replaced by ["/"], followed by ["."] and the member name when that
    one is non-empty.  The result depends on [by_path], [origin], [name]
    and [member_name] only. *)
Theorem filepath_base_spec (P : PathLib) (m : LibraryMetaData) :
  (forall o, by_path m = true -> origin m = Some o ->
     let parent := string_bytes (path_parent P o) in
     (utf8_valid parent = true ->
      exists h,
        filepath_base P m = Ok (h +:+ "_" +:+ path_stem P o)
        /\ String.length h = 8%nat
        /\ string_forallb is_lower_hex h = true
        /\ hex_value h = Some (adler32_rfc parent))
     /\ (utf8_valid parent = false ->
         filepath_base P m = Raise (Error "UnicodeEncodeError")))
  /\ (forall n, by_path m = false -> name m = Some n ->
        exists r,
          replaced "." "/" n r
          /\ filepath_base P m
             = Ok (r +:+ match member_name m with
                         | Some (String c s) => "." +:+ String c s
                         | _ => ""
                         end))
  /\ (forall m', by_path m = by_path m' -> origin m = origin m' ->
        name m = name m' -> member_name m = member_name m' ->
        filepath_base P m = filepath_base P m').
Proof.
  split; [|split].
  - intros o Hb Ho parent. unfold filepath_base, str_encode_utf8.
    rewrite Hb, Ho. fold parent. split; intros Hvalid; rewrite Hvalid.
    + exists (format_08x (adler32 parent)). split; [reflexivity|].
      split; [apply format_08x_length, adler32_lt|].
      split; [apply format_08x_is_hex|].
      rewrite hex_value_format_08x, adler32_is_rfc. reflexivity.
    + reflexivity.
  - intros n Hb Hn. exists (string_replace_char "." "/" n).
    split; [apply string_replace_char_replaced|].
    unfold filepath_base. rewrite Hb, Hn.
    destruct (member_name m) as [[|c r]|]; reflexivity.
  - intros m' Hb Ho Hn Hm. unfold filepath_base.
    rewrite Hb, Ho, Hn, Hm. reflexivity.
Qed.

Lemma filepath_base_spec_witness :
  let m := mkLibraryMetaData "0.1" (Some "My") None
             (Some "C:/some dir/My.py") None true None in
  exists h,
    filepath_base posix m = Ok (h +:+ "_My")
    /\ String.length h = 8%nat
    /\ string_forallb is_lower_hex h = true
    /\ hex_value h = Some (adler32_rfc (string_bytes "C:/some dir")).
Proof.
  intros m.
  destruct (filepath_base_spec posix m) as [Hpath _].
  destruct (Hpath "C:/some dir/My.py" eq_refl eq_refl) as [Hvalid _].
  exact (Hvalid eq_refl).
Defined.

(** C2 as stated fails: a meta with [by_path] and an origin has no
    filepath base when the parent path of the origin is not UTF-8. *)
Lemma filepath_base_refuses_surrogates :
  by_path escaped_meta = true
  /\ origin escaped_meta = Some escaped_origin
  /\ string_bytes (path_parent posix escaped_origin) = [47; 119; 47; 255]
  /\ filepath_base posix escaped_meta = Raise (Error "UnicodeEncodeError").
Proof. repeat split; reflexivity. Qed.

(** ** Fingerprints name a cache file, unless the origin is not UTF-8 *)

Ltac munfold :=
  unfold bind, ret, raise, try_except, try_finally, lift_result, gets, get,
    modify, log, log_exception, exists_, read_text, write_text, mkdir,
    new_executor, on_world, in_world, block in *.

Lemma filepath_base_raises (P : PathLib) (m : LibraryMetaData) (e : exn) :
  filepath_base P m = Raise e -> is_exit e = false.
Proof.
  unfold filepath_base, str_encode_utf8.
  repeat case_match; simplify_eq; intros [= <-]; reflexivity.
Qed.

Lemma base_known_by_origin (P : PathLib) (m : LibraryMetaData) (n o : string) :
  name m = Some n -> origin m = Some o -> base_known P m.
Proof.
  intros Hn Ho. unfold base_known, filepath_base, str_encode_utf8.
  rewrite Hn, Ho. destruct (by_path m); [|left; reflexivity].
  destruct (utf8_valid (string_bytes (path_parent P o))) eqn:Hv.
  - left. reflexivity.
  - right. repeat split. exists o. auto.
Qed.

Lemma identify_has_base (E : Env) (bp : bool) (nm : string)
    (r : LibraryMetaData) :
  identify E bp nm = Ok (Some r) ->
  exists n o, name r = Some n /\ origin r = Some o.
Proof.
  unfold identify. destruct bp.
  - destruct (path_exists E nm); intros [= <-]. simpl. eauto.
  - destruct (get_module_spec E nm) as [[ms|]|e]; simpl; try discriminate.
    destruct (ms_origin ms); intros [= <-]. simpl. eauto.
Qed.

Lemma filepath_base_set_mtimes (P : PathLib) mt (m : LibraryMetaData) :
  filepath_base P (set_mtimes mt m) = filepath_base P m.
Proof. reflexivity. Qed.

Lemma fingerprint_has_base (E : Env) patterns nm r0 m src :
  (forall r, r0 = Some r -> exists n o, name r = Some n /\ origin r = Some o) ->
  fingerprint E patterns nm r0 = Ok (Some m, src) ->
  base_known (pathlib E) m /\ src = nm.
Proof.
  intros Hr0. unfold fingerprint. destruct r0 as [r|]; [|discriminate].
  destruct (Hr0 r eq_refl) as (n & o & Hn & Ho).
  destruct (ignored E patterns r); [discriminate|].
  rewrite Ho.
  destruct (stat_mtime_ns E o) as [t|e]; simpl; [|discriminate].
  destruct (nonempty (submodule_search_locations r)).
  - destruct (submodule_mtimes E _) as [kvs|e]; simpl; [|discriminate].
    intros [= <- <-]. split; [|reflexivity].
    eapply base_known_by_origin; simpl; eauto.
  - simpl. intros [= <- <-]. split; [|reflexivity].
    eapply base_known_by_origin; simpl; eauto.
Qed.

Ltac nope := let H := fresh in intros H; discriminate H.

(** ** Path resolution and fingerprinting leave the cache alone *)

Lemma quiet_refl w : quiet w w.
Proof.
  repeat split. exists []. rewrite app_nil_r. auto.
Qed.

Lemma quiet_trans w1 w2 w3 : quiet w1 w2 -> quiet w2 w3 -> quiet w1 w3.
Proof.
  intros (Hf1 & He1 & tr1 & Ht1 & Hc1) (Hf2 & He2 & tr2 & Ht2 & Hc2).
  repeat split; [congruence | congruence |].
  exists (tr1 ++ tr2). rewrite Ht2, Ht1, app_assoc. split; [reflexivity|].
  rewrite forallb_app, Hc1, Hc2. reflexivity.
Qed.

Lemma lru_get_quiet {K} `{EqDecision K}
    (getc : World -> SimpleLRUCache K)
    (setc : SimpleLRUCache K -> World -> World)
    (func : K -> M World string) (key : K) (w : World) :
  (forall c w0, quiet w0 (setc c w0)) ->
  (forall w0, quiet w0 (func key w0).2) ->
  quiet w (SimpleLRUCache_get getc setc func key w).2.
Proof.
  intros Hset Hfunc. unfold SimpleLRUCache_get. munfold. simpl.
  destruct (lru_find key (getc w)) as [v|]; simpl; [apply Hset|].
  specialize (Hfunc w). destruct (func key w) as [[v|e] w1]; simpl in *.
  - eapply quiet_trans; [exact Hfunc | apply Hset].
  - exact Hfunc.
Qed.

Lemma quiet_emit_call w f a : quiet w (emit (EvCall f a) w).
Proof. repeat split. exists [EvCall f a]. auto. Qed.

Lemma lift_result_quiet {A} (r : result A) w : quiet w (lift_result r w).2.
Proof. apply quiet_refl. Qed.

Lemma find_library_quiet E n b v w : quiet w (find_library E n b v w).2.
Proof.
  unfold find_library. apply lru_get_quiet.
  - intros c w0. repeat split. exists []. rewrite app_nil_r. auto.
  - intros w0. unfold _find_library. munfold.
    repeat (case_match; simplify_eq/=); apply quiet_refl.
Qed.

Lemma __find_variables_quiet E n b v rv rc w :
  quiet w (__find_variables E n b v rv rc w).2.
Proof.
  unfold __find_variables. munfold. simpl.
  eapply quiet_trans; [apply (quiet_emit_call w "__find_variables" n)|].
  generalize (emit (EvCall "__find_variables" n) w) as w1. intros w1.
  repeat (case_match; simplify_eq/=); apply quiet_refl.
Qed.

Lemma find_variables_quiet E n b v rv rc w :
  quiet w (find_variables E n b v rv rc w).2.
Proof.
  unfold find_variables. apply lru_get_quiet.
  - intros c w0. repeat split. exists []. rewrite app_nil_r. auto.
  - intros w0. apply __find_variables_quiet.
Qed.

Lemma get_library_meta_quiet E n b v w :
  quiet w (get_library_meta E n b v w).2.
Proof.
  unfold get_library_meta.
  pose proof (find_library_quiet E n b v w) as Hq.
  destruct (find_library E n b v w) as [r w1]; simpl in Hq.
  repeat case_match; simpl; exact Hq.
Qed.

Lemma get_variables_meta_quiet E n b v rv rc w :
  quiet w (get_variables_meta E n b v rv rc w).2.
Proof.
  unfold get_variables_meta.
  pose proof (find_variables_quiet E n b v rv rc w) as Hq.
  destruct (find_variables E n b v rv rc w) as [r w1]; simpl in Hq.
  repeat case_match; simpl; exact Hq.
Qed.

Lemma get_library_meta_has_base E n b v w m src w1 :
  get_library_meta E n b v w = (Ok (Some m, src), w1) ->
  base_known (pathlib E) m.
Proof.
  unfold get_library_meta.
  destruct (find_library E n b v w) as [[nm|e] w0]; simpl.
  - destruct (identify E (is_library_by_path E nm) nm) as [r0|e] eqn:Hid;
      simpl.
    + destruct (fingerprint E _ nm r0) as [[om s]|e] eqn:Hfp.
      * intros [= -> -> ->].
        eapply fingerprint_has_base; [|exact Hfp].
        intros r ->. eapply identify_has_base, Hid.
      * destruct (is_exit e); nope.
    + destruct (is_exit e); nope.
  - destruct (is_exit e); nope.
Qed.

Lemma get_variables_meta_has_base E n b v rv rc w m src w1 :
  get_variables_meta E n b v rv rc w = (Ok (Some m, src), w1) ->
  base_known (pathlib E) m.
Proof.
  unfold get_variables_meta.
  destruct (find_variables E n b v rv rc w) as [[nm|e] w0]; simpl.
  - destruct (identify E (is_variables_by_path E nm) nm) as [r0|e] eqn:Hid;
      simpl.
    + destruct (fingerprint E _ nm r0) as [[om s]|e] eqn:Hfp.
      * intros [= -> -> ->].
        eapply fingerprint_has_base; [|exact Hfp].
        intros r ->. eapply identify_has_base, Hid.
      * destruct (is_exit e); nope.
    + destruct (is_exit e); nope.
  - destruct (is_exit e); nope.
Qed.

(** ** The three blocks of a build *)

Lemma emits_nil w : emits [] w = w.
Proof. destruct w. unfold emits. simpl. rewrite app_nil_r. reflexivity. Qed.

Lemma emit_emits ev evs w : emit ev (emits evs w) = emits (evs ++ [ev]) w.
Proof. unfold emit, emits. simpl. rewrite app_assoc. reflexivity. Qed.

Lemma emit_as_emits ev w : emit ev w = emits [ev] w.
Proof. reflexivity. Qed.

Lemma emits_emits evs1 evs2 w : emits evs2 (emits evs1 w) = emits (evs1 ++ evs2) w.
Proof. unfold emits. simpl. rewrite app_assoc. reflexivity. Qed.

Lemma emits_set_executors evs n w :
  emits evs (set_executors n w) = set_executors n (emits evs w).
Proof. reflexivity. Qed.

Lemma emits_set_fs evs f w : emits evs (set_fs f w) = set_fs f (emits evs w).
Proof. reflexivity. Qed.

Lemma run_in_worker_eq E k n a wd bd cmd v w :
  run_in_worker E k n a wd bd cmd v w
  = (worker_outcome E (w_executors w) k n a wd bd cmd v,
     blocked_for (worker_seconds E (w_executors w) k n a wd bd cmd v)
       (set_executors (S (w_executors w))
          (emits ([EvExecutor (w_executors w) 1 "spawn"]
                  ++ worker_calls (w_executors w) k n a cmd
                       (worker_outcome E (w_executors w) k n a wd bd cmd v)
                  ++ [EvShutdown (w_executors w) true]) w))).
Proof.
  unfold run_in_worker, worker_outcome, worker_calls, worker_seconds,
    run_worker, future_result.
  munfold.
  unfold blocked_for, set_blocked, emits, set_executors, emit, shutdown_wait,
    result_wait, add_wait.
  simpl. change (N.of_nat LOAD_LIBRARY_TIME_OUT) with 30.
  destruct cmd as [cv|e]; simpl.
  - change (N.of_nat LOAD_LIBRARY_TIME_OUT) with 30.
    destruct (worker E (w_executors w) k n a wd bd cv v) as [[t|] r]; simpl.
    + destruct (t <=? 30); [destruct r as [d|e]|]; simpl;
        try destruct (is_exit e); simpl;
        destruct (w_blocked w); simpl; rewrite <- ?app_assoc;
        try reflexivity; do 3 f_equal; lia.
    + destruct (w_blocked w); simpl; rewrite <- ?app_assoc; reflexivity.
  - destruct (is_exit e); simpl; destruct (w_blocked w); simpl;
      rewrite <- ?app_assoc; try reflexivity; do 3 f_equal; lia.
Qed.

Lemma stored_pair_not_refused E cp w m doc e :
  stored_pair E cp w m doc -> ~ lookup_refused E cp m e.
Proof.
  intros (base & mtext & stext & Hb & _ & Hrf & _) [Hr | (b' & Hb' & Hr)].
  - congruence.
  - rewrite Hb in Hb'. injection Hb' as <-. congruence.
Qed.

Lemma load_spec_cases E cp m w r w' :
  load_spec E cp (Some m) w = (r, w') ->
  (exists doc, r = Ok (Some doc) /\ w' = w /\ stored_pair E cp w m doc)
  \/ (r = Ok None
      /\ (w' = w \/ w' = emit (EvLogException (Error "RuntimeError")) w)
      /\ (forall doc, ~ stored_pair E cp w m doc)
      /\ forall e, ~ lookup_refused E cp m e)
  \/ (exists e, r = Raise e /\ w' = w /\ lookup_refused E cp m e)
  \/ (exists e, r = Raise e /\ is_exit e = true /\ w' = w
                /\ ~ cache_io_ordinary E
                /\ forall e', ~ lookup_refused E cp m e').
Proof.
  unfold load_spec. munfold.
  destruct (filepath_base (pathlib E) m) as [base|e0] eqn:Hb; simpl.
  2:{ intros [= <- <-]. right; right; left. exists e0.
      repeat split. left. exact Hb. }
  assert (forall doc, stored_pair E cp w m doc ->
            exists mtext stext,
              w_fs w !! meta_file_of cp base = Some mtext
              /\ read_fault E (meta_file_of cp base) = None
              /\ from_json_meta E mtext = Ok m
              /\ w_fs w !! spec_file_of cp base = Some stext
              /\ read_fault E (spec_file_of cp base) = None
              /\ from_json_doc E stext = Ok doc) as Hsp.
  { intros doc (base' & mtext & stext & Hb' & H). rewrite Hb in Hb'.
    injection Hb' as <-. eauto. }
  assert (forall f, read_fault E (meta_file_of cp base) = f ->
            (forall e, f <> Some (Unreachable e)) ->
            forall e, ~ lookup_refused E cp m e) as Hnr.
  { intros f Hf Hne e [Hr | (b' & Hb' & Hr)]; [congruence|].
    rewrite Hb in Hb'. injection Hb' as <-. rewrite Hf in Hr.
    eapply Hne, Hr. }
  destruct (read_fault E (meta_file_of cp base)) as [[e|e]|] eqn:Hrf.
  { (* the probe raises *)
    intros [= <- <-]. right; right; left. exists e. repeat split.
    right. exists base. auto. }
  - (* the file cannot be read *)
    specialize (Hnr _ eq_refl ltac:(intros e'; discriminate)).
    destruct (w_fs w !! meta_file_of cp base) as [mtext|] eqn:Hm; simpl.
    2:{ intros [= <- <-]. right; left. repeat split; auto.
        intros doc Hd. apply Hsp in Hd as (? & ? & ? & _). congruence. }
    rewrite ?Hm.
    destruct (is_exit e) eqn:Hx; simpl; rewrite ?Hx; simpl; intros [= <- <-].
    + right; right; right. exists e. repeat split; auto.
      intros (H & _). apply H in Hrf. simpl in Hrf. congruence.
    + right; left. repeat split; auto.
      intros doc Hd. apply Hsp in Hd as (? & ? & _ & ? & _). congruence.
  - specialize (Hnr _ eq_refl ltac:(intros e'; discriminate)).
    destruct (w_fs w !! meta_file_of cp base) as [mtext|] eqn:Hm; simpl.
    2:{ intros [= <- <-]. right; left. repeat split; auto.
        intros doc Hd. apply Hsp in Hd as (? & ? & ? & _). congruence. }
    rewrite ?Hm.
    destruct (from_json_meta E mtext) as [saved|e] eqn:Hj.
    2:{ destruct (is_exit e) eqn:Hx; simpl; rewrite ?Hx; simpl;
          intros [= <- <-].
        - right; right; right. exists e. repeat split; auto.
          intros (_ & _ & _ & H & _). apply H in Hj. congruence.
        - right; left. repeat split; auto.
          intros doc Hd. apply Hsp in Hd as (? & ? & ? & _ & ? & _).
          congruence. }
    destruct (decide (saved = m)) as [->|Hne].
    2:{ intros [= <- <-]. right; left. repeat split; auto.
        intros doc Hd. apply Hsp in Hd as (? & ? & ? & _ & ? & _).
        congruence. }
    destruct (read_fault E (spec_file_of cp base)) as [f|] eqn:Hrs.
    { destruct (is_exit (failure_exn f)) eqn:Hx; simpl; rewrite ?Hx; simpl;
        intros [= <- <-].
      - right; right; right. exists (failure_exn f). repeat split; auto.
        intros (H & _). apply H in Hrs. congruence.
      - right; left. repeat split; auto.
        intros doc Hd. apply Hsp in Hd as (? & ? & _ & _ & _ & _ & ? & _).
        congruence. }
    destruct (w_fs w !! spec_file_of cp base) as [stext|] eqn:Hs; simpl.
    2:{ intros [= <- <-]. right; left. repeat split; auto.
        intros doc Hd. apply Hsp in Hd as (? & ? & _ & _ & _ & ? & _).
        congruence. }
    destruct (from_json_doc E stext) as [d|e] eqn:Hd.
    2:{ destruct (is_exit e) eqn:Hx; simpl; rewrite ?Hx; simpl;
          intros [= <- <-].
        - right; right; right. exists e. repeat split; auto.
          intros (_ & _ & _ & _ & H & _). apply H in Hd. congruence.
        - right; left. repeat split; auto.
          intros doc Hd'.
          apply Hsp in Hd' as (? & ? & _ & _ & _ & ? & _ & ?). congruence. }
    intros [= <- <-]. left. exists d. repeat split.
    exists base, mtext, stext. auto 10.
Qed.


Lemma load_spec_refused E cp m w e :
  lookup_refused E cp m e -> load_spec E cp (Some m) w = (Raise e, w).
Proof.
  intros [Hb | (base & Hb & Hrf)]; unfold load_spec; munfold; rewrite Hb;
    simpl; [reflexivity|]. rewrite Hrf. reflexivity.
Qed.

Lemma load_spec_mismatch E cp m w base mtext saved :
  filepath_base (pathlib E) m = Ok base ->
  w_fs w !! meta_file_of cp base = Some mtext ->
  read_fault E (meta_file_of cp base) = None ->
  from_json_meta E mtext = Ok saved ->
  saved <> m ->
  load_spec E cp (Some m) w = (Ok None, w).
Proof.
  intros Hb Hm Hrf Hj Hne. unfold load_spec. munfold.
  rewrite Hb. simpl. rewrite Hrf, Hm. simpl. rewrite ?Hrf, ?Hm, Hj.
  destruct (decide (saved = m)); [contradiction | reflexivity].
Qed.

Lemma save_spec_none E cp doc w : save_spec E cp None doc w = (Ok tt, w).
Proof. reflexivity. Qed.

Ltac trace_done :=
  simpl; rewrite <- ?app_assoc; simpl; eexists; split; [reflexivity|];
  split; [reflexivity|]; split; [reflexivity|].

Lemma save_spec_some E cp m base doc w r w' :
  filepath_base (pathlib E) m = Ok base ->
  save_spec E cp (Some m) doc w = (r, w') ->
  exists tr,
    w_trace w' = w_trace w ++ tr
    /\ w_executors w' = w_executors w
    /\ forallb (fun ev => negb (is_executor_event ev)) tr = true
    /\ store_ops E cp base m doc (fs_ops tr)
    /\ (r = Ok tt
        \/ exists e, r = Raise e /\ is_exit e = true
                     /\ ~ cache_io_ordinary E).
Proof.
  intros Hb. unfold save_spec. munfold. rewrite Hb. simpl.
  set (dir := path_parent (pathlib E) (spec_file_of cp base)).
  destruct (mkdir_fault E dir) as [e|] eqn:Hmk.
  { destruct (is_exit e) eqn:Hx; simpl; intros [= <- <-]; trace_done.
    - split; [left; reflexivity|]. right. exists e. repeat split; auto.
      intros (_ & _ & H & _). apply H in Hmk. congruence.
    - split; [left; reflexivity|]. left. reflexivity. }
  destruct (as_json_doc E doc) as [text|e] eqn:Hj; simpl.
  2:{ destruct (is_exit e) eqn:Hx; simpl; rewrite ?Hx; simpl;
        intros [= <- <-]; trace_done.
      - split; [left; reflexivity|]. right. exists e. repeat split; auto.
        intros (_ & _ & _ & _ & _ & _ & H). apply H in Hj. congruence.
      - split; [left; reflexivity|]. left. reflexivity. }
  destruct (write_fault E (spec_file_of cp base)) as [[e torn]|] eqn:Hws.
  { assert (store_ops E cp base m doc
              [OpMkdir dir; OpWriteText (spec_file_of cp base) text]) as Hops.
    { right; left. exists text. repeat split; auto. left. congruence. }
    destruct torn as [torn|]; destruct (is_exit e) eqn:Hx; simpl;
      rewrite ?Hx; simpl; intros [= <- <-]; trace_done;
      (split; [exact Hops|]); try (left; reflexivity);
      right; exists e; repeat split; auto;
      intros (_ & H & _); apply H in Hws; congruence. }
  simpl.
  destruct (as_json_meta E m) as [mtext|e] eqn:Hjm; simpl.
  2:{ assert (store_ops E cp base m doc
                [OpMkdir dir; OpWriteText (spec_file_of cp base) text])
        as Hops.
      { right; left. exists text. repeat split; auto. right. eauto. }
      destruct (is_exit e) eqn:Hx; simpl; intros [= <- <-]; trace_done;
        (split; [exact Hops|]); try (left; reflexivity).
      right; exists e; repeat split; auto.
      intros (_ & _ & _ & _ & _ & H & _). apply H in Hjm. congruence. }
  assert (store_ops E cp base m doc
            [OpMkdir dir; OpWriteText (spec_file_of cp base) text;
             OpWriteText (meta_file_of cp base) mtext]) as Hops.
  { right; right. exists text, mtext. repeat split; auto. }
  destruct (write_fault E (meta_file_of cp base)) as [[e torn]|] eqn:Hwm.
  { destruct torn as [torn|]; destruct (is_exit e) eqn:Hx; simpl;
      intros [= <- <-]; trace_done;
      (split; [exact Hops|]); try (left; reflexivity);
      right; exists e; repeat split; auto;
      intros (_ & H & _); apply H in Hwm; congruence. }
  simpl. intros [= <- <-]. trace_done.
  split; [exact Hops|]. left. reflexivity.
Qed.

Lemma stored_pair_fs E cp w w1 m doc :
  w_fs w1 = w_fs w -> stored_pair E cp w1 m doc -> stored_pair E cp w m doc.
Proof.
  intros Hfs (base & mtext & stext & H). rewrite Hfs in H.
  exists base, mtext, stext. exact H.
Qed.

Lemma get_libdoc_with_cases E get_meta cp k n a wd bd cmd v w r w' :
  (forall w0, quiet w0 (get_meta w0).2) ->
  get_libdoc_with E get_meta cp (run_in_worker E k n a wd bd cmd v) w
  = (r, w') ->
  (exists e, (get_meta w).1 = Raise e /\ r = Raise e /\ w' = (get_meta w).2)
  \/ exists meta src w1,
       get_meta w = (Ok (meta, src), w1)
       /\ ((exists m doc, meta = Some m /\ stored_pair E cp w m doc
                          /\ r = Ok doc /\ w' = w1)
           \/ (exists m e, meta = Some m /\ lookup_refused E cp m e
                           /\ r = Raise e /\ w' = w1)
           \/ (exists e, r = Raise e /\ is_exit e = true
                         /\ ~ cache_io_ordinary E /\ w' = w1)
           \/ ((forall m doc, meta = Some m -> ~ stored_pair E cp w m doc)
               /\ (forall m e, meta = Some m -> ~ lookup_refused E cp m e)
               /\ exists pre tr,
                    let id := w_executors w in
                    let out := worker_outcome E id k n a wd bd cmd v in
                    w_executors w' = S id
                    /\ w_trace w'
                       = w_trace w1 ++ pre
                         ++ [EvExecutor id 1 "spawn"]
                         ++ worker_calls id k n a cmd out
                         ++ [EvShutdown id true] ++ tr
                    /\ (pre = [] \/ pre = [EvLogException (Error "RuntimeError")])
                    /\ forallb (fun ev => negb (is_executor_event ev)) tr = true
                    /\ (r = out
                        \/ exists e, r = Raise e /\ is_exit e = true
                                     /\ ~ cache_io_ordinary E
                                     /\ is_ok out = true)
                    /\ match out, meta with
                       | Ok doc, Some m =>
                           exists base,
                             filepath_base (pathlib E) m = Ok base
                             /\ store_ops E cp base m doc (fs_ops tr)
                       | _, _ => tr = []
                       end)).
Proof.
  intros Hquiet. unfold get_libdoc_with. unfold bind at 1.
  pose proof (Hquiet w) as Hq.
  destruct (get_meta w) as [[[meta src]|e] w1] eqn:Hmeta; simpl in Hq.
  2:{ intros [= <- <-]. left. exists e. auto. }
  destruct Hq as (Hfs & Hex & _).
  right. exists meta, src, w1. split; [reflexivity|]. revert H.
  unfold bind at 1. simpl fst.
  (* the lookup *)
  assert (exists rl w2, load_spec E cp meta w1 = (rl, w2)
            /\ ((exists m doc, meta = Some m /\ rl = Ok (Some doc) /\ w2 = w1
                               /\ stored_pair E cp w m doc)
                \/ (rl = Ok None
                    /\ (w2 = w1
                        \/ w2 = emit (EvLogException (Error "RuntimeError")) w1)
                    /\ (forall m doc, meta = Some m
                                      -> ~ stored_pair E cp w m doc)
                    /\ forall m e, meta = Some m -> ~ lookup_refused E cp m e)
                \/ (exists m e, meta = Some m /\ rl = Raise e /\ w2 = w1
                                /\ lookup_refused E cp m e)
                \/ (exists e, rl = Raise e /\ is_exit e = true /\ w2 = w1
                              /\ ~ cache_io_ordinary E))) as Hload.
  { destruct meta as [m|].
    - destruct (load_spec E cp (Some m) w1) as [rl w2] eqn:Hl.
      exists rl, w2. split; [reflexivity|].
      apply load_spec_cases in Hl.
      destruct Hl as [(doc & -> & -> & Hsp)
                     | [(-> & Hw & Hno & Hnr)
                       | [(e & -> & -> & Hr) | (e & -> & Hx & -> & Hio & _)]]].
      + left. exists m, doc. repeat split. eapply stored_pair_fs; eauto.
      + right; left. repeat split; [exact Hw| |].
        * intros m' doc [= <-] Hsp. apply (Hno doc).
          eapply stored_pair_fs; [|exact Hsp]. congruence.
        * intros m' e [= <-]. apply Hnr.
      + right; right; left. exists m, e. auto.
      + right; right; right. exists e. auto.
    - exists (Ok None), w1. split; [reflexivity|]. right; left.
      repeat split; [auto| |]; intros m doc [=]. }
  destruct Hload as (rl & w2 & -> & Hload).
  destruct Hload as [(m & doc & -> & -> & -> & Hsp)
                    | [(-> & Hw2 & Hno & Hnr)
                      | [(m & e & -> & -> & -> & Hr)
                        | (e & -> & Hx & -> & Hio)]]].
  - intros [= <- <-]. left. exists m, doc. auto.
  - unfold bind at 1. rewrite (run_in_worker_eq E k n a wd bd cmd v w2).
    assert (exists pre, w_trace w2 = w_trace w1 ++ pre
              /\ (pre = [] \/ pre = [EvLogException (Error "RuntimeError")])
              /\ w_executors w2 = w_executors w) as (pre & Htr2 & Hpre & Hex2).
    { destruct Hw2 as [-> | ->].
      - exists []. rewrite app_nil_r. auto.
      - exists [EvLogException (Error "RuntimeError")]. auto. }
    clear Hw2. rewrite Hex2.
    set (id := w_executors w).
    set (out := worker_outcome E id k n a wd bd cmd v).
    intros Hrun. right; right; right. split; [exact Hno|].
    split; [exact Hnr|].
    exists pre.
    destruct out as [doc|e] eqn:Hout.
    + destruct meta as [m|].
      * destruct (filepath_base (pathlib E) m) as [base|e0] eqn:Hb.
        2:{ exfalso. apply (Hnr m e0 eq_refl). left. exact Hb. }
        unfold bind in Hrun at 1. simpl fst in Hrun.
        match type of Hrun with
        | context [save_spec E cp (Some m) doc ?w3] =>
            destruct (save_spec E cp (Some m) doc w3) as [rs w4] eqn:Hsave
        end.
        pose proof (save_spec_some E cp m base doc _ rs w4 Hb Hsave)
          as (tr & Htr & Hx4 & Hnex & Hops & Hrs).
        exists tr. simpl in Htr, Hx4.
        destruct Hrs as [-> | (e & -> & Hxe & Hio)]; simpl in Hrun;
          injection Hrun as <- <-.
        -- repeat split; auto.
           ++ rewrite Htr, Htr2. repeat (rewrite <- app_assoc; simpl). reflexivity.
           ++ eauto.
        -- repeat split; auto.
           ++ rewrite Htr, Htr2. repeat (rewrite <- app_assoc; simpl). reflexivity.
           ++ right. exists e. auto.
           ++ eauto.
      * simpl in Hrun. injection Hrun as <- <-. exists []. simpl.
        repeat split; auto.
        rewrite Htr2. repeat (rewrite <- app_assoc; simpl). reflexivity.
    + simpl in Hrun. injection Hrun as <- <-. exists []. simpl.
      repeat split; auto.
      rewrite Htr2. repeat (rewrite <- app_assoc; simpl). reflexivity.
  - intros [= <- <-]. right; left. exists m, e. auto.
  - intros [= <- <-]. right; right; left. exists e. auto.
Qed.

Lemma load_spec_hit E cp m w doc :
  stored_pair E cp w m doc -> load_spec E cp (Some m) w = (Ok (Some doc), w).
Proof.
  intros (base & mtext & stext & Hb & Hm & Hrf & Hj & Hs & Hrs & Hd).
  unfold load_spec. munfold. rewrite Hb. simpl. rewrite Hrf, Hm. simpl.
  rewrite ?Hrf, ?Hm, Hj.
  destruct (decide (m = m)) as [_|]; [|congruence].
  rewrite Hrs, Hs, Hd. reflexivity.
Qed.

Lemma stored_pair_functional E cp w m doc doc' :
  stored_pair E cp w m doc -> stored_pair E cp w m doc' -> doc = doc'.
Proof.
  intros (base & mtext & stext & Hb & Hm & Hrf & Hj & Hs & Hrs & Hd)
         (base' & mtext' & stext' & Hb' & Hm' & Hrf' & Hj' & Hs' & Hrs' & Hd').
  rewrite Hb in Hb'. injection Hb' as <-.
  rewrite Hs in Hs'. injection Hs' as <-.
  congruence.
Qed.

Lemma stored_pair_error_excludes E cp w m doc :
  stored_pair_error E cp w m -> ~ stored_pair E cp w m doc.
Proof.
  intros (base & mtext & Hb & Hm & Herr)
         (base' & mtext' & stext' & Hb' & Hm' & Hrf' & Hj' & Hs' & Hrs' & Hd').
  rewrite Hb in Hb'. injection Hb' as <-.
  rewrite Hm in Hm'. injection Hm' as <-.
  destruct Herr as [[k Hrf] | [[Hrf [k Hj]] | (Hrf & Hj & Hspec)]];
    [congruence | congruence |].
  destruct Hspec as [[k [Hrs|Hrs]] | [[Hrs Hs] | (Hrs & stext & k & Hs & Hd)]];
    congruence.
Qed.

Lemma stored_pair_error_not_refused E cp w m e :
  stored_pair_error E cp w m -> ~ lookup_refused E cp m e.
Proof.
  intros (base & mtext & Hb & Hm & Herr) [Hr | (b' & Hb' & Hr)];
    [congruence|].
  rewrite Hb in Hb'. injection Hb' as <-.
  destruct Herr as [[k Hrf] | [[Hrf _] | (Hrf & _)]]; congruence.
Qed.

Lemma library_get_libdoc_eq E v n a wd bd :
  library_get_libdoc E v n a wd bd
  = get_libdoc_with E (get_library_meta E n bd v) (lib_doc_cache_path E)
      (run_in_worker E Library n a wd bd (all_command_line_vars E) v).
Proof. reflexivity. Qed.

Lemma variables_get_libdoc_eq E v rc n a wd bd :
  variables_get_libdoc E v rc n a wd bd
  = get_libdoc_with E (get_variables_meta E n bd v true rc)
      (variables_doc_cache_path E)
      (run_in_worker E Variables n a (folder E) bd
         (if rc then all_command_line_vars E else Ok None) v).
Proof. reflexivity. Qed.

(** The build in one of its two instances. *)
Lemma get_libdoc_with_hit E get_meta cp worker w m src w1 doc :
  get_meta w = (Ok (Some m, src), w1) ->
  w_fs w1 = w_fs w ->
  stored_pair E cp w m doc ->
  get_libdoc_with E get_meta cp worker w = (Ok doc, w1).
Proof.
  intros Hmeta Hfs Hsp. unfold get_libdoc_with. unfold bind at 1.
  rewrite Hmeta. unfold bind at 1. simpl fst.
  rewrite (load_spec_hit E cp m w1 doc); [reflexivity|].
  eapply stored_pair_fs; [symmetry; exact Hfs | exact Hsp].
Qed.

Lemma get_libdoc_with_refused E get_meta cp worker w m src w1 e :
  get_meta w = (Ok (Some m, src), w1) ->
  lookup_refused E cp m e ->
  get_libdoc_with E get_meta cp worker w = (Raise e, w1).
Proof.
  intros Hmeta Hr. unfold get_libdoc_with. unfold bind at 1.
  rewrite Hmeta. unfold bind at 1. simpl fst.
  rewrite (load_spec_refused E cp m w1 e Hr). reflexivity.
Qed.

Lemma in_trace_app (ev : event) (tr1 tr2 tr3 : list event) :
  ev ∈ tr1 ++ tr2 ++ [ev] ++ tr3.
Proof. rewrite !elem_of_app. right; right; left. apply list_elem_of_singleton. reflexivity. Qed.

Lemma save_spec_executors E cp meta d w :
  w_executors (save_spec E cp meta d w).2 = w_executors w.
Proof.
  unfold save_spec. munfold. destruct meta as [m|]; [|reflexivity].
  repeat (case_match; simplify_eq/=); reflexivity.
Qed.

Lemma save_spec_blocked E cp meta d w :
  w_blocked (save_spec E cp meta d w).2 = w_blocked w.
Proof.
  unfold save_spec. munfold. destruct meta as [m|]; [|reflexivity].
  repeat (case_match; simplify_eq/=); reflexivity.
Qed.

Lemma save_spec_trace E cp meta d w :
  exists tr,
    w_trace (save_spec E cp meta d w).2 = w_trace w ++ tr
    /\ forallb (fun ev => negb (is_executor_event ev)) tr = true.
Proof.
  unfold save_spec. munfold. destruct meta as [m|].
  2:{ exists []. simpl. rewrite app_nil_r. auto. }
  repeat (case_match; simplify_eq/=);
    repeat (rewrite <- app_assoc; simpl);
    (eexists; split; [reflexivity | reflexivity])
    || (exists []; rewrite app_nil_r; split; reflexivity).
Qed.

Lemma fs_ops_app tr1 tr2 : fs_ops (tr1 ++ tr2) = fs_ops tr1 ++ fs_ops tr2.
Proof. unfold fs_ops. apply omap_app. Qed.

Lemma fs_ops_cons ev tr : fs_ops (ev :: tr) = fs_ops [ev] ++ fs_ops tr.
Proof. destruct ev; reflexivity. Qed.

Lemma fs_ops_calls tr : forallb is_call_event tr = true -> fs_ops tr = [].
Proof.
  induction tr as [|ev tr IH]; [reflexivity|]. simpl.
  destruct ev; simpl; try discriminate. exact IH.
Qed.

Lemma fs_ops_worker_calls id k n a cmd out :
  fs_ops (worker_calls id k n a cmd out) = [].
Proof.
  unfold worker_calls. destruct cmd as [cv|ec], out as [d|e]; simpl;
    try reflexivity; destruct (is_exit e); reflexivity.
Qed.

Lemma fs_ops_one_shot before id sm wait calls :
  fs_ops calls = [] ->
  fs_ops (before ++ [EvExecutor id 1 sm] ++ calls ++ [EvShutdown id wait])
  = fs_ops before.
Proof.
  intros Hc. rewrite !fs_ops_app, Hc. simpl. apply app_nil_r.
Qed.

(** ** The build after a miss *)

Lemma build_miss_eq E get_meta cp k n a wd bd cmd v w meta src w1 w2 :
  get_meta w = (Ok (meta, src), w1) ->
  load_spec E cp meta w1 = (Ok None, w2) ->
  let id := w_executors w2 in
  let out := worker_outcome E id k n a wd bd cmd v in
  let w3 :=
    blocked_for (worker_seconds E id k n a wd bd cmd v)
      (set_executors (S id)
         (emits ([EvExecutor id 1 "spawn"] ++ worker_calls id k n a cmd out
                 ++ [EvShutdown id true]) w2)) in
  get_libdoc_with E get_meta cp (run_in_worker E k n a wd bd cmd v) w
  = match out with
    | Ok d =>
        (match (save_spec E cp meta d w3).1 with
         | Ok _ => Ok d
         | Raise e => Raise e
         end, (save_spec E cp meta d w3).2)
    | Raise e => (Raise e, w3)
    end.
Proof.
  intros Hmeta Hl id out w3.
  unfold get_libdoc_with. unfold bind at 1.
  rewrite Hmeta. unfold bind at 1. simpl fst. rewrite Hl.
  unfold bind at 1. rewrite run_in_worker_eq. fold id. fold out. fold w3.
  destruct out as [d|e]; [|reflexivity].
  unfold bind. cbn [fst snd].
  destruct (save_spec E cp meta d w3) as [[[]|e] w4]; reflexivity.
Qed.

Lemma save_spec_exit E cp meta d w e :
  (save_spec E cp meta d w).1 = Raise e -> is_exit e = true.
Proof.
  unfold save_spec. munfold. destruct meta as [m|]; [|discriminate].
  repeat (case_match; simplify_eq/=); try discriminate;
    intros [= <-]; assumption.
Qed.

Lemma build_miss E get_meta cp k n a wd bd cmd v w meta src w1 w2 :
  get_meta w = (Ok (meta, src), w1) ->
  load_spec E cp meta w1 = (Ok None, w2) ->
  let id := w_executors w2 in
  let out := worker_outcome E id k n a wd bd cmd v in
  let outcome :=
    get_libdoc_with E get_meta cp (run_in_worker E k n a wd bd cmd v) w in
  one_shot_worker id k n a cmd out (w_trace w2) (w_trace outcome.2)
  /\ w_executors outcome.2 = S id
  /\ w_blocked outcome.2
     = add_wait (worker_seconds E id k n a wd bd cmd v) (w_blocked w2)
  /\ (forall ex, out = Raise ex -> outcome.1 = Raise ex)
  /\ (outcome.1 = out
      \/ exists e, outcome.1 = Raise e /\ is_exit e = true
                   /\ is_ok out = true)
  /\ (meta = None -> outcome.1 = out /\ w_fs outcome.2 = w_fs w2
                     /\ fs_ops (w_trace outcome.2) = fs_ops (w_trace w2)).
Proof.
  intros Hmeta Hl id out outcome. subst outcome.
  rewrite (build_miss_eq E get_meta cp k n a wd bd cmd v w meta src w1 w2
             Hmeta Hl).
  fold id. fold out.
  destruct out as [d|e] eqn:Hout.
  - match goal with
    | |- context [save_spec E cp meta d ?w3] =>
        pose proof (save_spec_executors E cp meta d w3) as Hx;
        pose proof (save_spec_blocked E cp meta d w3) as Hbl;
        pose proof (save_spec_trace E cp meta d w3) as (tr & Htr & Hnex);
        pose proof (save_spec_exit E cp meta d w3) as Hexit;
        destruct (save_spec E cp meta d w3) as [rs w4] eqn:Hs
    end.
    cbn [fst snd] in *. simpl in Hx, Htr, Hbl.
    split; [|split; [|split; [|split; [|split]]]].
    + exists tr. split; [|exact Hnex]. rewrite Htr.
      repeat (rewrite <- app_assoc; simpl). reflexivity.
    + exact Hx.
    + exact Hbl.
    + discriminate.
    + destruct rs as [[]|e]; [left; reflexivity|].
      right. exists e. auto.
    + intros ->. simpl in Hs. injection Hs as <- <-. repeat split.
      exact (fs_ops_one_shot (w_trace w2) id "spawn" true
               (worker_calls id k n a cmd (Ok d)) (fs_ops_worker_calls _ _ _ _ _ _)).
  - simpl. split; [|split; [|split; [|split; [|split]]]].
    + exists []. split; [|reflexivity].
      repeat (rewrite <- app_assoc; simpl). reflexivity.
    + reflexivity.
    + reflexivity.
    + intros ex [= <-]. reflexivity.
    + left. reflexivity.
    + intros _. repeat split.
      exact (fs_ops_one_shot (w_trace w2) id "spawn" true
               (worker_calls id k n a cmd (Raise e)) (fs_ops_worker_calls _ _ _ _ _ _)).
Qed.



(** ** C1: a cache hit is a match of the stored meta *)



Example library_cache_miss_on_stale_meta :
  let out := library_get_libdoc calm None "My.py" [] "/w" "/w" stale_world in
  from_json_meta calm "meta of My at 99" = Ok (demo_meta_at 99)
  /\ out.1 = Ok demo_doc /\ w_executors out.2 = 1%nat
  /\ w_fs out.2 !! "/c/libdoc/00d700a7_My.meta.json"
     = Some "meta of My at 100".
Proof. repeat split; reflexivity. Qed.


Lemma append_suffix_differs (base : string) :
  base +:+ ".spec.json" <> base +:+ ".meta.json".
Proof.
  induction base as [|c base IH]; simpl.
  - intros H. discriminate H.
  - intros [= H]. auto.
Qed.

Lemma string_app_inj_l (a x y : string) : a +:+ x = a +:+ y -> x = y.
Proof. induction a as [|c a IH]; simpl; [auto|]. intros [= H]. auto. Qed.

Lemma spec_file_is_not_meta_file (cp base : string) :
  spec_file_of cp base <> meta_file_of cp base.
Proof.
  unfold spec_file_of, meta_file_of, Path2.
  assert (is_absolute (base +:+ ".spec.json")
          = is_absolute (base +:+ ".meta.json")) as ->.
  { destruct base; reflexivity. }
  destruct (is_absolute _).
  - apply append_suffix_differs.
  - intros H. apply string_app_inj_l in H. injection H as H.
    eapply append_suffix_differs, H.
Qed.

Lemma store_ops_order E cp base m doc ops :
  store_ops E cp base m doc ops ->
  let spec := spec_file_of cp base in
  let meta := meta_file_of cp base in
  (forall op, op ∈ ops ->
     op = OpMkdir (path_parent (pathlib E) spec)
     \/ exists t, op = OpWriteText spec t \/ op = OpWriteText meta t)
  /\ (forall i t, ops !! i = Some (OpWriteText meta t) ->
        write_fault E spec = None
        /\ exists j t', (j < i)%nat /\ ops !! j = Some (OpWriteText spec t'))
  /\ (write_fault E spec <> None -> forall t, OpWriteText meta t ∉ ops).
Proof.
  intros Hops spec meta.
  pose proof (spec_file_is_not_meta_file cp base) as Hne.
  fold spec meta in Hne.
  assert (forall i t, ops !! i = Some (OpWriteText meta t) ->
            write_fault E spec = None
            /\ exists j t', (j < i)%nat /\ ops !! j = Some (OpWriteText spec t'))
    as Horder.
  { intros i t Hi.
    destruct Hops as [-> | [(text & _ & _ & -> & _)
                           | (text & mtext & _ & _ & Hw & _ & ->)]].
    - destruct i as [|[|i]]; discriminate.
    - destruct i as [|[|[|i]]]; try discriminate.
      simpl in Hi. injection Hi as Hsm _. destruct (Hne Hsm).
    - split; [exact Hw|].
      destruct i as [|[|[|[|i]]]]; try discriminate.
      + simpl in Hi. injection Hi as Hsm _. destruct (Hne Hsm).
      + exists 1%nat, text. split; [lia | reflexivity]. }
  split; [|split; [exact Horder|]].
  - intros op Hop.
    destruct Hops as [-> | [(text & _ & _ & -> & _)
                           | (text & mtext & _ & _ & _ & _ & ->)]];
      repeat (apply elem_of_cons in Hop as [-> | Hop]); eauto;
      apply elem_of_nil in Hop; contradiction.
  - intros Hfault t Hin. apply list_elem_of_lookup in Hin as [i Hi].
    apply Horder in Hi as [Hw _]. contradiction.
Qed.

Lemma build_fs_ops E get_meta cp k n a wd bd cmd v w m src :
  (forall w0, quiet w0 (get_meta w0).2) ->
  (get_meta w).1 = Ok (Some m, src) ->
  let outcome :=
    get_libdoc_with E get_meta cp (run_in_worker E k n a wd bd cmd v) w in
  exists tr,
    w_trace outcome.2 = w_trace w ++ tr
    /\ match filepath_base (pathlib E) m with
       | Ok base =>
           fs_ops tr = [] \/ exists doc, store_ops E cp base m doc (fs_ops tr)
       | Raise _ => fs_ops tr = []
       end.
Proof.
  intros Hquiet Hfresh outcome.
  destruct outcome as [r w'] eqn:Hout. unfold outcome in Hout.
  pose proof (get_libdoc_with_cases E get_meta cp k n a wd bd cmd v w r w'
                Hquiet Hout) as Hcases.
  pose proof (Hquiet w) as (_ & _ & calls & Hcalls & Hiscall).
  destruct (get_meta w) as [rm w1] eqn:Hmeta. cbn [fst snd] in *. subst rm.
  assert (Hquiet_case :
            w' = w1 ->
            exists tr, w_trace w' = w_trace w ++ tr
              /\ match filepath_base (pathlib E) m with
                 | Ok base =>
                     fs_ops tr = []
                     \/ exists doc, store_ops E cp base m doc (fs_ops tr)
                 | Raise _ => fs_ops tr = []
                 end).
  { intros ->. exists calls. split; [exact Hcalls|].
    pose proof (fs_ops_calls calls Hiscall) as Hnone.
    destruct (filepath_base (pathlib E) m); auto. }
  destruct Hcases as [(e & [=] & _) | (meta & src' & w1' & [= <- <- <-] & Hc)].
  destruct Hc as [(m' & doc' & _ & _ & _ & Hw)
                 | [(m' & e & _ & _ & _ & Hw)
                   | [(e & _ & _ & _ & Hw)
                     | (_ & Hnr & pre & tr & _ & Htr & Hpre & _ & _ & Hstore)]]];
    try (apply Hquiet_case, Hw).
  destruct (filepath_base (pathlib E) m) as [base|e0] eqn:Hb.
  2:{ exfalso. apply (Hnr m e0 eq_refl). left. exact Hb. }
  eexists. split.
  { rewrite Htr, Hcalls, <- app_assoc. reflexivity. }
  rewrite !fs_ops_app, fs_ops_worker_calls, (fs_ops_calls calls Hiscall).
  assert (fs_ops pre = []) as ->.
  { destruct Hpre as [-> | ->]; reflexivity. }
  simpl.
  destruct (worker_outcome E (w_executors w) k n a wd bd cmd v) as [doc|e].
  + destruct Hstore as (base' & Hb' & Hops). rewrite ?Hb in Hb'.
    injection Hb' as <-. right. exists doc. exact Hops.
  + subst tr. left. reflexivity.
Qed.

Lemma build_persist_order E get_meta cp k n a wd bd cmd v w m src :
  (forall w0, quiet w0 (get_meta w0).2) ->
  (get_meta w).1 = Ok (Some m, src) ->
  persist_order E cp m (w_trace w)
    (w_trace
       (get_libdoc_with E get_meta cp (run_in_worker E k n a wd bd cmd v) w).2).
Proof.
  intros Hquiet Hfresh.
  destruct (build_fs_ops E get_meta cp k n a wd bd cmd v w m src
              Hquiet Hfresh) as (tr & Htr & Hops).
  exists tr. split; [exact Htr|].
  destruct (filepath_base (pathlib E) m) as [base|e]; [|exact Hops].
  destruct Hops as [-> | [doc Hops]].
  - cbn zeta. repeat split.
    + intros op Hop. apply elem_of_nil in Hop. contradiction.
    + discriminate.
    + discriminate.
    + intros _ t Hin. apply elem_of_nil in Hin. contradiction.
  - exact (store_ops_order E cp base m doc _ Hops).
Qed.

(** ** C4: the order of the two writes *)

(** C4 (as amended).  When a library or variables build stores its
    artifacts, the only operations on the cache directory are [mkdir]
    of the parent and [write_text] straight on the final paths of
    [spec.json] and [meta.json] (no temporary file, no rename);
    [meta.json] is written only after [spec.json], and if writing
    [spec.json] fails, [meta.json] is not written. *)
Theorem spec_is_written_before_meta (E : Env) (variables : option Vars)
    (name : string) (args : list string) (working_dir base_dir : string)
    (w : World) :
  (forall m src,
     (get_library_meta E name base_dir variables w).1 = Ok (Some m, src) ->
     persist_order E (lib_doc_cache_path E) m (w_trace w)
       (w_trace
          (library_get_libdoc E variables name args working_dir base_dir w).2))
  /\ (forall resolve_command_line_vars m src,
        (get_variables_meta E name base_dir variables true
           resolve_command_line_vars w).1 = Ok (Some m, src) ->
        persist_order E (variables_doc_cache_path E) m (w_trace w)
          (w_trace
             (variables_get_libdoc E variables resolve_command_line_vars
                name args working_dir base_dir w).2)).
Proof.
  split.
  - intros m src Hfresh. rewrite library_get_libdoc_eq.
    eapply build_persist_order; [| exact Hfresh].
    apply get_library_meta_quiet.
  - intros rc m src Hfresh. rewrite variables_get_libdoc_eq.
    eapply build_persist_order; [| exact Hfresh].
    apply get_variables_meta_quiet.
Qed.

Lemma spec_is_written_before_meta_witness :
  persist_order calm "/c/libdoc" demo_meta []
    (w_trace (library_get_libdoc calm None "My.py" [] "/w" "/w" empty_world).2).
Proof.
  exact (proj1 (spec_is_written_before_meta calm None "My.py" [] "/w" "/w"
                  empty_world) demo_meta "/w/My.py" eq_refl).
Defined.

(** C4 as stated fails: a build that stores both files renames nothing
    into place, and a write of [spec.json] that fails half-way leaves
    the torn text in the file itself. *)
Lemma cache_writes_are_not_atomic :
  let spec := "/c/libdoc/00d700a7_My.spec.json" in
  let meta := "/c/libdoc/00d700a7_My.meta.json" in
  let out := library_get_libdoc calm None "My.py" [] "/w" "/w" empty_world in
  let ops := fs_ops (w_trace out.2) in
  ops = [OpMkdir "/c/libdoc"; OpWriteText spec "keywords of My";
         OpWriteText meta "meta of My at 100"]
  /\ ~ written_atomically spec ops
  /\ ~ written_atomically meta ops
  /\ w_fs stale_world !! spec = Some "old keywords of My"
  /\ w_fs (library_get_libdoc torn None "My.py" [] "/w" "/w" stale_world).2
       !! spec = Some "keyw".
Proof.
  intros spec meta out ops.
  assert (ops = [OpMkdir "/c/libdoc"; OpWriteText spec "keywords of My";
                 OpWriteText meta "meta of My at 100"]) as Hops
    by reflexivity.
  split; [exact Hops|]. rewrite Hops.
  repeat split.
  - intros (tmp & _ & Hin).
    repeat (apply elem_of_cons in Hin as [Hin | Hin]; [discriminate Hin|]).
    apply elem_of_nil in Hin. exact Hin.
  - intros (tmp & _ & Hin).
    repeat (apply elem_of_cons in Hin as [Hin | Hin]; [discriminate Hin|]).
    apply elem_of_nil in Hin. exact Hin.
Qed.

Lemma build_cache_errors E get_meta cp k n a wd bd cmd v w :
  (forall w0, quiet w0 (get_meta w0).2) ->
  cache_io_ordinary E ->
  let fresh := (get_meta w).1 in
  let outcome :=
    get_libdoc_with E get_meta cp (run_in_worker E k n a wd bd cmd v) w in
  probe_returns E cp fresh ->
  cache_transparent E cp w fresh
    (worker_outcome E (w_executors w) k n a wd bd cmd v) outcome.
Proof.
  intros Hquiet Hio fresh outcome Hprobe.
  destruct outcome as [r w'] eqn:Hout. unfold outcome in Hout.
  pose proof (get_libdoc_with_cases E get_meta cp k n a wd bd cmd v w r w'
                Hquiet Hout) as Hcases.
  subst fresh. unfold cache_transparent. simpl.
  destruct Hcases as [(e & He & -> & _) | (meta & src & w1 & Hmeta & Hc)].
  { right; left. eauto. }
  rewrite Hmeta in Hprobe |- *. simpl in Hprobe |- *.
  destruct Hc as [(m & doc & -> & Hsp & -> & _)
                 | [(m & e & -> & Hr & -> & _)
                   | [(e & _ & _ & Hno & _)
                     | (Hno & _ & pre & tr & Hx & _ & _ & _ & Hr & _)]]].
  - left. exists m, src, doc. auto.
  - destruct Hr as [Hb | (base & Hb & Hrf)].
    + right; right; left. exists m, src, e. auto.
    + exfalso. eapply Hprobe; eauto.
  - contradiction.
  - right; right; right. simpl in Hx, Hr.
    destruct Hr as [-> | (e & _ & _ & Hno' & _)]; [|contradiction].
    repeat split; auto. intros m src' doc [= -> _]. eapply Hno. reflexivity.
Qed.

(** ** C5: errors of the cache files *)

(** C5 (as amended).  In a library or variables build whose probe
    [meta_file.exists()] returns, no exception other than [SystemExit]
    and [KeyboardInterrupt] raised while reading or writing [meta.json]
    or [spec.json] reaches the caller: the build returns the stored Doc,
    or raises what the fingerprinting or the naming of the cache files
    raised, or starts the worker and returns exactly what the worker
    yields; a failed read of the stored pair is the last case. *)
Theorem cache_errors_do_not_propagate (E : Env) (variables : option Vars)
    (name : string) (args : list string) (working_dir base_dir : string)
    (w : World) :
  cache_io_ordinary E ->
  let library_worker :=
    worker_outcome E (w_executors w) Library name args working_dir base_dir
      (all_command_line_vars E) variables in
  let variables_worker rc :=
    worker_outcome E (w_executors w) Variables name args (folder E) base_dir
      (if rc : bool then all_command_line_vars E else Ok None) variables in
  let library_fresh := (get_library_meta E name base_dir variables w).1 in
  let variables_fresh rc :=
    (get_variables_meta E name base_dir variables true rc w).1 in
  let library_outcome :=
    library_get_libdoc E variables name args working_dir base_dir w in
  let variables_outcome rc :=
    variables_get_libdoc E variables rc name args working_dir base_dir w in
  (probe_returns E (lib_doc_cache_path E) library_fresh ->
   cache_transparent E (lib_doc_cache_path E) w library_fresh library_worker
     library_outcome
   /\ forall m src,
        library_fresh = Ok (Some m, src) ->
        stored_pair_error E (lib_doc_cache_path E) w m ->
        library_outcome.1 = library_worker)
  /\ (forall rc,
        probe_returns E (variables_doc_cache_path E) (variables_fresh rc) ->
        cache_transparent E (variables_doc_cache_path E) w
          (variables_fresh rc) (variables_worker rc) (variables_outcome rc)
        /\ forall m src,
             variables_fresh rc = Ok (Some m, src) ->
             stored_pair_error E (variables_doc_cache_path E) w m ->
             (variables_outcome rc).1 = variables_worker rc).
Proof.
  intros Hio lw vw lf vf lo vo.
  assert (forall cp fresh worker outcome m src,
            cache_transparent E cp w fresh worker outcome ->
            fresh = Ok (Some m, src) -> stored_pair_error E cp w m ->
            outcome.1 = worker) as Hread.
  { intros cp fresh worker outcome m src
           [(m' & src' & doc & Hf & Hsp & _)
           | [(e & Hf & _) | [(m' & src' & e & Hf & Hb & _) | (Hr & _)]]]
           Hfresh Herr.
    - exfalso. rewrite Hfresh in Hf. injection Hf as <- <-.
      eapply stored_pair_error_excludes; eauto.
    - rewrite Hfresh in Hf. discriminate.
    - exfalso. rewrite Hfresh in Hf. injection Hf as <- <-.
      eapply (stored_pair_error_not_refused E cp w m e Herr). left. exact Hb.
    - exact Hr. }
  split.
  - intros Hprobe.
    assert (cache_transparent E (lib_doc_cache_path E) w lf lw lo) as Hl.
    { subst lf lw lo. rewrite library_get_libdoc_eq.
      apply build_cache_errors; [| exact Hio | exact Hprobe].
      apply get_library_meta_quiet. }
    split; [exact Hl|]. intros m src. apply Hread, Hl.
  - intros rc Hprobe.
    assert (cache_transparent E (variables_doc_cache_path E) w (vf rc) (vw rc)
              (vo rc)) as Hv.
    { subst vf vw vo. cbn beta in *. rewrite variables_get_libdoc_eq.
      apply build_cache_errors; [| exact Hio | exact Hprobe].
      apply get_variables_meta_quiet. }
    split; [exact Hv|]. intros m src. apply Hread, Hv.
Qed.

Lemma faulty_is_ordinary : cache_io_ordinary faulty.
Proof.
  unfold cache_io_ordinary, faulty, demo_env, timed_env. simpl. repeat split.
  - intros p f [= <-]. reflexivity.
  - intros p e t [= <- _]. reflexivity.
  - discriminate.
  - intros t e. unfold demo_from_json_meta.
    repeat case_decide; intros [= <-]; reflexivity.
  - intros t e. unfold demo_from_json_doc.
    case_decide; intros [= <-]; reflexivity.
  - intros m e. unfold demo_as_json_meta.
    repeat case_decide; intros [= <-]; reflexivity.
  - discriminate.
Defined.

Lemma cache_errors_do_not_propagate_witness :
  cache_io_ordinary faulty
  /\ (library_get_libdoc faulty None "My.py" [] "/w" "/w" cached_world).1
     = Ok demo_doc.
Proof.
  split; [exact faulty_is_ordinary|].
  refine (proj2 (proj1 (cache_errors_do_not_propagate faulty None "My.py" []
                          "/w" "/w" cached_world faulty_is_ordinary) _)
            demo_meta "/w/My.py" eq_refl
            (ex_intro _ "00d700a7_My"
               (ex_intro _ "meta of My at 100"
                  (conj eq_refl
                     (conj eq_refl
                        (or_introl (ex_intro _ "PermissionError" eq_refl))))))).
  intros m src base e _ _. discriminate.
Defined.

(** C5 as stated fails.  An interrupt from the keyboard while
    [meta.json] is read, and a [SystemExit] while [spec.json] is
    written, reach the caller although the worker has, or would have,
    yielded a Doc; and so does the PermissionError of the probe
    [meta_file.exists()], an ordinary exception, in a cache directory
    that may not be searched. *)
Lemma cache_exceptions_that_propagate :
  read_fault interrupted "/c/libdoc/00d700a7_My.meta.json"
  = Some (Unreadable KeyboardInterrupt)
  /\ worker_outcome interrupted 0 Library "My.py" [] "/w" "/w"
       (all_command_line_vars interrupted) None = Ok demo_doc
  /\ (library_get_libdoc interrupted None "My.py" [] "/w" "/w" cached_world).1
     = Raise KeyboardInterrupt
  /\ write_fault exiting "/c/libdoc/00d700a7_My.spec.json"
     = Some (SystemExit, None)
  /\ worker_outcome exiting 0 Library "My.py" [] "/w" "/w"
       (all_command_line_vars exiting) None = Ok demo_doc
  /\ (library_get_libdoc exiting None "My.py" [] "/w" "/w" empty_world).1
     = Raise SystemExit
  /\ read_fault locked "/c/libdoc/00d700a7_My.meta.json"
     = Some (Unreachable (Error "PermissionError"))
  /\ is_exit (Error "PermissionError") = false
  /\ worker_outcome locked 0 Library "My.py" [] "/w" "/w"
       (all_command_line_vars locked) None = Ok demo_doc
  /\ (library_get_libdoc locked None "My.py" [] "/w" "/w" cached_world).1
     = Raise (Error "PermissionError")
  /\ (variables_get_libdoc locked None true "vars.py" [] "/w" "/w"
        (set_fs (insert "/c/variables/00d700a7_vars.meta.json" "meta")
           empty_world)).1
     = Raise (Error "PermissionError").
Proof. repeat split; reflexivity. Qed.

(** ** C6: what the fingerprinting returns when it gives up *)

Lemma get_library_meta_none E n b v w nm w1 :
  find_library E n b v w = (Ok nm, w1) ->
  identify E (is_library_by_path E nm) nm = Ok None
  \/ (exists r, identify E (is_library_by_path E nm) nm = Ok (Some r)
                 /\ ignored E (ignored_libraries_patters E) r = true)
  \/ (exists k, identify E (is_library_by_path E nm) nm = Raise (Error k))
  \/ (exists r k, identify E (is_library_by_path E nm) nm = Ok (Some r)
                   /\ fingerprint E (ignored_libraries_patters E) nm (Some r)
                      = Raise (Error k)) ->
  get_library_meta E n b v w = (Ok (None, nm), w1).
Proof.
  intros Hfind Hcase. unfold get_library_meta. rewrite Hfind. simpl.
  destruct Hcase as [-> | [(r & -> & Hign) | [(k & ->) | (r & k & -> & Hfp)]]];
    simpl.
  - reflexivity.
  - rewrite Hign. reflexivity.
  - reflexivity.
  - unfold fingerprint in Hfp. rewrite Hfp. reflexivity.
Qed.

Lemma get_variables_meta_none E n b v rv rc w nm w1 :
  find_variables E n b v rv rc w = (Ok nm, w1) ->
  identify E (is_variables_by_path E nm) nm = Ok None
  \/ (exists r, identify E (is_variables_by_path E nm) nm = Ok (Some r)
                 /\ ignored E (ignored_variables_patters E) r = true) ->
  get_variables_meta E n b v rv rc w = (Ok (None, nm), w1).
Proof.
  intros Hfind Hcase. unfold get_variables_meta. rewrite Hfind. simpl.
  destruct Hcase as [-> | (r & -> & Hign)]; simpl.
  - reflexivity.
  - rewrite Hign. reflexivity.
Qed.

(** On an error the variables variant hands back the name it was
    called with. *)
Lemma get_variables_meta_error E n b v rv rc w nm w1 :
  find_variables E n b v rv rc w = (Ok nm, w1) ->
  (exists k, identify E (is_variables_by_path E nm) nm = Raise (Error k))
  \/ (exists r k, identify E (is_variables_by_path E nm) nm = Ok (Some r)
                   /\ fingerprint E (ignored_variables_patters E) nm (Some r)
                      = Raise (Error k)) ->
  get_variables_meta E n b v rv rc w = (Ok (None, n), w1).
Proof.
  intros Hfind Hcase. unfold get_variables_meta. rewrite Hfind. simpl.
  destruct Hcase as [(k & ->) | (r & k & -> & Hfp)]; simpl.
  - reflexivity.
  - unfold fingerprint in Hfp. rewrite Hfp. reflexivity.
Qed.

(** A build without a meta starts the worker, returns what it yields
    and leaves the cache directory alone. *)
Lemma uncached_build_writes_nothing E get_meta cp k n a wd bd cmd v w src w1 :
  get_meta w = (Ok (None, src), w1) ->
  let outcome :=
    get_libdoc_with E get_meta cp (run_in_worker E k n a wd bd cmd v) w in
  outcome.1 = worker_outcome E (w_executors w1) k n a wd bd cmd v
  /\ w_fs outcome.2 = w_fs w1
  /\ fs_ops (w_trace outcome.2) = fs_ops (w_trace w1).
Proof.
  intros Hmeta outcome.
  exact (proj2 (proj2 (proj2 (proj2 (proj2
           (build_miss E get_meta cp k n a wd bd cmd v w None src w1 w1
              Hmeta eq_refl))))) eq_refl).
Qed.

(** C6.  After a resolution to ["/w/vars.py"], an error of the
    fingerprinting (the file cannot be stat-ed) makes
    [get_variables_meta] return [(None, "vars.py")], the name it was
    called with, where the claim has the resolved name; the library
    variant returns the resolved name in the same situation. *)
Theorem get_variables_meta_returns_unresolved_name :
  (find_variables stat_fails "vars.py" "/w" None true true empty_world).1
  = Ok "/w/vars.py"
  /\ stat_mtime_ns stat_fails "/w/vars.py" = Raise (Error "OSError")
  /\ (get_variables_meta stat_fails "vars.py" "/w" None true true
        empty_world).1
     = Ok (None, "vars.py")
  /\ (find_library stat_fails "My.py" "/w" None empty_world).1
     = Ok "/w/My.py"
  /\ (get_library_meta stat_fails "My.py" "/w" None empty_world).1
     = Ok (None, "/w/My.py").
Proof. repeat split; reflexivity. Qed.

(** When the resolution itself fails, the library variant has no name to
    return: its last line reads a variable that was never bound. *)
Lemma get_library_meta_unbound_import_name E n b v w k w1 :
  find_library E n b v w = (Raise (Error k), w1) ->
  get_library_meta E n b v w = (Raise (Error "UnboundLocalError"), w1).
Proof.
  intros Hfind. unfold get_library_meta. rewrite Hfind. reflexivity.
Qed.

(** ** C7: the worker of a build, and an entry after a failed build *)

Lemma l_get_libdoc_invalid E e w :
  l_lib_doc e = None ->
  l_get_libdoc E (e, w)
  = match library_get_libdoc E (l_variables e) (l_name e) (l_args e)
            (l_working_dir e) (l_base_dir e) w with
    | (Ok d, w') =>
        (Ok d,
         (l_set_doc (Some d) (l_file_watchers e ++ l_watch_globs E d) e,
          fold_left (fun w g => add_file_watchers g w) (l_watch_globs E d) w'))
    | (Raise ex, w') => (Raise ex, (e, w'))
    end.
Proof.
  intros Hnone. unfold l_get_libdoc, l_update. munfold. simpl.
  rewrite Hnone. simpl.
  destruct (library_get_libdoc E _ _ _ _ _ w) as [[d|ex] w']; reflexivity.
Qed.

Lemma v_get_libdoc_invalid E e w :
  v_lib_doc e = None ->
  v_get_libdoc E (e, w)
  = match variables_get_libdoc E (v_variables e)
            (v_resolve_command_line_vars e) (v_name e) (v_args e)
            (v_working_dir e) (v_base_dir e) w with
    | (Ok d, w') =>
        (Ok d,
         (v_set_doc (Some d)
            (v_file_watchers e ++ [[default "None" (ld_source d)]]) e,
          add_file_watchers [default "None" (ld_source d)] w'))
    | (Raise ex, w') => (Raise ex, (e, w'))
    end.
Proof.
  intros Hnone. unfold v_get_libdoc, v_update. munfold. simpl.
  rewrite Hnone. simpl.
  destruct (variables_get_libdoc E _ _ _ _ _ _ w) as [[d|ex] w']; reflexivity.
Qed.

Lemma l_get_libdoc_valid E e w d :
  l_lib_doc e = Some d -> l_get_libdoc E (e, w) = (Ok d, (e, w)).
Proof.
  intros Hd. unfold l_get_libdoc. munfold. simpl. rewrite Hd. simpl.
  rewrite Hd. reflexivity.
Qed.

Lemma v_get_libdoc_valid E e w d :
  v_lib_doc e = Some d -> v_get_libdoc E (e, w) = (Ok d, (e, w)).
Proof.
  intros Hd. unfold v_get_libdoc. munfold. simpl. rewrite Hd. simpl.
  rewrite Hd. reflexivity.
Qed.

(** C7 (as amended).  A library or variables build that misses the cache
    creates an executor of its own with one worker and the start method
    "spawn", submits the import, waits for the result with the deadline
    of 30 seconds (past the deadline, or when the worker never ends,
    the result is TimeoutError), and shuts the executor down with
    [wait=True] before it goes on; no later step of the build touches
    an executor.  The shutdown returns when the worker has ended: the
    build has then waited for as long as the worker runs, whatever the
    deadline, and for ever when the worker never ends.  When the worker
    times out or fails, the exception is what the caller of the entry
    gets after that wait, the entry is left as it was (no doc, not
    valid), and the next [get_libdoc] of the entry runs the build
    again. *)
Theorem failed_build_leaves_entry_empty (E : Env) (w : World) :
  (forall (e : _LibrariesEntry) meta src w1 w2,
     l_lib_doc e = None ->
     get_library_meta E (l_name e) (l_base_dir e) (l_variables e) w
     = (Ok (meta, src), w1) ->
     load_spec E (lib_doc_cache_path E) meta w1 = (Ok None, w2) ->
     let id := w_executors w2 in
     let cmd := all_command_line_vars E in
     let out :=
       worker_outcome E id Library (l_name e) (l_args e) (l_working_dir e)
         (l_base_dir e) cmd (l_variables e) in
     let seconds :=
       worker_seconds E id Library (l_name e) (l_args e) (l_working_dir e)
         (l_base_dir e) cmd (l_variables e) in
     let build :=
       library_get_libdoc E (l_variables e) (l_name e) (l_args e)
         (l_working_dir e) (l_base_dir e) in
     let request := l_get_libdoc E (e, w) in
     LOAD_LIBRARY_TIME_OUT = 30%nat
     /\ one_shot_worker id Library (l_name e) (l_args e) cmd out (w_trace w2)
          (w_trace (build w).2)
     /\ (forall cv, cmd = Ok cv ->
           [EvSubmit id Library (l_name e) (l_args e); EvResult id 30]
           `prefix_of` worker_calls id Library (l_name e) (l_args e) cmd out
           /\ out = match seconds with
                    | Some t =>
                        if t <=? 30
                        then (worker E id Library (l_name e) (l_args e)
                                (l_working_dir e) (l_base_dir e) cv
                                (l_variables e)).2
                        else Raise (Error "TimeoutError")
                    | None => Raise (Error "TimeoutError")
                    end)
     /\ w_executors (build w).2 = S id
     /\ w_blocked (build w).2 = add_wait seconds (w_blocked w2)
     /\ (forall ex, out = Raise ex ->
           request.1 = Raise ex
           /\ w_blocked request.2.2 = add_wait seconds (w_blocked w2)
           /\ request.2.1 = e
           /\ l_is_valid request.2.1 = false
           /\ forall w', (l_get_libdoc E (request.2.1, w')).1 = (build w').1))
  /\ (forall (e : _VariablesEntry) meta src w1 w2,
        v_lib_doc e = None ->
        get_variables_meta E (v_name e) (v_base_dir e) (v_variables e) true
          (v_resolve_command_line_vars e) w
        = (Ok (meta, src), w1) ->
        load_spec E (variables_doc_cache_path E) meta w1 = (Ok None, w2) ->
        let id := w_executors w2 in
        let cmd :=
          if v_resolve_command_line_vars e then all_command_line_vars E
          else Ok None in
        let out :=
          worker_outcome E id Variables (v_name e) (v_args e) (folder E)
            (v_base_dir e) cmd (v_variables e) in
        let seconds :=
          worker_seconds E id Variables (v_name e) (v_args e) (folder E)
            (v_base_dir e) cmd (v_variables e) in
        let build :=
          variables_get_libdoc E (v_variables e)
            (v_resolve_command_line_vars e) (v_name e) (v_args e)
            (v_working_dir e) (v_base_dir e) in
        let request := v_get_libdoc E (e, w) in
        one_shot_worker id Variables (v_name e) (v_args e) cmd out
          (w_trace w2) (w_trace (build w).2)
        /\ (forall cv, cmd = Ok cv ->
              [EvSubmit id Variables (v_name e) (v_args e); EvResult id 30]
              `prefix_of` worker_calls id Variables (v_name e) (v_args e) cmd
                            out
              /\ out = match seconds with
                       | Some t =>
                           if t <=? 30
                           then (worker E id Variables (v_name e) (v_args e)
                                   (folder E) (v_base_dir e) cv
                                   (v_variables e)).2
                           else Raise (Error "TimeoutError")
                       | None => Raise (Error "TimeoutError")
                       end)
        /\ w_executors (build w).2 = S id
        /\ w_blocked (build w).2 = add_wait seconds (w_blocked w2)
        /\ (forall ex, out = Raise ex ->
              request.1 = Raise ex
              /\ w_blocked request.2.2 = add_wait seconds (w_blocked w2)
              /\ request.2.1 = e
              /\ v_is_valid request.2.1 = false
              /\ forall w',
                   (v_get_libdoc E (request.2.1, w')).1 = (build w').1)).
Proof.
  split.
  - intros e meta src w1 w2 Hnone Hmeta Hl id cmd out seconds build request.
    subst request build. rewrite library_get_libdoc_eq.
    destruct (build_miss E _ _ Library (l_name e) (l_args e) (l_working_dir e)
                (l_base_dir e) cmd (l_variables e) w meta src w1 w2 Hmeta Hl)
      as (Hone & Hx & Hbl & Hraise & _).
    fold id in Hone, Hx, Hraise, Hbl. fold out in Hone, Hraise.
    fold seconds in Hbl.
    split; [reflexivity|]. split; [exact Hone|]. split.
    { intros cv Hcmd. subst out seconds.
      unfold worker_calls, worker_outcome, worker_seconds. rewrite Hcmd.
      split; [eexists; reflexivity|]. reflexivity. }
    split; [exact Hx|]. split; [exact Hbl|].
    intros ex Hout. specialize (Hraise ex Hout).
    rewrite (l_get_libdoc_invalid E e w Hnone), library_get_libdoc_eq.
    destruct (get_libdoc_with E _ _ _ w) as [r w'] eqn:Hb.
    simpl in Hraise, Hbl. subst r. simpl.
    split; [reflexivity|]. split; [exact Hbl|]. split; [reflexivity|]. split.
    + unfold l_is_valid. rewrite Hnone. reflexivity.
    + intros w''. rewrite (l_get_libdoc_invalid E e w'' Hnone).
      rewrite library_get_libdoc_eq.
      destruct (get_libdoc_with E _ _ _ w'') as [[d|ex'] w3]; reflexivity.
  - intros e meta src w1 w2 Hnone Hmeta Hl id cmd out seconds build request.
    subst request build. rewrite variables_get_libdoc_eq.
    destruct (build_miss E _ _ Variables (v_name e) (v_args e) (folder E)
                (v_base_dir e) cmd (v_variables e) w meta src w1 w2 Hmeta Hl)
      as (Hone & Hx & Hbl & Hraise & _).
    fold id in Hone, Hx, Hraise, Hbl. fold out in Hone, Hraise.
    fold seconds in Hbl.
    split; [exact Hone|]. split.
    { intros cv Hcmd. subst out seconds.
      unfold worker_calls, worker_outcome, worker_seconds. rewrite Hcmd.
      split; [eexists; reflexivity|]. reflexivity. }
    split; [exact Hx|]. split; [exact Hbl|].
    intros ex Hout. specialize (Hraise ex Hout).
    rewrite (v_get_libdoc_invalid E e w Hnone), variables_get_libdoc_eq.
    destruct (get_libdoc_with E _ _ _ w) as [r w'] eqn:Hb.
    simpl in Hraise, Hbl. subst r. simpl.
    split; [reflexivity|]. split; [exact Hbl|]. split; [reflexivity|]. split.
    + unfold v_is_valid. rewrite Hnone. reflexivity.
    + intros w''. rewrite (v_get_libdoc_invalid E e w'' Hnone).
      rewrite variables_get_libdoc_eq.
      destruct (get_libdoc_with E _ _ _ w'') as [[d|ex'] w3]; reflexivity.
Qed.

Lemma failed_build_leaves_entry_empty_witness :
  let first := l_get_libdoc overrunning (demo_library_entry, empty_world) in
  first.1 = Raise (Error "TimeoutError")
  /\ w_blocked first.2.2 = Some 100
  /\ first.2.1 = demo_library_entry
  /\ l_is_valid first.2.1 = false
  /\ (l_get_libdoc overrunning (first.2.1, first.2.2)).1 = Ok demo_doc.
Proof.
  intros first.
  destruct (proj1 (failed_build_leaves_entry_empty overrunning empty_world)
              demo_library_entry (Some demo_meta) "/w/My.py"
              (get_library_meta overrunning "My.py" "/w" None
                 empty_world).2
              (get_library_meta overrunning "My.py" "/w" None
                 empty_world).2
              eq_refl eq_refl eq_refl)
    as (_ & _ & _ & _ & _ & Hfail).
  destruct (Hfail (Error "TimeoutError") eq_refl) as (H1 & H2 & H3 & H4 & H5).
  split; [exact H1|]. split; [exact H2|]. split; [exact H3|].
  split; [exact H4|].
  exact (eq_trans (H5 first.2.2) eq_refl).
Defined.

(** C7 as stated fails: the deadline is not hard.  With a worker that
    runs for 100 seconds the TimeoutError reaches the caller of the
    entry after 100 seconds of waiting, not after 30; with a worker
    that never ends the request waits for ever, so that the exception
    reaches no caller. *)
Lemma timed_out_build_waits_for_the_worker :
  let late := l_get_libdoc overrunning (demo_library_entry, empty_world) in
  let never := l_get_libdoc hanging (demo_library_entry, empty_world) in
  w_blocked empty_world = Some 0
  /\ late.1 = Raise (Error "TimeoutError")
  /\ w_blocked late.2.2 = Some 100
  /\ last (w_trace late.2.2) = Some (EvShutdown 0 true)
  /\ never.1 = Raise (Error "TimeoutError")
  /\ w_blocked never.2.2 = None.
Proof. repeat split; reflexivity. Qed.

(** ** One entry under the dispatcher *)

Lemma l_check_changes_eq E changes e w d :
  l_lib_doc e = Some d ->
  l_check_changes E changes (e, w)
  = match first_change E (l_watches E d) changes with
    | Some t =>
        (Ok (Some t),
         (l_set_doc None [] e, remove_file_watchers (l_file_watchers e) w))
    | None => (Ok None, (e, w))
    end.
Proof.
  intros Hd. induction changes as [|c rest IH]; [reflexivity|].
  simpl. destruct (bool_decide (uri_scheme E (fe_uri c) = "file")); simpl.
  - munfold. simpl. rewrite Hd.
    destruct (l_watches E d (uri_to_path E (fe_uri c))); [|exact IH].
    unfold l_invalidate. rewrite Hd. reflexivity.
  - exact IH.
Qed.

Lemma l_scan_body_eq E changes k e w :
  l_scan_body E changes k (e, w)
  = (Ok (match l_change E changes e with
         | Some (t, d) => Some (k, t, Some d)
         | None => None
         end),
     (l_scanned E changes e,
      match l_change E changes e with
      | Some _ => remove_file_watchers (l_file_watchers e) w
      | None => w
      end)).
Proof.
  unfold l_scan_body, l_scanned, l_change, l_check_file_changed, l_is_valid.
  unfold bind at 1. unfold gets at 1. cbn [fst snd].
  destruct (l_lib_doc e) as [d|] eqn:Hd; simpl.
  - unfold bind at 1. unfold bind at 1.
    rewrite (l_get_libdoc_valid E e w d Hd).
    unfold ret at 1. unfold bind at 1. unfold bind at 1. unfold gets at 1.
    cbn [fst snd]. rewrite Hd. simpl.
    rewrite (l_check_changes_eq E changes e w d Hd).
    destruct (first_change E (l_watches E d) changes); reflexivity.
  - munfold. simpl. rewrite Hd. reflexivity.
Qed.

Lemma r_check_file_changed_eq E changes e w :
  r_check_file_changed E changes (e, w)
  = match first_change E (r_concerns E e) changes with
    | Some t => (Ok (Some t), (r_invalidate (e, w)).2)
    | None => (Ok None, (e, w))
    end.
Proof.
  induction changes as [|c rest IH]; [reflexivity|].
  simpl. destruct (bool_decide (uri_scheme E (fe_uri c) = "file")); simpl.
  - munfold. simpl.
    destruct (r_concerns E e (uri_to_path E (fe_uri c))); [|exact IH].
    unfold r_invalidate.
    destruct (is_none (r_document e) && is_nil (r_file_watchers e));
      reflexivity.
  - exact IH.
Qed.

Lemma r_get_libdoc_valid E e w doc :
  r_document e = Some doc ->
  r_get_libdoc E (e, w)
  = match r_held E e with
    | Ok (Some d) =>
        (Ok d, (r_set_doc (r_document e) (Some d) (r_file_watchers e) e, w))
    | Ok None => (Raise (Error "AssertionError"), (e, w))
    | Raise ex => (Raise ex, (e, w))
    end.
Proof.
  intros Hdoc. unfold r_get_libdoc, r_held, r__get_document. rewrite Hdoc.
  munfold. simpl.
  destruct (r_lib_doc e) as [d|] eqn:Hd; simpl.
  - destruct e; simpl in *. subst. reflexivity.
  - rewrite Hdoc. simpl. rewrite Hdoc.
    destruct (resource_library_doc E doc) as [d|ex]; simpl; rewrite ?Hdoc;
      reflexivity.
Qed.

Lemma r_scan_body_eq E changes k e w :
  r_scan_body E changes k (e, w)
  = match r_held E e with
    | Raise ex => (Raise ex, (e, w))
    | Ok held =>
        (Ok (match r_change E changes e with
             | Some t => Some (k, t, held)
             | None => None
             end),
         (r_scanned E changes e,
          match r_change E changes e with
          | Some _ =>
              if is_none (r_document e) && is_nil (r_file_watchers e) then w
              else remove_file_watchers (r_file_watchers e) w
          | None => w
          end))
    end.
Proof.
  unfold r_scan_body, r_scanned, r_change, r_is_valid.
  unfold bind at 1. unfold gets at 1. cbn [fst snd].
  destruct (r_document e) as [doc|] eqn:Hdoc; simpl.
  - unfold bind at 1. unfold bind at 1.
    rewrite (r_get_libdoc_valid E e w doc Hdoc).
    assert (forall held, r_held E e = Ok held -> exists d, held = Some d)
      as Hsome.
    { unfold r_held. rewrite Hdoc. intros held.
      destruct (r_lib_doc e); [intros [= <-]; eauto|].
      destruct (resource_library_doc E doc); simpl; [|discriminate].
      intros [= <-]. eauto. }
    destruct (r_held E e) as [[d|]|ex] eqn:Hheld.
    + unfold ret at 1. unfold bind at 1.
      rewrite r_check_file_changed_eq.
      assert (r_concerns E (r_set_doc (r_document e) (Some d)
                              (r_file_watchers e) e) = r_concerns E e) as ->.
      { unfold r_concerns. simpl. reflexivity. }
      destruct (first_change E (r_concerns E e) changes) as [t|];
        [|simpl; rewrite ?Hdoc; reflexivity].
      unfold r_invalidate. simpl. rewrite Hdoc. simpl. reflexivity.
    + destruct (Hsome None eq_refl) as [d [=]].
    + reflexivity.
  - unfold r_held. rewrite Hdoc. unfold bind at 1. unfold ret at 1.
    unfold bind at 1. rewrite r_check_file_changed_eq.
    destruct (first_change E (r_concerns E e) changes) as [t|];
      [|reflexivity].
    unfold r_invalidate. rewrite Hdoc. simpl.
    destruct (is_nil (r_file_watchers e)); reflexivity.
Qed.

Lemma v_check_changes_eq E changes e w d :
  v_lib_doc e = Some d ->
  v_check_changes E changes (e, w)
  = match v_first_change E (ld_source d) changes with
    | Ok (Some t) =>
        (Ok (Some t),
         (v_set_doc None [] e, remove_file_watchers (v_file_watchers e) w))
    | Ok None => (Ok None, (e, w))
    | Raise ex => (Raise ex, (e, w))
    end.
Proof.
  intros Hd. induction changes as [|c rest IH]; [reflexivity|].
  simpl. destruct (bool_decide (uri_scheme E (fe_uri c) = "file")); simpl.
  - munfold. simpl. rewrite Hd. simpl.
    destruct (truthy (ld_source d) && path_exists E (uri_to_path E (fe_uri c)));
      [|exact IH].
    destruct (path_samefile E _ _) as [[]|ex]; simpl.
    + unfold v_invalidate. rewrite Hd. reflexivity.
    + exact IH.
    + reflexivity.
  - exact IH.
Qed.

Lemma v_scan_body_eq E changes k e w :
  v_scan_body E changes k (e, w)
  = match v_change E changes e with
    | Raise ex => (Raise ex, (e, w))
    | Ok c =>
        (Ok (match c with
             | Some (t, d) => Some (k, t, Some d)
             | None => None
             end),
         (v_scanned E changes e,
          match c with
          | Some _ => remove_file_watchers (v_file_watchers e) w
          | None => w
          end))
    end.
Proof.
  unfold v_scan_body, v_scanned, v_change, v_check_file_changed, v_is_valid.
  unfold bind at 1. unfold gets at 1. cbn [fst snd].
  destruct (v_lib_doc e) as [d|] eqn:Hd; simpl.
  - unfold bind at 1. unfold bind at 1.
    rewrite (v_get_libdoc_valid E e w d Hd).
    unfold ret at 1. unfold bind at 1. unfold bind at 1. unfold gets at 1.
    cbn [fst snd]. rewrite Hd. simpl.
    rewrite (v_check_changes_eq E changes e w d Hd).
    destruct (v_first_change E (ld_source d) changes) as [[t|]|ex];
      reflexivity.
  - munfold. simpl. rewrite Hd. reflexivity.
Qed.

(** ** The loops of the dispatcher *)

Lemma remove_file_watchers_emits fws w :
  remove_file_watchers fws w = emits (map EvRemoveFileWatcher fws) w.
Proof.
  unfold remove_file_watchers. revert w.
  induction fws as [|fw fws IH]; intros w; simpl.
  - symmetry. apply emits_nil.
  - rewrite IH, emit_as_emits, emits_emits. reflexivity.
Qed.

Lemma for_items_pure {K X R} (body : K -> M (X * World) (option R))
    (f : K -> X -> result (option R)) (g : K -> X -> X)
    (P : event -> bool) :
  (forall k e w, (body k (e, w)).1 = f k e) ->
  (forall k e w, (body k (e, w)).2.1 = g k e) ->
  (forall k e w, exists tr, (body k (e, w)).2.2 = emits tr w
                            /\ forallb P tr = true) ->
  forall reg w,
    (exists tr, (for_items body reg w).2.2 = emits tr w
                /\ forallb P tr = true)
    /\ (for_items body reg w).1
       = (found <~ rmapM (fun ke => f ke.1 ke.2) reg ;;
          Ok (omap (fun x => x) found))
    /\ (is_ok (for_items body reg w).1 = true ->
        (for_items body reg w).2.1 = map (fun ke => (ke.1, g ke.1 ke.2)) reg)
    /\ map fst (for_items body reg w).2.1 = map fst reg.
Proof.
  intros Hf Hg Hh reg. induction reg as [|[k e] rest IH]; intros w.
  - simpl. repeat split; auto. exists []. rewrite emits_nil. auto.
  - simpl.
    specialize (Hf k e w). specialize (Hg k e w).
    destruct (Hh k e w) as (tr1 & Hw1 & HP1).
    destruct (body k (e, w)) as [[res|ex] [e' w1]]; simpl in Hf, Hg, Hw1.
    + subst e' w1. rewrite <- Hf. simpl.
      destruct (IH (emits tr1 w)) as ((tr2 & Hw2 & HP2) & Hr & Hreg & Hkeys).
      destruct (for_items body rest (emits tr1 w)) as [r [rest' w2]].
      simpl in *. subst w2. rewrite emits_emits.
      repeat split.
      * exists (tr1 ++ tr2). split; [reflexivity|].
        rewrite forallb_app, HP1, HP2. reflexivity.
      * rewrite Hr.
        destruct (rmapM (fun ke => f ke.1 ke.2) rest) as [found|ex]; simpl;
          [|reflexivity].
        destruct res; reflexivity.
      * intros Hok. rewrite Hreg; [reflexivity|].
        destruct r; [reflexivity | discriminate].
      * rewrite Hkeys. reflexivity.
    + subst e' w1. rewrite <- Hf. simpl. repeat split.
      * exists tr1. auto.
      * discriminate.
Qed.

Lemma od_get_pop_ne {K V} `{EqDecision K} (k l : K) (reg : list (K * V)) :
  k <> l -> od_get k (od_pop l reg) = od_get k reg.
Proof.
  intros Hne. induction reg as [|[k' v] rest IH]; [reflexivity|]. simpl.
  destruct (decide (k' = l)) as [->|Hl]; simpl.
  - destruct (decide (l = k)); [congruence | reflexivity].
  - destruct (decide (k' = k)); [reflexivity | exact IH].
Qed.

Lemma od_pop_sublist {K V} `{EqDecision K} (l : K) (reg : list (K * V)) :
  sublist (od_pop l reg) reg.
Proof.
  induction reg as [|[k v] rest IH]; [constructor|]. simpl.
  destruct (decide (k = l)).
  - apply sublist_cons. reflexivity.
  - apply sublist_skip. exact IH.
Qed.

Lemma od_get_map_values {K X} `{EqDecision K} (g : X -> X) (k : K) (e : X)
    (reg : list (K * X)) :
  NoDup (map fst reg) -> (k, e) ∈ reg ->
  od_get k (map_values g reg) = Some (g e).
Proof.
  induction reg as [|[k' e'] rest IH]; intros Hnd Hin.
  - apply elem_of_nil in Hin. contradiction.
  - simpl in *. apply NoDup_cons in Hnd as [Hnotin Hnd].
    apply elem_of_cons in Hin as [[= -> ->] | Hin].
    + destruct (decide (k' = k')); [reflexivity | congruence].
    + destruct (decide (k' = k)) as [->|Hne]; [|apply IH; assumption].
      exfalso. apply Hnotin. apply list_elem_of_fmap. exists (k, e). auto.
Qed.

Lemma announces_nil k mgr : announces k [] mgr mgr.
Proof.
  split; [rewrite app_nil_r; reflexivity|]. destruct k; repeat split;
    reflexivity.
Qed.

Lemma announces_trans k evs1 evs2 m1 m2 m3 :
  announces k evs1 m1 m2 -> announces k evs2 m2 m3 ->
  announces k (evs1 ++ evs2) m1 m3.
Proof.
  intros [Ht1 H1] [Ht2 H2]. split.
  - rewrite Ht2, Ht1, app_assoc. reflexivity.
  - destruct k; destruct H1 as (A1 & B1 & C1), H2 as (A2 & B2 & C2);
      repeat split; try congruence; etrans; try eassumption;
      rewrite ?A2, ?B2, ?C2; reflexivity.
Qed.

Lemma forM_evicts {K} (kind : ImportKind) (step : K -> M ImportsManager unit)
    (I : list K -> ImportsManager -> Prop) :
  (forall k ks mgr, I (k :: ks) mgr ->
     exists mgr', step k mgr = (Ok tt, mgr') /\ I ks mgr'
                  /\ announces kind [] mgr mgr') ->
  forall ks mgr, I ks mgr ->
    exists mgr', forM_ step ks mgr = (Ok tt, mgr')
                 /\ announces kind [] mgr mgr'.
Proof.
  intros Hstep ks. induction ks as [|k ks IH]; intros mgr HI.
  - exists mgr. split; [reflexivity | apply announces_nil].
  - destruct (Hstep k ks mgr HI) as (mgr1 & Hs & HI1 & He1).
    destruct (IH mgr1 HI1) as (mgr2 & Hs2 & He2).
    exists mgr2. split.
    + simpl. unfold bind. rewrite Hs. exact Hs2.
    + exact (announces_trans kind [] [] mgr mgr1 mgr2 He1 He2).
Qed.

Lemma remove_library_step l mgr e :
  od_get l (_libaries mgr) = Some e -> l_spent e ->
  (mgr <- get ;; entry <- getitem (_libaries mgr) l ;;
   __remove_library_entry l entry true) mgr
  = (Ok tt,
     set_world (set_library_files_cache [] (world mgr))
       (set_libaries (if is_nil (l_references e)
                      then od_pop l (_libaries mgr) else _libaries mgr) mgr)).
Proof.
  intros Hget [Hdoc Hfw].
  unfold __remove_library_entry, getitem. munfold. simpl. rewrite Hget. simpl.
  rewrite orb_true_r.
  destruct (is_nil (l_references e)); simpl.
  - rewrite Hget. destruct (decide (l_id e = l_id e)); [|congruence]. simpl.
    unfold l_invalidate. rewrite Hdoc, Hfw. simpl.
    destruct mgr; reflexivity.
  - destruct mgr; reflexivity.
Qed.

Lemma remove_resource_step r mgr e :
  od_get r (_resources mgr) = Some e -> r_spent e ->
  (mgr <- get ;; entry <- getitem (_resources mgr) r ;;
   __remove_resource_entry r entry true) mgr
  = (Ok tt,
     set_world (set_resource_files_cache [] (world mgr))
       (set_resources (od_pop r (_resources mgr)) mgr)).
Proof.
  intros Hget [Hdoc Hfw].
  unfold __remove_resource_entry, getitem. munfold. simpl. rewrite Hget. simpl.
  rewrite orb_true_r. simpl.
  rewrite Hget. destruct (decide (r_id e = r_id e)); [|congruence]. simpl.
  unfold r_invalidate. rewrite Hdoc, Hfw. simpl.
  destruct mgr; reflexivity.
Qed.

Lemma remove_variables_step v mgr e :
  od_get v (_variables mgr) = Some e -> v_spent e ->
  (mgr <- get ;; entry <- getitem (_variables mgr) v ;;
   __remove_variables_entry v entry true) mgr
  = (Ok tt,
     set_world (set_variables_files_cache [] (world mgr))
       (set_variables (if is_nil (v_references e)
                       then od_pop v (_variables mgr) else _variables mgr)
          mgr)).
Proof.
  intros Hget [Hdoc Hfw].
  unfold __remove_variables_entry, getitem. munfold. simpl. rewrite Hget.
  simpl. rewrite orb_true_r.
  destruct (is_nil (v_references e)); simpl.
  - rewrite Hget. destruct (decide (v_id e = v_id e)); [|congruence]. simpl.
    unfold v_invalidate. rewrite Hdoc, Hfw. simpl.
    destruct mgr; reflexivity.
  - destruct mgr; reflexivity.
Qed.

Lemma remove_libraries_loop keys mgr :
  NoDup keys ->
  (forall k, k ∈ keys ->
     exists e, od_get k (_libaries mgr) = Some e /\ l_spent e) ->
  exists mgr',
    forM_ (fun l => mgr <- get ;; entry <- getitem (_libaries mgr) l ;;
                    __remove_library_entry l entry true) keys mgr
    = (Ok tt, mgr')
    /\ announces Library [] mgr mgr'.
Proof.
  intros Hnd Hall.
  apply (forM_evicts Library _
           (fun ks m => NoDup ks
                        /\ forall k, k ∈ ks ->
                             exists e, od_get k (_libaries m) = Some e
                                       /\ l_spent e)); [|auto].
  clear. intros k ks mgr [Hnd Hall].
  apply NoDup_cons in Hnd as [Hnotin Hnd].
  destruct (Hall k ltac:(left)) as (e & Hget & Hspent).
  eexists. split; [apply (remove_library_step k mgr e Hget Hspent)|].
  split; [split; [exact Hnd|] |].
  - intros k' Hk'. destruct (Hall k' ltac:(right; exact Hk')) as (e' & Hg & Hs).
    exists e'. split; [|exact Hs].
    destruct mgr; simpl in *. destruct (is_nil (l_references e)); [|exact Hg].
    rewrite od_get_pop_ne; [exact Hg|]. intros ->. contradiction.
  - destruct mgr; simpl. split; [rewrite app_nil_r; reflexivity|].
    repeat split. destruct (is_nil (l_references e));
      [apply od_pop_sublist | reflexivity].
Qed.

Lemma remove_resources_loop keys mgr :
  NoDup keys ->
  (forall k, k ∈ keys ->
     exists e, od_get k (_resources mgr) = Some e /\ r_spent e) ->
  exists mgr',
    forM_ (fun r => mgr <- get ;; entry <- getitem (_resources mgr) r ;;
                    __remove_resource_entry r entry true) keys mgr
    = (Ok tt, mgr')
    /\ announces Resource [] mgr mgr'.
Proof.
  intros Hnd Hall.
  apply (forM_evicts Resource _
           (fun ks m => NoDup ks
                        /\ forall k, k ∈ ks ->
                             exists e, od_get k (_resources m) = Some e
                                       /\ r_spent e)); [|auto].
  clear. intros k ks mgr [Hnd Hall].
  apply NoDup_cons in Hnd as [Hnotin Hnd].
  destruct (Hall k ltac:(left)) as (e & Hget & Hspent).
  eexists. split; [apply (remove_resource_step k mgr e Hget Hspent)|].
  split; [split; [exact Hnd|] |].
  - intros k' Hk'. destruct (Hall k' ltac:(right; exact Hk')) as (e' & Hg & Hs).
    exists e'. split; [|exact Hs].
    destruct mgr; simpl in *.
    rewrite od_get_pop_ne; [exact Hg|]. intros ->. contradiction.
  - destruct mgr; simpl. split; [rewrite app_nil_r; reflexivity|].
    repeat split. apply od_pop_sublist.
Qed.

Lemma remove_variables_loop keys mgr :
  NoDup keys ->
  (forall k, k ∈ keys ->
     exists e, od_get k (_variables mgr) = Some e /\ v_spent e) ->
  exists mgr',
    forM_ (fun v => mgr <- get ;; entry <- getitem (_variables mgr) v ;;
                    __remove_variables_entry v entry true) keys mgr
    = (Ok tt, mgr')
    /\ announces Variables [] mgr mgr'.
Proof.
  intros Hnd Hall.
  apply (forM_evicts Variables _
           (fun ks m => NoDup ks
                        /\ forall k, k ∈ ks ->
                             exists e, od_get k (_variables m) = Some e
                                       /\ v_spent e)); [|auto].
  clear. intros k ks mgr [Hnd Hall].
  apply NoDup_cons in Hnd as [Hnotin Hnd].
  destruct (Hall k ltac:(left)) as (e & Hget & Hspent).
  eexists. split; [apply (remove_variables_step k mgr e Hget Hspent)|].
  split; [split; [exact Hnd|] |].
  - intros k' Hk'. destruct (Hall k' ltac:(right; exact Hk')) as (e' & Hg & Hs).
    exists e'. split; [|exact Hs].
    destruct mgr; simpl in *. destruct (is_nil (v_references e)); [|exact Hg].
    rewrite od_get_pop_ne; [exact Hg|]. intros ->. contradiction.
  - destruct mgr; simpl. split; [rewrite app_nil_r; reflexivity|].
    repeat split. destruct (is_nil (v_references e));
      [apply od_pop_sublist | reflexivity].
Qed.

(** ** The lists of changes *)

Lemma rmapM_pure {A B} (h : A -> B) (l : list A) :
  rmapM (fun x => Ok (h x)) l = Ok (map h l).
Proof. induction l as [|x l IH]; simpl; [|rewrite IH]; reflexivity. Qed.

Lemma rmapM_ok {A B} (G : A -> result (option B)) (l : list A) ys :
  rmapM G l = Ok ys ->
  ys = map (fun x => match G x with Ok y => y | Raise _ => None end) l
  /\ Forall (fun x => is_ok (G x) = true) l.
Proof.
  revert ys. induction l as [|x l IH]; intros ys; simpl.
  - intros [= <-]. auto.
  - destruct (G x) as [y|e] eqn:Hx; simpl; [|discriminate].
    destruct (rmapM G l) as [ys'|e]; simpl; [|discriminate].
    intros [= <-]. destruct (IH ys' eq_refl) as [-> Hall].
    split; [reflexivity|]. constructor; [rewrite Hx; reflexivity | exact Hall].
Qed.

Lemma omap_id_map {A B} (F : A -> option B) (l : list A) :
  omap (fun x => x) (map F l) = omap F l.
Proof.
  induction l as [|x l IH]; [reflexivity|].
  cbn [map omap list_omap]. destruct (F x); simpl; rewrite <- IH; reflexivity.
Qed.

Lemma deleted_keys_omap {K X} (F : K * X -> option (Changed K))
    (reg : list (K * X)) :
  (forall ke c, F ke = Some c -> c.1.1 = ke.1) ->
  sublist (deleted_keys (omap F reg)) (map fst reg)
  /\ forall k, k ∈ deleted_keys (omap F reg) ->
       exists e d, (k, e) ∈ reg /\ F (k, e) = Some (k, DELETED, d).
Proof.
  intros HF. induction reg as [|[k e] rest [IHs IHk]]; simpl.
  - split; [constructor|]. intros k Hk. apply elem_of_nil in Hk.
    contradiction.
  - destruct (F (k, e)) as [[[k' t] d]|] eqn:HFk; simpl.
    + pose proof (HF _ _ HFk) as Hk'. simpl in Hk'. subst k'.
      unfold deleted_keys in *. simpl.
      destruct (decide (t = DELETED)) as [->|Hne]; simpl.
      * split; [apply sublist_skip, IHs|].
        intros k0 Hk0. apply elem_of_cons in Hk0 as [-> | Hk0].
        -- exists e, d. split; [left | exact HFk].
        -- destruct (IHk k0 Hk0) as (e0 & d0 & Hin & HF0).
           exists e0, d0. split; [right; exact Hin | exact HF0].
      * split; [apply sublist_cons, IHs|].
        intros k0 Hk0. destruct (IHk k0 Hk0) as (e0 & d0 & Hin & HF0).
        exists e0, d0. split; [right; exact Hin | exact HF0].
    + split; [apply sublist_cons, IHs|].
      intros k0 Hk0. destruct (IHk k0 Hk0) as (e0 & d0 & Hin & HF0).
      exists e0, d0. split; [right; exact Hin | exact HF0].
Qed.

Lemma l_scanned_spent E changes e t d :
  l_change E changes e = Some (t, d) -> l_spent (l_scanned E changes e).
Proof. intros H. unfold l_scanned. rewrite H. split; reflexivity. Qed.

Lemma r_scanned_spent E changes e t :
  r_change E changes e = Some t -> r_spent (r_scanned E changes e).
Proof.
  intros H. unfold r_scanned, r_spent. rewrite H.
  assert (forall e1, r_document e1 = r_document e ->
            r_file_watchers e1 = r_file_watchers e ->
            let e2 := if is_none (r_document e1) && is_nil (r_file_watchers e1)
                      then e1 else r_set_doc None None [] e1 in
            r_document e2 = None /\ r_file_watchers e2 = []) as Hany.
  { intros e1 Hd Hf. rewrite Hd, Hf.
    destruct (r_document e) eqn:Hdoc; simpl; [auto|].
    destruct (r_file_watchers e) eqn:Hfw; simpl; [|auto].
    rewrite Hd, Hf. auto. }
  destruct (r_held E e) as [[d|]|ex]; apply Hany; reflexivity.
Qed.

Lemma v_scanned_spent E changes e t d :
  v_change E changes e = Ok (Some (t, d)) -> v_spent (v_scanned E changes e).
Proof. intros H. unfold v_scanned. rewrite H. split; reflexivity. Qed.

(** ** The three scans *)

Lemma scan_libraries_eq E changes mgr :
  exists tr,
    scan_libraries E changes mgr
    = (Ok (l_found E changes (_libaries mgr)),
       set_world (emits tr (world mgr))
         (set_libaries (map_values (l_scanned E changes) (_libaries mgr)) mgr))
    /\ forallb not_changed tr = true.
Proof.
  unfold scan_libraries.
  destruct (for_items_pure (l_scan_body E changes)
              (fun k e => Ok (match l_change E changes e with
                              | Some (t, d) => Some (k, t, Some d)
                              | None => None
                              end))
              (fun _ e => l_scanned E changes e) not_changed)
    with (reg := _libaries mgr) (w := world mgr)
    as ((tr & Hw & HP) & Hr & Hreg & _).
  - intros k e w. rewrite l_scan_body_eq. reflexivity.
  - intros k e w. rewrite l_scan_body_eq. reflexivity.
  - intros k e w. rewrite l_scan_body_eq. simpl.
    destruct (l_change E changes e).
    + rewrite remove_file_watchers_emits. eexists. split; [reflexivity|].
      induction (l_file_watchers e); simpl; auto.
    + exists []. rewrite emits_nil. auto.
  - exists tr. split; [|exact HP].
    destruct (for_items (l_scan_body E changes) (_libaries mgr) (world mgr))
      as [r [reg' w']]. simpl in *.
    rewrite (rmapM_pure (fun ke : _LibrariesEntryKey * _LibrariesEntry =>
               match l_change E changes ke.2 with
               | Some (t, d) => Some (ke.1, t, Some d)
               | None => None
               end)) in Hr.
    simpl in Hr. rewrite omap_id_map in Hr. subst r w'.
    rewrite (Hreg eq_refl). reflexivity.
Qed.

Lemma scan_resources_eq E changes mgr :
  exists tr reg',
    scan_resources E changes mgr
    = (r_found E changes (_resources mgr),
       set_world (emits tr (world mgr)) (set_resources reg' mgr))
    /\ forallb not_changed tr = true
    /\ (is_ok (r_found E changes (_resources mgr)) = true ->
        reg' = map_values (r_scanned E changes) (_resources mgr)).
Proof.
  unfold scan_resources.
  destruct (for_items_pure (r_scan_body E changes)
              (fun k e => held <~ r_held E e ;;
                          Ok (match r_change E changes e with
                              | Some t => Some (k, t, held)
                              | None => None
                              end))
              (fun _ e => match r_held E e with
                          | Ok _ => r_scanned E changes e
                          | Raise _ => e
                          end) not_changed)
    with (reg := _resources mgr) (w := world mgr)
    as ((tr & Hw & HP) & Hr & Hreg & _).
  - intros k e w. rewrite r_scan_body_eq. destruct (r_held E e); reflexivity.
  - intros k e w. rewrite r_scan_body_eq. destruct (r_held E e); reflexivity.
  - intros k e w. rewrite r_scan_body_eq.
    destruct (r_held E e); simpl.
    + destruct (r_change E changes e);
        [|exists []; rewrite emits_nil; auto].
      destruct (is_none (r_document e) && is_nil (r_file_watchers e));
        [exists []; rewrite emits_nil; auto|].
      rewrite remove_file_watchers_emits. eexists. split; [reflexivity|].
      induction (r_file_watchers e); simpl; auto.
    + exists []. rewrite emits_nil. auto.
  - destruct (for_items (r_scan_body E changes) (_resources mgr) (world mgr))
      as [r [reg' w']]. simpl in *.
    exists tr, reg'. subst w'. fold (r_found E changes (_resources mgr)) in Hr.
    subst r. split; [reflexivity|]. split; [exact HP|].
    intros Hok. rewrite (Hreg Hok). unfold map_values.
    unfold r_found in Hok.
    destruct (rmapM _ (_resources mgr)) as [found|ex] eqn:Hm;
      [|discriminate].
    apply rmapM_ok in Hm as [_ Hall].
    apply map_ext_Forall. eapply Forall_impl; [exact Hall|].
    intros [k e]. simpl. destruct (r_held E e); [reflexivity|discriminate].
Qed.

Lemma scan_variables_eq E changes mgr :
  exists tr reg',
    scan_variables E changes mgr
    = (v_found E changes (_variables mgr),
       set_world (emits tr (world mgr)) (set_variables reg' mgr))
    /\ forallb not_changed tr = true
    /\ (is_ok (v_found E changes (_variables mgr)) = true ->
        reg' = map_values (v_scanned E changes) (_variables mgr)).
Proof.
  unfold scan_variables.
  destruct (for_items_pure (v_scan_body E changes)
              (fun k e => c <~ v_change E changes e ;;
                          Ok (match c with
                              | Some (t, d) => Some (k, t, Some d)
                              | None => None
                              end))
              (fun _ e => v_scanned E changes e) not_changed)
    with (reg := _variables mgr) (w := world mgr)
    as ((tr & Hw & HP) & Hr & Hreg & _).
  - intros k e w. rewrite v_scan_body_eq.
    destruct (v_change E changes e); reflexivity.
  - intros k e w. rewrite v_scan_body_eq. unfold v_scanned.
    destruct (v_change E changes e) as [[c|]|ex]; reflexivity.
  - intros k e w. rewrite v_scan_body_eq.
    destruct (v_change E changes e) as [[c|]|ex]; simpl;
      try (exists []; rewrite emits_nil; auto; fail).
    rewrite remove_file_watchers_emits. eexists. split; [reflexivity|].
    induction (v_file_watchers e); simpl; auto.
  - destruct (for_items (v_scan_body E changes) (_variables mgr) (world mgr))
      as [r [reg' w']]. simpl in *.
    exists tr, reg'. subst w'. fold (v_found E changes (_variables mgr)) in Hr.
    subst r. split; [reflexivity|]. split; [exact HP|].
    intros Hok. rewrite (Hreg Hok). reflexivity.
Qed.

(** ** The announcements *)

Lemma announce_block {K} (kind : ImportKind)
    (step : K -> M ImportsManager unit) (found : list (Changed K)) mgr :
  (exists mgr', forM_ step (deleted_keys found) mgr = (Ok tt, mgr')
                /\ announces kind [] mgr mgr') ->
  exists mgr',
    (if is_nil found then ret tt
     else forM_ step (deleted_keys found) ;;;
          announce kind (changed_docs found)) mgr
    = (Ok tt, mgr')
    /\ announces kind (changed_event kind found) mgr mgr'.
Proof.
  intros (mgr1 & Hloop & Hann). unfold changed_event.
  destruct found as [|c found]; simpl.
  - exists mgr. split; [reflexivity | apply announces_nil].
  - exists (set_world (emit (EvChanged kind (changed_docs (c :: found)))
                         (world mgr1)) mgr1).
    split.
    + unfold bind at 1. simpl in Hloop. rewrite Hloop. reflexivity.
    + apply (announces_trans kind [] _ mgr mgr1 _ Hann).
      destruct mgr1. split; [reflexivity|].
      destruct kind; repeat split; reflexivity.
Qed.

Lemma spent_after_scan {K X} `{EqDecision K} (F : K * X -> option (Changed K))
    (g : X -> X) (spent : X -> Prop) (reg : list (K * X)) :
  NoDup (map fst reg) ->
  (forall ke c, F ke = Some c -> c.1.1 = ke.1) ->
  (forall ke c, F ke = Some c -> spent (g ke.2)) ->
  NoDup (deleted_keys (omap F reg))
  /\ forall k, k ∈ deleted_keys (omap F reg) ->
       exists e, od_get k (map_values g reg) = Some e /\ spent e.
Proof.
  intros Hnd Hkey Hspent.
  destruct (deleted_keys_omap F reg Hkey) as [Hsub Hin].
  split; [eapply sublist_NoDup; eassumption|].
  intros k Hk. destruct (Hin k Hk) as (e & d & He & HF).
  exists (g e). split; [apply od_get_map_values; assumption|].
  exact (Hspent (k, e) _ HF).
Qed.

Lemma announces_three evs1 evs2 evs3 m0 m1 m2 m3 :
  announces Library evs1 m0 m1 -> announces Resource evs2 m1 m2 ->
  announces Variables evs3 m2 m3 ->
  w_trace (world m3) = w_trace (world m0) ++ evs1 ++ evs2 ++ evs3
  /\ sublist (_libaries m3) (_libaries m0)
  /\ sublist (_resources m3) (_resources m0)
  /\ sublist (_variables m3) (_variables m0).
Proof.
  intros (Ht1 & Hl1 & Hr1 & Hv1) (Ht2 & Hl2 & Hr2 & Hv2)
         (Ht3 & Hl3 & Hr3 & Hv3).
  repeat split.
  - rewrite Ht3, Ht2, Ht1, <- !app_assoc. reflexivity.
  - rewrite Hl3, Hl2. exact Hl1.
  - rewrite Hr3, <- Hr1. exact Hr2.
  - rewrite <- Hv1, <- Hv2. exact Hv3.
Qed.

Lemma changed_event_is_changed {K} kind (found : list (Changed K)) :
  forallb is_changed_event (changed_event kind found) = true.
Proof. unfold changed_event. destruct found; reflexivity. Qed.

Lemma dispatcher_run (E : Env) (changes : list FileEvent)
    (mgr : ImportsManager) r mgr' :
  registries_ok mgr ->
  did_change_watched_files E changes mgr = (r, mgr') ->
  exists mid tr evs,
    w_trace (world mid) = w_trace (world mgr) ++ tr
    /\ forallb not_changed tr = true
    /\ _libaries mid = map_values (l_scanned E changes) (_libaries mgr)
    /\ (is_ok r = true ->
        _resources mid = map_values (r_scanned E changes) (_resources mgr)
        /\ _variables mid
           = map_values (v_scanned E changes) (_variables mgr))
    /\ w_trace (world mgr') = w_trace (world mid) ++ evs
    /\ forallb is_changed_event evs = true
    /\ sublist (_libaries mgr') (_libaries mid)
    /\ sublist (_resources mgr') (_resources mid)
    /\ sublist (_variables mgr') (_variables mid)
    /\ match r with
       | Ok _ =>
           exists rc vc,
             r_found E changes (_resources mgr) = Ok rc
             /\ v_found E changes (_variables mgr) = Ok vc
             /\ evs = changed_event Library
                        (l_found E changes (_libaries mgr))
                      ++ changed_event Resource rc
                      ++ changed_event Variables vc
       | Raise _ => evs = []
       end.
Proof.
  intros (Hndl & Hndr & Hndv) Hrun.
  destruct mgr as [w ls rs vs nid tm docs]. simpl in Hndl, Hndr, Hndv.
  unfold did_change_watched_files in Hrun. unfold bind at 1 in Hrun.
  destruct (scan_libraries_eq E changes
              (mkImportsManager w ls rs vs nid tm docs)) as (tr1 & H1 & HP1).
  rewrite H1 in Hrun. clear H1.
  unfold set_world, set_libaries, set_resources, set_variables in Hrun;
  cbn [world _libaries _resources _variables next_id
       _resource_document_changed_timer
       _resource_document_changed_documents] in Hrun.
  set (ls' := map_values (l_scanned E changes) ls).
  set (lc := l_found E changes ls).
  unfold bind at 1 in Hrun. unfold try_except in Hrun.
  destruct (scan_resources_eq E changes
              (mkImportsManager (emits tr1 w) ls' rs vs nid tm docs))
    as (tr2 & rs' & H2 & HP2 & Hrs').
  fold ls' in Hrun. rewrite H2 in Hrun. clear H2.
  unfold set_world, set_libaries, set_resources, set_variables in Hrun, Hrs';
  cbn [world _libaries _resources _variables next_id
       _resource_document_changed_timer
       _resource_document_changed_documents] in Hrun, Hrs'.
  destruct (r_found E changes rs) as [rc|ex] eqn:Hrc.
  2:{ (* the scan of the resources raised *)
      unfold bind, in_world, log_exception, log, modify, raise in Hrun.
      simpl in Hrun. injection Hrun as <- <-.
      exists (mkImportsManager
                (emit (EvLogException ex) (emits tr2 (emits tr1 w)))
                ls' rs' vs nid tm docs),
             (tr1 ++ tr2 ++ [EvLogException ex]), [].
      simpl.
      split; [rewrite <- !app_assoc; reflexivity|].
      split; [rewrite !forallb_app, HP1, HP2; reflexivity|].
      split; [reflexivity|]. split; [discriminate|].
      split; [rewrite app_nil_r; reflexivity|].
      repeat split; reflexivity. }
  specialize (Hrs' eq_refl). subst rs'.
  set (rs' := map_values (r_scanned E changes) rs).
  destruct (scan_variables_eq E changes
              (mkImportsManager (emits tr2 (emits tr1 w)) ls' rs' vs nid tm
                 docs))
    as (tr3 & vs' & H3 & HP3 & Hvs').
  unfold bind at 1 in Hrun. fold rs' in Hrun. rewrite H3 in Hrun. clear H3.
  unfold set_world, set_libaries, set_resources, set_variables in Hrun, Hvs';
  cbn [world _libaries _resources _variables next_id
       _resource_document_changed_timer
       _resource_document_changed_documents] in Hrun, Hvs'.
  destruct (v_found E changes vs) as [vc|ex] eqn:Hvc.
  2:{ injection Hrun as <- <-.
      exists (mkImportsManager (emits tr3 (emits tr2 (emits tr1 w)))
                ls' rs' vs' nid tm docs),
             (tr1 ++ tr2 ++ tr3), [].
      simpl.
      split; [rewrite <- !app_assoc; reflexivity|].
      split; [rewrite !forallb_app, HP1, HP2, HP3; reflexivity|].
      split; [reflexivity|]. split; [discriminate|].
      split; [rewrite app_nil_r; reflexivity|].
      repeat split; reflexivity. }
  specialize (Hvs' eq_refl). subst vs'.
  set (vs' := map_values (v_scanned E changes) vs).
  set (mid := mkImportsManager (emits tr3 (emits tr2 (emits tr1 w))) ls' rs'
                vs' nid tm docs).
  (* the announcements *)
  assert (exists m1,
            (if is_nil lc then ret tt
             else forM_ (fun l => mgr <- get ;;
                                  entry <- getitem (_libaries mgr) l ;;
                                  __remove_library_entry l entry true)
                    (deleted_keys lc) ;;;
                  announce Library (changed_docs lc)) mid = (Ok tt, m1)
            /\ announces Library (changed_event Library lc) mid m1)
    as (m1 & Hb1 & Ha1).
  { apply announce_block. apply remove_libraries_loop;
      apply (spent_after_scan
               (fun ke => match l_change E changes ke.2 with
                          | Some (t, d) => Some (ke.1, t, Some d)
                          | None => None
                          end)
               (l_scanned E changes) l_spent ls Hndl).
    - intros [k e] c. simpl. destruct (l_change E changes e) as [[t d]|];
        intros [= <-]; reflexivity.
    - intros [k e] c. simpl.
      destruct (l_change E changes e) as [[t d]|] eqn:Hc; [|discriminate].
      intros _. eapply l_scanned_spent, Hc.
    - intros [k e] c. simpl. destruct (l_change E changes e) as [[t d]|];
        intros [= <-]; reflexivity.
    - intros [k e] c. simpl.
      destruct (l_change E changes e) as [[t d]|] eqn:Hc; [|discriminate].
      intros _. eapply l_scanned_spent, Hc. }
  (* the list of the resources as a filter of the registry *)
  set (Fr := fun ke : _ResourcesEntryKey * _ResourcesEntry =>
               match (held <~ r_held E ke.2 ;;
                      Ok (match r_change E changes ke.2 with
                          | Some t => Some (ke.1, t, held)
                          | None => None
                          end)) with
               | Ok y => y
               | Raise _ => None
               end).
  assert (rc = omap Fr rs) as Hrc'.
  { unfold r_found in Hrc.
    destruct (rmapM _ rs) as [found|] eqn:Hm; [|discriminate].
    simpl in Hrc. injection Hrc as <-.
    apply rmapM_ok in Hm as [-> _]. apply omap_id_map. }
  set (Fv := fun ke : _VariablesEntryKey * _VariablesEntry =>
               match (c <~ v_change E changes ke.2 ;;
                      Ok (match c with
                          | Some (t, d) => Some (ke.1, t, Some d)
                          | None => None
                          end)) with
               | Ok y => y
               | Raise _ => None
               end).
  assert (vc = omap Fv vs) as Hvc'.
  { unfold v_found in Hvc.
    destruct (rmapM _ vs) as [found|] eqn:Hm; [|discriminate].
    simpl in Hvc. injection Hvc as <-.
    apply rmapM_ok in Hm as [-> _]. apply omap_id_map. }
  assert (forall ke c, Fr ke = Some c -> c.1.1 = ke.1) as HFr1.
  { intros [k e] c. unfold Fr. simpl.
    destruct (r_held E e); simpl; [|discriminate].
    destruct (r_change E changes e); intros [= <-]; reflexivity. }
  assert (forall ke c, Fr ke = Some c -> r_spent (r_scanned E changes ke.2))
    as HFr2.
  { intros [k e] c. unfold Fr. simpl.
    destruct (r_held E e); simpl; [|discriminate].
    destruct (r_change E changes e) eqn:Hc; [|discriminate].
    intros _. eapply r_scanned_spent, Hc. }
  assert (forall ke c, Fv ke = Some c -> c.1.1 = ke.1) as HFv1.
  { intros [k e] c. unfold Fv. simpl.
    destruct (v_change E changes e) as [[[t d]|]|]; simpl;
      intros [= <-]; reflexivity. }
  assert (forall ke c, Fv ke = Some c -> v_spent (v_scanned E changes ke.2))
    as HFv2.
  { intros [k e] c. unfold Fv. simpl.
    destruct (v_change E changes e) as [[[t d]|]|] eqn:Hc; simpl;
      try discriminate.
    intros _. eapply v_scanned_spent, Hc. }
  assert (NoDup (deleted_keys rc)
          /\ forall k, k ∈ deleted_keys rc ->
               exists e, od_get k rs' = Some e /\ r_spent e)
    as [Hnd_rc Hsp_rc].
  { rewrite Hrc'.
    exact (spent_after_scan Fr (r_scanned E changes) r_spent rs Hndr HFr1
             HFr2). }
  assert (NoDup (deleted_keys vc)
          /\ forall k, k ∈ deleted_keys vc ->
               exists e, od_get k vs' = Some e /\ v_spent e)
    as [Hnd_vc Hsp_vc].
  { rewrite Hvc'.
    exact (spent_after_scan Fv (v_scanned E changes) v_spent vs Hndv HFv1
             HFv2). }
  destruct Ha1 as (Ht1 & Hl1 & Hr1 & Hv1).
  assert (exists m2,
            (if is_nil rc then ret tt
             else forM_ (fun r => mgr <- get ;;
                                  entry <- getitem (_resources mgr) r ;;
                                  __remove_resource_entry r entry true)
                    (deleted_keys rc) ;;;
                  announce Resource (changed_docs rc)) m1 = (Ok tt, m2)
            /\ announces Resource (changed_event Resource rc) m1 m2)
    as (m2 & Hb2 & Ha2).
  { apply announce_block. apply remove_resources_loop; [exact Hnd_rc|].
    rewrite Hr1. exact Hsp_rc. }
  destruct Ha2 as (Ht2 & Hl2 & Hr2 & Hv2).
  assert (exists m3,
            (if is_nil vc then ret tt
             else forM_ (fun v => mgr <- get ;;
                                  entry <- getitem (_variables mgr) v ;;
                                  __remove_variables_entry v entry true)
                    (deleted_keys vc) ;;;
                  announce Variables (changed_docs vc)) m2 = (Ok tt, m3)
            /\ announces Variables (changed_event Variables vc) m2 m3)
    as (m3 & Hb3 & Ha3).
  { apply announce_block. apply remove_variables_loop; [exact Hnd_vc|].
    rewrite Hv2, Hv1. exact Hsp_vc. }
  fold vs' in Hrun. fold mid in Hrun.
  unfold lc in Hb1. unfold bind at 1 in Hrun. rewrite Hb1 in Hrun.
  unfold bind at 1 in Hrun. rewrite Hb2 in Hrun. rewrite Hb3 in Hrun.
  injection Hrun as <- <-.
  destruct (announces_three _ _ _ mid m1 m2 m3
              (conj Ht1 (conj Hl1 (conj Hr1 Hv1)))
              (conj Ht2 (conj Hl2 (conj Hr2 Hv2))) Ha3)
    as (Htr & Hsl & Hsr & Hsv).
  exists mid, (tr1 ++ tr2 ++ tr3),
    (changed_event Library lc ++ changed_event Resource rc
     ++ changed_event Variables vc).
  split; [simpl; rewrite <- !app_assoc; reflexivity|].
  split; [rewrite !forallb_app, HP1, HP2, HP3; reflexivity|].
  split; [reflexivity|]. split; [intros _; split; reflexivity|].
  split; [exact Htr|].
  split; [rewrite !forallb_app, !changed_event_is_changed; reflexivity|].
  split; [exact Hsl|]. split; [exact Hsr|]. split; [exact Hsv|].
  exists rc, vc. auto.
Qed.

(** ** C8: invalidation comes before the events *)




(** ** C3: entries of deleted files *)

Lemma remove_library_entry_keeps_referenced key entry now mgr :
  l_references entry <> [] ->
  _libaries (__remove_library_entry key entry now mgr).2 = _libaries mgr.
Proof.
  intros Hrefs. unfold __remove_library_entry. munfold.
  destruct (l_references entry) as [|s refs]; [congruence|]. simpl.
  destruct now; destruct mgr; reflexivity.
Qed.

Lemma remove_variables_entry_keeps_referenced key entry now mgr :
  v_references entry <> [] ->
  _variables (__remove_variables_entry key entry now mgr).2 = _variables mgr.
Proof.
  intros Hrefs. unfold __remove_variables_entry. munfold.
  destruct (v_references entry) as [|s refs]; [congruence|]. simpl.
  destruct now; destruct mgr; reflexivity.
Qed.

Lemma remove_resource_entry_forced key entry mgr :
  od_get key (_resources mgr) = Some entry ->
  _resources (__remove_resource_entry key entry true mgr).2
  = od_pop key (_resources mgr).
Proof.
  intros Hget. unfold __remove_resource_entry. munfold. simpl.
  rewrite orb_true_r. simpl. rewrite Hget.
  destruct (decide (r_id entry = r_id entry)); [|congruence]. simpl.
  destruct (r_invalidate (entry, world mgr)) as [? [? ?]].
  destruct mgr; reflexivity.
Qed.

(** C3.  The library entry of [My.py] is held by one sentinel when the
    file is reported as deleted: the dispatcher invalidates the entry
    and announces its Doc, but the entry is still in the registry
    afterwards.  So is the variables entry of [vars.py], held by one
    sentinel.  The resource entry of [a.resource], held by two
    sentinels, is evicted by the same kind of event. *)
Theorem deleted_library_entry_with_references_stays :
  let deleted := [mkFileEvent "file:///w/My.py" DELETED] in
  let after := (did_change_watched_files calm deleted demo_manager).2 in
  let deleted' := [mkFileEvent "file:///w/a.resource" DELETED] in
  let after' := (did_change_watched_files calm deleted' demo_manager).2 in
  let deleted'' := [mkFileEvent "file:///w/vars.py" DELETED] in
  let after'' := (did_change_watched_files calm deleted'' demo_manager).2 in
  l_references loaded_library_entry = [7%nat]
  /\ l_change calm deleted loaded_library_entry = Some (DELETED, demo_doc)
  /\ od_get demo_library_key (_libaries after)
     = Some (l_set_doc None [] loaded_library_entry)
  /\ w_trace (world after)
     = [EvRemoveFileWatcher ["/w/**"]; EvChanged Library [demo_doc]]
  /\ r_references loaded_resource_entry = [8%nat; 9%nat]
  /\ r_change calm deleted' loaded_resource_entry = Some DELETED
  /\ od_get demo_resource_key (_resources after') = None
  /\ v_references loaded_variables_entry = [10%nat]
  /\ v_change calm deleted'' loaded_variables_entry
     = Ok (Some (DELETED, demo_vars_doc))
  /\ od_get demo_variables_key (_variables after'')
     = Some (v_set_doc None [] loaded_variables_entry).
Proof. repeat split; reflexivity. Qed.

(** ** C9: debounce of open-document edits *)


Lemma r_changed_body_eq E document k e w :
  r_changed_body E document k (e, w)
  = (r_reconciled E document e,
     (r_after_edit E document e,
      if r_edited document e then
        match r_held E e with
        | Ok (Some _) => remove_file_watchers (r_file_watchers e) w
        | _ => w
        end
      else w)).
Proof.
  unfold r_changed_body, r_reconciled, r_after_edit, r_edited, r_is_valid,
    r_get_document, r__get_document.
  destruct (r_document e) as [doc|] eqn:Hdoc.
  - unfold try_except, bind at 1, gets at 1. simpl. rewrite Hdoc. simpl.
    unfold bind at 1. unfold bind at 1, gets at 1. cbn [fst]. rewrite Hdoc.
    simpl. unfold bind at 1, ret at 1. unfold bind at 1, gets at 1.
    cbn [fst]. rewrite Hdoc. unfold ret at 1.
    destruct (bool_decide (document_uri doc = document_uri document));
      [|reflexivity].
    unfold bind at 1. rewrite (r_get_libdoc_valid E e w doc Hdoc).
    pose proof (eq_refl (r_held E e)) as Hheld. unfold r_held at 2 in Hheld.
    rewrite Hdoc in Hheld.
    destruct (r_held E e) as [[d|]|ex] eqn:Hh.
    + unfold bind, r_invalidate, ret. simpl.
      destruct e; simpl in *. subst. reflexivity.
    + exfalso. destruct (r_lib_doc e); [discriminate|].
      destruct (resource_library_doc E doc); discriminate.
    + destruct (is_exit ex); reflexivity.
  - unfold try_except, bind, gets, ret. simpl. rewrite Hdoc. reflexivity.
Qed.

Lemma reconcile_run E document mgr :
  exists pre,
    forallb not_changed pre = true
    /\ match rmapM (fun ke => r_reconciled E document ke.2) (_resources mgr)
       with
       | Ok found =>
           __resource_document_changed E document mgr
           = (Ok tt,
              set_world
                (emits (pre ++ resources_changed_event
                                 (omap (fun x => x) found))
                   (world mgr))
                (set_resources
                   (map_values (r_after_edit E document) (_resources mgr))
                   mgr))
       | Raise ex =>
           exists reg,
             __resource_document_changed E document mgr
             = (Raise ex,
                set_world (emits pre (world mgr)) (set_resources reg mgr))
       end.
Proof.
  assert (H1 : forall k e w,
             (r_changed_body E document k (e, w)).1 = r_reconciled E document e)
    by (intros; rewrite r_changed_body_eq; reflexivity).
  assert (H2 : forall k e w,
             (r_changed_body E document k (e, w)).2.1
             = r_after_edit E document e)
    by (intros; rewrite r_changed_body_eq; reflexivity).
  assert (H3 : forall k e w,
             exists tr, (r_changed_body E document k (e, w)).2.2 = emits tr w
                        /\ forallb not_changed tr = true).
  { intros k e w. rewrite r_changed_body_eq. cbn [fst snd].
    destruct (r_edited document e);
      [|exists []; rewrite emits_nil; auto].
    destruct (r_held E e) as [[d|]|ex];
      try solve [exists []; rewrite emits_nil; auto].
    exists (map EvRemoveFileWatcher (r_file_watchers e)).
    split; [apply remove_file_watchers_emits|].
    induction (r_file_watchers e); simpl; auto. }
  destruct (for_items_pure (r_changed_body E document)
              (fun _ e => r_reconciled E document e)
              (fun _ e => r_after_edit E document e)
              not_changed H1 H2 H3 (_resources mgr) (world mgr))
    as ((pre & Hw & Hpre) & Hres & Hreg & _).
  exists pre. split; [exact Hpre|].
  assert (Hrun : __resource_document_changed E document mgr
                 = let run := for_items (r_changed_body E document)
                                (_resources mgr) (world mgr) in
                   match run.1 with
                   | Ok rc =>
                       (if is_nil rc then ret tt else announce Resource rc)
                         (set_world run.2.2 (set_resources run.2.1 mgr))
                   | Raise ex =>
                       (Raise ex,
                        set_world run.2.2 (set_resources run.2.1 mgr))
                   end).
  { unfold __resource_document_changed, bind.
    destruct (for_items (r_changed_body E document) (_resources mgr)
                (world mgr)) as [[rc|ex] [reg w]]; reflexivity. }
  rewrite Hrun. clear Hrun. cbv zeta.
  destruct (for_items (r_changed_body E document) (_resources mgr)
              (world mgr)) as [r [reg w]].
  cbn [fst snd] in *. subst w. rewrite Hres.
  destruct (rmapM (fun ke => r_reconciled E document ke.2) (_resources mgr))
    as [found|ex]; simpl.
  - rewrite Hres in Hreg. rewrite (Hreg eq_refl).
    unfold resources_changed_event, map_values.
    destruct (omap (fun x => x) found) as [|d docs]; simpl.
    + rewrite app_nil_r. reflexivity.
    + unfold announce, in_world, log, modify. simpl.
      unfold set_world, set_resources. simpl.
      rewrite emit_as_emits, emits_emits. reflexivity.
  - exists reg. reflexivity.
Qed.




Lemma reconcile_keeps_timer E document mgr :
  let out := __resource_document_changed E document mgr in
  _resource_document_changed_timer out.2
  = _resource_document_changed_timer mgr
  /\ _resource_document_changed_documents out.2
     = _resource_document_changed_documents mgr.
Proof.
  intros out. subst out.
  destruct (reconcile_run E document mgr) as (pre & _ & Hcase).
  destruct (rmapM _ (_resources mgr)) as [found|ex].
  - rewrite Hcase. destruct mgr; auto.
  - destruct Hcase as (reg & ->). destruct mgr; auto.
Qed.

Lemma reconcile_all_keeps_timer E documents mgr :
  let out := forM_ (__resource_document_changed E) documents mgr in
  _resource_document_changed_timer out.2
  = _resource_document_changed_timer mgr
  /\ _resource_document_changed_documents out.2
     = _resource_document_changed_documents mgr.
Proof.
  revert mgr. induction documents as [|d ds IH]; intros mgr; simpl; [auto|].
  unfold bind.
  destruct (reconcile_keeps_timer E d mgr) as [Ht Hd].
  destruct (__resource_document_changed E d mgr) as [[[]|ex] mgr1];
    simpl in *; [|auto].
  destruct (IH mgr1) as [Ht' Hd']. split; congruence.
Qed.













(** A burst on the document of a loaded resource entry while another
    document is pending: the other document is reconciled first, with
    no event; then one event, with the doc the entry held. *)
Example burst_while_another_document_is_pending :
  let busy :=
    set_timer (Some 1%nat) [mkTextDocument "file:///w/b.resource" None]
      demo_manager in
  let outcome := (burst 3 demo_document ;;; timer_expired calm) busy in
  outcome.1 = Ok tt
  /\ w_trace (world outcome.2)
     = [EvTimerCancel; EvTimerStart 1; EvChanged Resource [demo_resource_doc]]
  /\ od_get demo_resource_key (_resources outcome.2)
     = Some (r_set_doc None None [] loaded_resource_entry).
Proof. repeat split; reflexivity. Qed.

(** A burst on the document of a loaded resource entry: one event, with
    the doc the entry held, and the entry is invalid afterwards. *)
Example burst_on_loaded_resource :
  let outcome := (burst 3 demo_document ;;; timer_expired calm) demo_manager in
  outcome.1 = Ok tt
  /\ w_trace (world outcome.2)
     = [EvTimerStart 1; EvChanged Resource [demo_resource_doc]]
  /\ od_get demo_resource_key (_resources outcome.2)
     = Some (r_set_doc None None [] loaded_resource_entry).
Proof. repeat split; reflexivity. Qed.


(** ** C10: the memo key of [find_variables] *)

Lemma lru_find_put {K} `{EqDecision K} (key : K) v (c : SimpleLRUCache K) :
  lru_find key (lru_put key v c) = Some v.
Proof.
  unfold lru_put, max_items. simpl.
  destruct (decide (key = key)); [reflexivity | congruence].
Qed.




(** The fourth positional argument of the cache call is bound to the
    parameter [resolve_variables] of [__find_variables]: the computation
    that is memoized resolves variables when [resolve_command_line_vars]
    is set, whatever [resolve_variables] says. *)
Example find_variables_positional_flag :
  (find_variables templating "${DIR}/vars.py" "/w" None true false
     empty_world).1 = Ok "/w/${DIR}/vars.py"
  /\ (find_variables templating "${DIR}/vars.py" "/w" None false true
        empty_world).1 = Ok "/w/res/vars.py".
Proof. split; reflexivity. Qed.

(** ** Fingerprints record the state of the origin *)

Lemma identify_origin (E : Env) (bp : bool) (nm : string)
    (r : LibraryMetaData) :
  identify E bp nm = Ok (Some r) ->
  meta_version r = __version__ E
  /\ by_path r = bp
  /\ (bp = true -> origin r = Some nm)
  /\ mtimes r = None
  /\ exists o, origin r = Some o.
Proof.
  unfold identify. destruct bp.
  - destruct (path_exists E nm); intros [= <-]. simpl. eauto 10.
  - destruct (get_module_spec E nm) as [[ms|]|e]; simpl; try discriminate.
    destruct (ms_origin ms) as [o|]; intros [= <-]. simpl.
    repeat split; eauto. discriminate.
Qed.

Lemma dict_update_lookup (E : Env) (d : gmap string Z)
    (kvs : list (string * Z)) o t :
  Forall (fun kv => stat_mtime_ns E kv.1 = Ok kv.2) kvs ->
  stat_mtime_ns E o = Ok t ->
  d !! o = Some t ->
  dict_update d kvs !! o = Some t.
Proof.
  unfold dict_update. revert d.
  induction kvs as [|[k v] kvs IH]; intros d Hall Ho Hd; [exact Hd|].
  simpl. inversion Hall as [|? ? Hkv Hrest]; subst. apply IH; auto.
  simpl in Hkv. destruct (decide (k = o)) as [->|Hne].
  - rewrite lookup_insert_eq. congruence.
  - rewrite lookup_insert_ne by exact Hne. exact Hd.
Qed.

Lemma rmapM_Forall {A B} (f : A -> result B) (P : B -> Prop) l ys :
  (forall x y, f x = Ok y -> P y) ->
  rmapM f l = Ok ys -> Forall P ys.
Proof.
  intros Hf. revert ys. induction l as [|x l IH]; intros ys; simpl.
  - intros [= <-]. constructor.
  - destruct (f x) as [y|e] eqn:Hx; simpl; [|discriminate].
    destruct (rmapM f l) as [ys'|e]; simpl; [|discriminate].
    intros [= <-]. constructor; eauto.
Qed.

Lemma submodule_mtimes_stat (E : Env) locs kvs :
  submodule_mtimes E locs = Ok kvs ->
  Forall (fun kv => stat_mtime_ns E kv.1 = Ok kv.2) kvs.
Proof.
  unfold submodule_mtimes.
  destruct (rmapM _ locs) as [kvss|e] eqn:Hlocs; simpl; [|discriminate].
  intros [= <-]. apply Forall_concat.
  eapply rmapM_Forall; [|exact Hlocs].
  intros loc kvs. simpl.
  destruct (iter_files E loc) as [files|e]; simpl; [|discriminate].
  apply rmapM_Forall. intros f [k v].
  destruct (stat_mtime_ns E f) as [t|e] eqn:Hf; simpl; [|discriminate].
  intros [= <- <-]. exact Hf.
Qed.

Lemma fingerprint_origin (E : Env) patterns nm r m src :
  mtimes r = None ->
  fingerprint E patterns nm (Some r) = Ok (Some m, src) ->
  meta_version m = meta_version r
  /\ origin m = origin r
  /\ by_path m = by_path r
  /\ forall o, origin r = Some o ->
       exists t mt, stat_mtime_ns E o = Ok t
                    /\ mtimes m = Some mt /\ mt !! o = Some t.
Proof.
  intros Hmt. unfold fingerprint.
  destruct (ignored E patterns r); [discriminate|].
  destruct (origin r) as [o|] eqn:Ho.
  - destruct (stat_mtime_ns E o) as [t|e] eqn:Hstat; simpl; [|discriminate].
    destruct (nonempty (submodule_search_locations r)).
    + destruct (submodule_mtimes E _) as [kvs|e] eqn:Hsub; simpl;
        [|discriminate].
      intros [= <- <-]. simpl. repeat split; auto.
      intros o' [= <-]. exists t. eexists. repeat split; eauto.
      eapply dict_update_lookup; eauto using submodule_mtimes_stat.
      apply lookup_singleton_eq.
    + simpl. intros [= <- <-]. simpl. repeat split; auto.
      intros o' [= <-]. exists t. eexists. repeat split; eauto.
      apply lookup_singleton_eq.
  - simpl. destruct (nonempty (submodule_search_locations r)).
    + destruct (submodule_mtimes E _) as [kvs|e]; simpl; [|discriminate].
      intros [= <- <-]. simpl. repeat split; auto. discriminate.
    + simpl. intros [= <- <-]. repeat split; auto. discriminate.
Qed.

Lemma identified_meta (E : Env) patterns bp nm r0 m src :
  identify E bp nm = Ok r0 ->
  fingerprint E patterns nm r0 = Ok (Some m, src) ->
  src = nm
  /\ meta_version m = __version__ E
  /\ base_known (pathlib E) m
  /\ (by_path m = true -> origin m = Some nm)
  /\ exists o t mt,
       origin m = Some o /\ stat_mtime_ns E o = Ok t
       /\ mtimes m = Some mt /\ mt !! o = Some t.
Proof.
  intros Hid Hfp.
  destruct r0 as [r|]; [|discriminate].
  destruct (identify_origin E bp nm r Hid) as (Hv & Hbp & Hpath & Hmt & o & Ho).
  destruct (fingerprint_origin E patterns nm r m src Hmt Hfp)
    as (Hv' & Ho' & Hbp' & Hstat).
  destruct (fingerprint_has_base E patterns nm (Some r) m src) as [Hbase ->];
    [|exact Hfp|].
  { intros r' [= <-]. eapply identify_has_base, Hid. }
  split; [reflexivity|]. split; [congruence|]. split; [exact Hbase|]. split.
  - intros Hb. rewrite Ho'. apply Hpath. congruence.
  - destruct (Hstat o Ho) as (t & mt & H1 & H2 & H3).
    exists o, t, mt. rewrite Ho'. auto.
Qed.

Lemma get_library_meta_some E n b v w m src w1 :
  get_library_meta E n b v w = (Ok (Some m, src), w1) ->
  exists r0,
    identify E (is_library_by_path E src) src = Ok r0
    /\ fingerprint E (ignored_libraries_patters E) src r0 = Ok (Some m, src).
Proof.
  unfold get_library_meta.
  destruct (find_library E n b v w) as [[nm|e] w0]; simpl.
  - destruct (identify E (is_library_by_path E nm) nm) as [r0|e] eqn:Hid;
      simpl.
    + destruct (fingerprint E _ nm r0) as [[om s]|e] eqn:Hfp.
      * intros [= -> -> ->]. exists r0.
        destruct r0 as [r|]; [|discriminate].
        destruct (fingerprint_has_base E (ignored_libraries_patters E) nm
                    (Some r) m src) as [_ ->]; [|exact Hfp|auto].
        intros r' [= <-]. eapply identify_has_base, Hid.
      * destruct (is_exit e); nope.
    + destruct (is_exit e); nope.
  - destruct (is_exit e); nope.
Qed.

Lemma get_variables_meta_some E n b v rv rc w m src w1 :
  get_variables_meta E n b v rv rc w = (Ok (Some m, src), w1) ->
  exists r0,
    identify E (is_variables_by_path E src) src = Ok r0
    /\ fingerprint E (ignored_variables_patters E) src r0 = Ok (Some m, src).
Proof.
  unfold get_variables_meta.
  destruct (find_variables E n b v rv rc w) as [[nm|e] w0]; simpl.
  - destruct (identify E (is_variables_by_path E nm) nm) as [r0|e] eqn:Hid;
      simpl.
    + destruct (fingerprint E _ nm r0) as [[om s]|e] eqn:Hfp.
      * intros [= -> -> ->]. exists r0.
        destruct r0 as [r|]; [|discriminate].
        destruct (fingerprint_has_base E (ignored_variables_patters E) nm
                    (Some r) m src) as [_ ->]; [|exact Hfp|auto].
        intros r' [= <-]. eapply identify_has_base, Hid.
      * destruct (is_exit e); nope.
    + destruct (is_exit e); nope.
  - destruct (is_exit e); nope.
Qed.

(** X1.  A meta returned by [get_library_meta] or [get_variables_meta]
    is complete: it carries the version of the package, it has an
    origin, its [mtimes] hold for the origin the time [stat] gives for
    it, by-path metas have the resolved name as origin, and
    [filepath_base] succeeds on it, unless it is a by-path meta whose
    origin has a parent path that is not UTF-8: then [filepath_base]
    raises UnicodeEncodeError. *)
Theorem meta_records_origin (E : Env) :
  (forall n b v w m src w1,
     get_library_meta E n b v w = (Ok (Some m, src), w1) ->
     meta_version m = __version__ E
     /\ base_known (pathlib E) m
     /\ (by_path m = true -> origin m = Some src)
     /\ exists o t mt,
          origin m = Some o /\ stat_mtime_ns E o = Ok t
          /\ mtimes m = Some mt /\ mt !! o = Some t)
  /\ (forall n b v rv rc w m src w1,
        get_variables_meta E n b v rv rc w = (Ok (Some m, src), w1) ->
        meta_version m = __version__ E
        /\ base_known (pathlib E) m
        /\ (by_path m = true -> origin m = Some src)
        /\ exists o t mt,
             origin m = Some o /\ stat_mtime_ns E o = Ok t
             /\ mtimes m = Some mt /\ mt !! o = Some t).
Proof.
  split.
  - intros n b v w m src w1 Hmeta.
    destruct (get_library_meta_some E n b v w m src w1 Hmeta)
      as (r0 & Hid & Hfp).
    destruct (identified_meta E _ _ src r0 m src Hid Hfp) as (_ & H).
    exact H.
  - intros n b v rv rc w m src w1 Hmeta.
    destruct (get_variables_meta_some E n b v rv rc w m src w1 Hmeta)
      as (r0 & Hid & Hfp).
    destruct (identified_meta E _ _ src r0 m src Hid Hfp) as (_ & H).
    exact H.
Qed.

Lemma meta_records_origin_witness :
  meta_version demo_meta = "0.1"
  /\ base_known posix demo_meta
  /\ (by_path demo_meta = true -> origin demo_meta = Some "/w/My.py")
  /\ exists o t mt,
       origin demo_meta = Some o /\ demo_clock o = Ok t
       /\ mtimes demo_meta = Some mt /\ mt !! o = Some t.
Proof.
  exact (proj1 (meta_records_origin calm) "My.py" "/w" None empty_world
           demo_meta "/w/My.py"
           (get_library_meta calm "My.py" "/w" None empty_world).2 eq_refl).
Defined.

(** X2.  Two fingerprints of a library whose origin [stat] dates
    differently are different metas: the pair stored for the one is not
    the pair of the other. *)
Theorem touched_origin_changes_meta (E E' : Env) n b v w w' m m' src src'
    w1 w1' :
  get_library_meta E n b v w = (Ok (Some m, src), w1) ->
  get_library_meta E' n b v w' = (Ok (Some m', src'), w1') ->
  (forall o, origin m = Some o -> stat_mtime_ns E' o <> stat_mtime_ns E o) ->
  m <> m'.
Proof.
  intros Hm Hm' Htouched Heq. subst m'.
  destruct (get_library_meta_some E n b v w m src w1 Hm) as (r0 & Hid & Hfp).
  destruct (identified_meta E _ _ src r0 m src Hid Hfp)
    as (_ & _ & _ & _ & o & t & mt & Ho & Hstat & Hmt & Hlook).
  destruct (get_library_meta_some E' n b v w' m src' w1' Hm')
    as (r0' & Hid' & Hfp').
  destruct (identified_meta E' _ _ src' r0' m src' Hid' Hfp')
    as (_ & _ & _ & _ & o' & t' & mt' & Ho' & Hstat' & Hmt' & Hlook').
  assert (o' = o) by congruence. subst o'.
  assert (mt' = mt) by congruence. subst mt'.
  apply (Htouched o Ho). congruence.
Qed.

Lemma touched_origin_changes_meta_witness : demo_meta_at 100 <> demo_meta_at 99.
Proof.
  apply (touched_origin_changes_meta calm
           (demo_env no_fault no_fault (fun _ => Ok 99%Z)
              (fun _ => Ok demo_doc))
           "My.py" "/w" None empty_world empty_world
           (demo_meta_at 100) (demo_meta_at 99) "/w/My.py" "/w/My.py"
           (get_library_meta calm "My.py" "/w" None empty_world).2
           (get_library_meta calm "My.py" "/w" None empty_world).2);
    [reflexivity | reflexivity |].
  intros o [= <-]. discriminate.
Defined.

(** ** Entries: invalidation, loading, matching *)

Lemma l_get_libdoc_holds E e w d s :
  l_get_libdoc E (e, w) = (Ok d, s) -> l_lib_doc s.1 = Some d.
Proof.
  destruct (l_lib_doc e) as [d0|] eqn:Hd.
  - rewrite (l_get_libdoc_valid E e w d0 Hd). intros [= <- <-]. exact Hd.
  - rewrite (l_get_libdoc_invalid E e w Hd).
    destruct (library_get_libdoc E _ _ _ _ _ w) as [[d1|ex] w']; [|discriminate].
    intros [= <- <-]. reflexivity.
Qed.

Lemma v_get_libdoc_holds E e w d s :
  v_get_libdoc E (e, w) = (Ok d, s) -> v_lib_doc s.1 = Some d.
Proof.
  destruct (v_lib_doc e) as [d0|] eqn:Hd.
  - rewrite (v_get_libdoc_valid E e w d0 Hd). intros [= <- <-]. exact Hd.
  - rewrite (v_get_libdoc_invalid E e w Hd).
    destruct (variables_get_libdoc E _ _ _ _ _ _ w) as [[d1|ex] w'];
      [|discriminate].
    intros [= <- <-]. reflexivity.
Qed.

Lemma r_get_libdoc_holds E e w d s :
  r_get_libdoc E (e, w) = (Ok d, s) -> r_lib_doc s.1 = Some d.
Proof.
  destruct (r_document e) as [doc|] eqn:Hdoc.
  - rewrite (r_get_libdoc_valid E e w doc Hdoc).
    destruct (r_held E e) as [[d1|]|ex]; try discriminate.
    intros [= <- <-]. reflexivity.
  - unfold r_get_libdoc, r__get_document, r_update. munfold. simpl.
    destruct (r_lib_doc e) as [d0|] eqn:Hd.
    + intros [= <- <-]. exact Hd.
    + cbn [fst snd]. rewrite Hdoc. simpl.
      destruct (_get_document E (r_source e)) as [doc|ex]; simpl; [|nope].
      destruct (_version doc); simpl;
        (destruct (resource_library_doc E doc) as [d1|ex]; simpl; [|nope]);
        intros [= <- <-]; reflexivity.
Qed.

(** X4.  An entry keeps the doc it has loaded: after a successful
    [get_libdoc] the entry holds the doc, and a second [get_libdoc]
    returns the same doc and changes nothing, neither in the entry nor
    in the world. *)
Theorem get_libdoc_is_kept_by_the_entry (E : Env) :
  (forall e w d s,
     l_get_libdoc E (e, w) = (Ok d, s) ->
     l_is_valid s.1 = true /\ l_get_libdoc E s = (Ok d, s))
  /\ (forall e w d s,
        r_get_libdoc E (e, w) = (Ok d, s) ->
        r_lib_doc s.1 = Some d /\ r_get_libdoc E s = (Ok d, s))
  /\ (forall e w d s,
        v_get_libdoc E (e, w) = (Ok d, s) ->
        v_is_valid s.1 = true /\ v_get_libdoc E s = (Ok d, s)).
Proof.
  split; [|split]; intros e w d [e' w'] Hget.
  - pose proof (l_get_libdoc_holds E e w d _ Hget) as Hd. simpl in Hd.
    split; [unfold l_is_valid; simpl; rewrite Hd; reflexivity|].
    apply l_get_libdoc_valid, Hd.
  - pose proof (r_get_libdoc_holds E e w d _ Hget) as Hd. simpl in Hd.
    split; [exact Hd|].
    unfold r_get_libdoc. munfold. simpl. rewrite Hd. reflexivity.
  - pose proof (v_get_libdoc_holds E e w d _ Hget) as Hd. simpl in Hd.
    split; [unfold v_is_valid; simpl; rewrite Hd; reflexivity|].
    apply v_get_libdoc_valid, Hd.
Qed.

Lemma get_libdoc_is_kept_by_the_entry_witness :
  let first := l_get_libdoc calm (demo_library_entry, cached_world) in
  l_is_valid first.2.1 = true
  /\ l_get_libdoc calm first.2 = (Ok demo_doc, first.2).
Proof.
  intros first.
  exact (proj1 (get_libdoc_is_kept_by_the_entry calm) demo_library_entry
           cached_world demo_doc first.2 eq_refl).
Defined.

Lemma add_file_watchers_emits globs w :
  fold_left (fun w g => add_file_watchers g w) globs w
  = emits (map EvAddFileWatchers globs) w.
Proof.
  revert w. induction globs as [|g globs IH]; intros w; simpl.
  - symmetry. apply emits_nil.
  - rewrite IH. unfold add_file_watchers.
    rewrite emit_as_emits, emits_emits. reflexivity.
Qed.

(** X5.  Loading and invalidating balance: when an entry without doc
    and without file watchers loads its doc, the file watchers it then
    holds are the ones it registered after the build, and [invalidate]
    removes exactly these and gives the initial entry back. *)
Theorem load_then_invalidate_restores_entry (E : Env) :
  (forall e w d e' w',
     l_lib_doc e = None -> l_file_watchers e = [] ->
     l_get_libdoc E (e, w) = (Ok d, (e', w')) ->
     exists wb,
       library_get_libdoc E (l_variables e) (l_name e) (l_args e)
         (l_working_dir e) (l_base_dir e) w = (Ok d, wb)
       /\ l_file_watchers e' = l_watch_globs E d
       /\ w' = emits (map EvAddFileWatchers (l_file_watchers e')) wb
       /\ l_invalidate (e', w')
          = (Ok tt,
             (e, emits (map EvRemoveFileWatcher (l_file_watchers e')) w')))
  /\ (forall e w d e' w',
        v_lib_doc e = None -> v_file_watchers e = [] ->
        v_get_libdoc E (e, w) = (Ok d, (e', w')) ->
        exists wb,
          variables_get_libdoc E (v_variables e)
            (v_resolve_command_line_vars e) (v_name e) (v_args e)
            (v_working_dir e) (v_base_dir e) w = (Ok d, wb)
          /\ v_file_watchers e' = [[default "None" (ld_source d)]]
          /\ w' = emits (map EvAddFileWatchers (v_file_watchers e')) wb
          /\ v_invalidate (e', w')
             = (Ok tt,
                (e, emits (map EvRemoveFileWatcher (v_file_watchers e')) w'))).
Proof.
  split; intros e w d e' w' Hnone Hfws.
  - rewrite (l_get_libdoc_invalid E e w Hnone).
    destruct (library_get_libdoc E _ _ _ _ _ w) as [[d1|ex] wb]; [|nope].
    intros [= <- <- <-]. exists wb. rewrite Hfws. simpl.
    split; [reflexivity|]. split; [reflexivity|].
    split; [apply add_file_watchers_emits|].
    unfold l_invalidate. simpl. rewrite remove_file_watchers_emits.
    destruct e; simpl in *. subst. reflexivity.
  - rewrite (v_get_libdoc_invalid E e w Hnone).
    destruct (variables_get_libdoc E _ _ _ _ _ _ w) as [[d1|ex] wb]; [|nope].
    intros [= <- <- <-]. exists wb. rewrite Hfws. simpl.
    split; [reflexivity|]. split; [reflexivity|].
    split; [reflexivity|].
    unfold v_invalidate. simpl.
    destruct e; simpl in *. subst. reflexivity.
Qed.

Lemma load_then_invalidate_restores_entry_witness :
  let loaded := l_get_libdoc calm (demo_library_entry, cached_world) in
  l_file_watchers loaded.2.1 = [["/w/**"]]
  /\ l_invalidate loaded.2
     = (Ok tt,
        (demo_library_entry,
         emits [EvRemoveFileWatcher ["/w/**"]] loaded.2.2)).
Proof.
  intros loaded.
  destruct (proj1 (load_then_invalidate_restores_entry calm)
              demo_library_entry cached_world demo_doc loaded.2.1 loaded.2.2
              eq_refl eq_refl eq_refl) as (wb & _ & H1 & _ & H2).
  split; [exact H1 | exact H2].
Defined.

(** X6.  A variables entry reports no change for paths that do not
    exist: a batch that only names such paths, so the deletion of the
    variables file itself, leaves the entry as it is. *)
Theorem variables_entry_ignores_missing_paths (E : Env)
    (changes : list FileEvent) e w :
  Forall (fun c => path_exists E (uri_to_path E (fe_uri c)) = false) changes ->
  v_check_file_changed E changes (e, w) = (Ok None, (e, w)).
Proof.
  intros Hmissing. unfold v_check_file_changed. munfold. simpl.
  destruct (v_lib_doc e) as [d|] eqn:Hd; [|reflexivity]. simpl.
  rewrite (v_check_changes_eq E changes e w d Hd).
  assert (Hnone : v_first_change E (ld_source d) changes = Ok None).
  { induction Hmissing as [|c rest Hc _ IH]; [reflexivity|]. simpl.
    rewrite Hc, andb_false_r. exact IH. }
  rewrite Hnone. reflexivity.
Qed.

Lemma variables_entry_ignores_missing_paths_witness :
  v_check_file_changed vanished [mkFileEvent "file:///w/vars.py" DELETED]
    (loaded_variables_entry, empty_world)
  = (Ok None, (loaded_variables_entry, empty_world)).
Proof.
  apply (variables_entry_ignores_missing_paths vanished).
  repeat constructor.
Defined.

(** X7.  A resource entry without document takes the first change with
    a [file] uri as its own, whatever the path: it reports the type of
    that change (and drops the file watchers it may still hold); without
    such a change it reports nothing. *)
Theorem invalid_resource_entry_matches_any_file_change (E : Env)
    (changes : list FileEvent) e w :
  r_document e = None ->
  r_check_file_changed E changes (e, w)
  = match List.find (is_file_event E) changes with
    | Some c => (Ok (Some (fe_type c)), (r_invalidate (e, w)).2)
    | None => (Ok None, (e, w))
    end.
Proof.
  intros Hdoc. rewrite r_check_file_changed_eq.
  assert (Hfirst : first_change E (r_concerns E e) changes
                   = fe_type <$> List.find (is_file_event E) changes).
  { induction changes as [|c rest IH]; [reflexivity|]. simpl.
    unfold r_concerns at 1. rewrite Hdoc, andb_true_r.
    unfold is_file_event at 1.
    destruct (bool_decide (uri_scheme E (fe_uri c) = "file"));
      [reflexivity | exact IH]. }
  rewrite Hfirst.
  destruct (List.find (is_file_event E) changes); reflexivity.
Qed.

Lemma invalid_resource_entry_matches_any_file_change_witness :
  let e := mk_ResourcesEntry 5 [] [] "a.txt" "/w/a.txt" None None in
  r_check_file_changed calm
    [mkFileEvent "untitled:Untitled-1" CHANGED;
     mkFileEvent "file:///elsewhere/b.py" DELETED] (e, empty_world)
  = (Ok (Some DELETED), (e, empty_world)).
Proof.
  intros e.
  exact (invalid_resource_entry_matches_any_file_change calm
           [mkFileEvent "untitled:Untitled-1" CHANGED;
            mkFileEvent "file:///elsewhere/b.py" DELETED]
           e empty_world eq_refl).
Defined.

Lemma first_change_other_schemes E concerns changes :
  forallb (fun c => negb (is_file_event E c)) changes = true ->
  first_change E concerns changes = None.
Proof.
  induction changes as [|c rest IH]; [reflexivity|]. simpl.
  unfold is_file_event at 1.
  destruct (bool_decide (uri_scheme E (fe_uri c) = "file")); simpl;
    [discriminate | exact IH].
Qed.

(** X8.  Changes whose uri has another scheme than [file] concern no
    entry: [check_file_changed] reports nothing for a batch of such
    changes and leaves the entry and the world as they are.  Library
    and variables entries without doc report nothing for any batch. *)
Theorem entries_ignore_other_schemes (E : Env) :
  (forall changes,
     forallb (fun c => negb (is_file_event E c)) changes = true ->
     (forall e w, l_check_file_changed E changes (e, w) = (Ok None, (e, w)))
     /\ (forall e w,
           r_check_file_changed E changes (e, w) = (Ok None, (e, w)))
     /\ (forall e w,
           v_check_file_changed E changes (e, w) = (Ok None, (e, w))))
  /\ (forall changes e w,
        l_lib_doc e = None ->
        l_check_file_changed E changes (e, w) = (Ok None, (e, w)))
  /\ (forall changes e w,
        v_lib_doc e = None ->
        v_check_file_changed E changes (e, w) = (Ok None, (e, w))).
Proof.
  split; [|split].
  - intros changes Hother. split; [|split]; intros e w.
    + unfold l_check_file_changed. munfold. simpl.
      destruct (l_lib_doc e) as [d|] eqn:Hd; [|reflexivity]. simpl.
      rewrite (l_check_changes_eq E changes e w d Hd).
      rewrite first_change_other_schemes by exact Hother. reflexivity.
    + rewrite r_check_file_changed_eq.
      rewrite first_change_other_schemes by exact Hother. reflexivity.
    + unfold v_check_file_changed. munfold. simpl.
      destruct (v_lib_doc e) as [d|] eqn:Hd; [|reflexivity]. simpl.
      rewrite (v_check_changes_eq E changes e w d Hd).
      assert (Hnone : v_first_change E (ld_source d) changes = Ok None).
      { induction changes as [|c rest IH]; [reflexivity|]. simpl in *.
        unfold is_file_event in Hother at 1.
        destruct (bool_decide (uri_scheme E (fe_uri c) = "file")); simpl in *;
          [discriminate | exact (IH Hother)]. }
      rewrite Hnone. reflexivity.
  - intros changes e w Hd. unfold l_check_file_changed. munfold. simpl.
    rewrite Hd. reflexivity.
  - intros changes e w Hd. unfold v_check_file_changed. munfold. simpl.
    rewrite Hd. reflexivity.
Qed.

Lemma entries_ignore_other_schemes_witness :
  l_check_file_changed calm [mkFileEvent "untitled:/w/My.py" DELETED]
    (loaded_library_entry, empty_world)
  = (Ok None, (loaded_library_entry, empty_world)).
Proof.
  exact (proj1 (proj1 (entries_ignore_other_schemes calm)
                  [mkFileEvent "untitled:/w/My.py" DELETED] eq_refl)
           loaded_library_entry empty_world).
Defined.

(** ** The dispatcher and entries without document *)

Lemma r_found_invalid (E : Env) (changes : list FileEvent) c
    (reg : list (_ResourcesEntryKey * _ResourcesEntry)) :
  Forall (fun ke => r_document ke.2 = None) reg ->
  List.find (is_file_event E) changes = Some c ->
  r_found E changes reg = Ok (map (fun ke => (ke.1, fe_type c, None)) reg).
Proof.
  intros Hinv Hc. unfold r_found.
  assert (Hall : rmapM (fun ke : _ResourcesEntryKey * _ResourcesEntry =>
                          held <~ r_held E ke.2 ;;
                          Ok (match r_change E changes ke.2 with
                              | Some t => Some (ke.1, t, held)
                              | None => None
                              end)) reg
                 = Ok (map (fun ke => Some (ke.1, fe_type c, None)) reg)).
  { induction Hinv as [|ke reg Hke _ IH]; [reflexivity|]. simpl.
    unfold r_held at 1. rewrite Hke. simpl.
    assert (Hch : r_change E changes ke.2 = Some (fe_type c)).
    { unfold r_change. clear IH.
      induction changes as [|c' rest IHc]; [discriminate|]. simpl in *.
      unfold r_concerns at 1. rewrite Hke, andb_true_r.
      unfold is_file_event in Hc at 1.
      destruct (bool_decide (uri_scheme E (fe_uri c') = "file"));
        [congruence | exact (IHc Hc)]. }
    rewrite Hch, IH. reflexivity. }
  rewrite Hall. simpl. f_equal.
  clear. induction reg as [|ke reg IH]; [reflexivity|].
  cbn [map omap list_omap]. simpl. rewrite IH. reflexivity.
Qed.

(** X9.  While every resource entry of the registry is without document
    (after an invalidation, or after a load that failed), a batch with
    a change of scheme [file] makes the dispatcher emit
    [resources_changed] although no doc is affected: the event carries
    the empty list. *)
Theorem invalid_resource_entries_are_announced (E : Env)
    (changes : list FileEvent) (c : FileEvent) (mgr mgr' : ImportsManager) :
  registries_ok mgr ->
  _resources mgr <> [] ->
  Forall (fun ke => r_document ke.2 = None) (_resources mgr) ->
  List.find (is_file_event E) changes = Some c ->
  did_change_watched_files E changes mgr = (Ok tt, mgr') ->
  exists pre post,
    w_trace (world mgr')
    = w_trace (world mgr) ++ pre ++ [EvChanged Resource []] ++ post.
Proof.
  intros Hok Hne Hinv Hc Hrun.
  destruct (dispatcher_run E changes mgr (Ok tt) mgr' Hok Hrun)
    as (mid & tr & evs & Htr & _ & _ & _ & Hevs & _ & _ & _ & _ & Hcase).
  destruct Hcase as (rc & vc & Hrc & _ & ->).
  rewrite (r_found_invalid E changes c (_resources mgr) Hinv Hc) in Hrc.
  injection Hrc as <-.
  exists (tr ++ changed_event Library (l_found E changes (_libaries mgr))),
    (changed_event Variables vc).
  rewrite Hevs, Htr. rewrite <- !app_assoc. do 3 f_equal.
  unfold changed_event at 1.
  destruct (_resources mgr) as [|ke reg]; [congruence|]. simpl.
  do 2 f_equal. unfold changed_docs. clear.
  induction reg as [|ke' reg IH]; [reflexivity|]. exact IH.
Qed.

Lemma invalid_resource_entries_are_announced_witness :
  let mgr :=
    mkImportsManager empty_world [] 
      [(demo_resource_key,
        mk_ResourcesEntry 1 [8%nat] [] "a.resource" "/w/a.resource" None None)]
      [] 2 None [] in
  exists pre post,
    w_trace (world (did_change_watched_files calm
                      [mkFileEvent "file:///elsewhere/b.py" CHANGED] mgr).2)
    = w_trace (world mgr) ++ pre ++ [EvChanged Resource []] ++ post.
Proof.
  intros mgr.
  apply (invalid_resource_entries_are_announced calm
           [mkFileEvent "file:///elsewhere/b.py" CHANGED]
           (mkFileEvent "file:///elsewhere/b.py" CHANGED) mgr).
  - repeat split; simpl; repeat constructor; set_solver.
  - discriminate.
  - repeat constructor.
  - reflexivity.
  - reflexivity.
Defined.

(** ** The facade *)

Lemma od_get_app {K V} `{EqDecision K} (k key : K) (v : V) reg :
  od_get k (reg ++ [(key, v)])
  = match od_get k reg with
    | Some e => Some e
    | None => if decide (key = k) then Some v else None
    end.
Proof.
  induction reg as [|[k' v'] reg IH]; simpl; [reflexivity|].
  destruct (decide (k' = k)); [reflexivity | exact IH].
Qed.

Lemma od_get_replace {K V} `{EqDecision K} (k key : K) (v : V) reg :
  od_get k (od_replace key v reg)
  = if decide (key = k)
    then match od_get k reg with Some _ => Some v | None => None end
    else od_get k reg.
Proof.
  induction reg as [|[k' v'] reg IH]; simpl.
  - destruct (decide (key = k)); reflexivity.
  - destruct (decide (k' = key)) as [->|Hne]; simpl.
    + destruct (decide (key = k)); reflexivity.
    + destruct (decide (k' = k)) as [->|Hne'].
      * destruct (decide (key = k)); [congruence | reflexivity].
      * exact IH.
Qed.

(** X10.  A resource import whose source has no resource extension
    raises ImportError, and yet leaves an entry for the source in the
    registry: the entry is created, and the sentinel recorded, before
    the document is loaded.  The entry holds no document. *)
Theorem failed_resource_import_leaves_entry (E : Env) (name base_dir : string)
    (sentinel : option nat) (variables : option Vars)
    (mgr : ImportsManager) (source : string) (w1 : World) :
  find_resource E name base_dir "Resource" variables (world mgr)
  = (Ok source, w1) ->
  str_lower (path_suffix E (path_resolve E source))
    ∉ RESOURCE_EXTENSIONS (get_robot_version E) ->
  od_get (mk_ResourcesEntryKey source) (_resources mgr) = None ->
  let out :=
    get_libdoc_for_resource_import E name base_dir sentinel variables mgr in
  out.1 = Raise (Error "ImportError")
  /\ _resources out.2
     = _resources mgr
       ++ [(mk_ResourcesEntryKey source,
            mk_ResourcesEntry (next_id mgr) (add_reference sentinel []) []
              name source None None)]
  /\ world out.2 = w1.
Proof.
  intros Hfind Hext Hnew out. subst out.
  destruct mgr as [w ls rs vs nid tm docs]. simpl in Hfind, Hnew.
  unfold get_libdoc_for_resource_import, _get_entry_for_resource_import.
  unfold bind, in_world, modify, ret, at_resource, set_world, set_resources,
    set_next_id.
  cbn [_resources world _libaries _variables next_id
       _resource_document_changed_timer _resource_document_changed_documents].
  rewrite Hfind.
  cbn [_resources world _libaries _variables next_id
       _resource_document_changed_timer _resource_document_changed_documents].
  rewrite Hnew.
  cbn [_resources world _libaries _variables next_id
       _resource_document_changed_timer _resource_document_changed_documents].
  rewrite od_get_app, Hnew.
  destruct (decide (mk_ResourcesEntryKey source = mk_ResourcesEntryKey source))
    as [_|Hne]; [|congruence].
  cbn [_resources world _libaries _variables next_id fst snd
       _resource_document_changed_timer _resource_document_changed_documents].
  rewrite od_get_replace, od_get_app, Hnew.
  destruct (decide (mk_ResourcesEntryKey source = mk_ResourcesEntryKey source))
    as [_|Hne]; [|congruence].
  unfold r_get_libdoc, r__get_document, r_update, _get_document. munfold.
  cbn [fst snd r_lib_doc r_set_references r_document is_none r_source].
  rewrite bool_decide_eq_false_2 by exact Hext.
  cbn [fst snd _resources world]. repeat split.
  assert (Hrep : forall (reg : list (_ResourcesEntryKey * _ResourcesEntry))
                   key v v',
             od_get key reg = None ->
             od_replace key v' (od_replace key v' (reg ++ [(key, v)]))
             = reg ++ [(key, v')]).
  { clear. intros reg key v v'.
    induction reg as [|[k' e'] reg IH]; simpl.
    - destruct (decide (key = key)); [|congruence]. simpl.
      destruct (decide (key = key)); [reflexivity | congruence].
    - destruct (decide (k' = key)); [discriminate|]. intros Hn. simpl.
      destruct (decide (k' = key)); [congruence|].
      rewrite (IH Hn). reflexivity. }
  rewrite (Hrep _ _ _ _ Hnew). reflexivity.
Qed.

Lemma failed_resource_import_leaves_entry_witness :
  let out :=
    get_libdoc_for_resource_import calm "notes.py" "/w" (Some 4%nat) None
      empty_manager in
  out.1 = Raise (Error "ImportError")
  /\ _resources out.2
     = [(mk_ResourcesEntryKey "/w/notes.py",
         mk_ResourcesEntry 0 [4%nat] [] "notes.py" "/w/notes.py" None None)].
Proof.
  intros out.
  destruct (failed_resource_import_leaves_entry calm "notes.py" "/w"
              (Some 4%nat) None empty_manager "/w/notes.py"
              (find_resource calm "notes.py" "/w" "Resource" None
                 empty_world).2 eq_refl) as (H1 & H2 & _).
  - apply (proj1 (bool_decide_eq_false _)). reflexivity.
  - reflexivity.
  - split; [exact H1 | exact H2].
Defined.

Lemma l_get_libdoc_keeps_identity E e w :
  let out := l_get_libdoc E (e, w) in
  l_id out.2.1 = l_id e
  /\ l_references out.2.1 = l_references e
  /\ l_ignore_reference out.2.1 = l_ignore_reference e.
Proof.
  intros out. subst out.
  destruct (l_lib_doc e) as [d|] eqn:Hd.
  - rewrite (l_get_libdoc_valid E e w d Hd). auto.
  - rewrite (l_get_libdoc_invalid E e w Hd).
    destruct (library_get_libdoc E _ _ _ _ _ w) as [[d1|ex] w']; simpl; auto.
Qed.

Lemma at_library_pinned {A} (key k : _LibrariesEntryKey)
    (m : M (_LibrariesEntry * World) A) (P : _LibrariesEntry -> Prop) mgr e :
  (forall e0 w, P e0 -> P (m (e0, w)).2.1) ->
  od_get k (_libaries mgr) = Some e -> P e ->
  exists e', od_get k (_libaries (at_library key m mgr).2) = Some e' /\ P e'.
Proof.
  intros Hm Hget HP. unfold at_library.
  destruct (od_get key (_libaries mgr)) as [e0|] eqn:Hkey; [|eauto].
  destruct (m (e0, world mgr)) as [r [e1 w1]] eqn:Hrun. simpl.
  rewrite od_get_replace.
  destruct (decide (key = k)) as [->|Hne]; [|eauto].
  rewrite Hget. exists e1. split; [reflexivity|].
  assert (e0 = e) by congruence. subst e0.
  specialize (Hm e (world mgr) HP). rewrite Hrun in Hm. exact Hm.
Qed.

(** X11.  A library entry created by a request without sentinel ignores
    references for good: whatever is requested through
    [get_libdoc_for_library_import] afterwards, with or without
    sentinel, and whether the request succeeds or not, the entry stays
    in the registry under its key with the references it had. *)
Theorem pinned_library_entry_records_no_reference (E : Env)
    (name : string) (args : list string) (base_dir : string)
    (sentinel : option nat) (variables : option Vars)
    (mgr : ImportsManager) (k : _LibrariesEntryKey) (e : _LibrariesEntry) :
  od_get k (_libaries mgr) = Some e ->
  l_ignore_reference e = true ->
  let out :=
    get_libdoc_for_library_import E name args base_dir sentinel variables
      mgr in
  exists e',
    od_get k (_libaries out.2) = Some e'
    /\ l_id e' = l_id e
    /\ l_references e' = l_references e
    /\ l_ignore_reference e' = true.
Proof.
  intros Hget Hpin out. subst out.
  set (P := fun e0 : _LibrariesEntry =>
              l_id e0 = l_id e /\ l_references e0 = l_references e
              /\ l_ignore_reference e0 = true).
  assert (HP : P e) by (subst P; simpl; auto).
  assert (Hgoal : forall mgr0 e0,
             od_get k (_libaries mgr0) = Some e0 -> P e0 ->
             exists e', od_get k (_libaries mgr0) = Some e' /\ P e') by eauto.
  unfold get_libdoc_for_library_import.
  unfold bind at 1. unfold in_world at 1.
  destruct (find_library E name base_dir variables (world mgr))
    as [[source|ex] w1]; [|simpl; eauto].
  unfold bind at 1, lift_result at 1.
  destruct (get_resolvable_command_line_variables E) as [cv|ex];
    [|simpl; eauto].
  unfold bind at 1, lift_result at 1.
  destruct (resolve_args E args (folder E) base_dir (Some cv) variables)
    as [resolved_args|ex]; [|simpl; eauto].
  set (key := mk_LibrariesEntryKey source resolved_args).
  unfold bind at 1, modify at 1.
  set (mgr1 := match od_get key (_libaries (set_world w1 mgr)) with
               | Some _ => set_world w1 mgr
               | None => _
               end).
  assert (H1 : od_get k (_libaries mgr1) = Some e).
  { subst mgr1. simpl.
    destruct (od_get key (_libaries mgr)) eqn:Hkey; simpl; [exact Hget|].
    rewrite od_get_app, Hget. reflexivity. }
  clearbody mgr1.
  unfold bind at 1.
  destruct (at_library_pinned key k
              (modify
                 (fun s : _LibrariesEntry * World =>
                    (if l_ignore_reference s.1 then s.1
                     else l_set_references
                            (add_reference sentinel (l_references s.1)) s.1,
                     s.2))) P mgr1 e) as (e2 & H2 & HP2); auto.
  { intros e0 w (Hid & Href & Hig). unfold modify. simpl. rewrite Hig.
    subst P. simpl. auto. }
  destruct (at_library key _ mgr1) as [[[]|ex] mgr2]; simpl in H2;
    [|simpl; eauto].
  apply (at_library_pinned key k (l_get_libdoc E) P mgr2 e2); auto.
  intros e0 w (Hid & Href & Hig).
  destruct (l_get_libdoc_keeps_identity E e0 w) as (A & B & C).
  subst P. simpl. repeat split; congruence.
Qed.

Lemma pinned_library_entry_records_no_reference_witness :
  let first :=
    get_libdoc_for_library_import calm "My.py" [] "/w" None None
      empty_manager in
  let second :=
    get_libdoc_for_library_import calm "My.py" [] "/w" (Some 7%nat) None
      first.2 in
  exists e',
    od_get demo_library_key (_libaries second.2) = Some e'
    /\ l_references e' = [].
Proof.
  intros first second.
  destruct (pinned_library_entry_records_no_reference calm "My.py" [] "/w"
              (Some 7%nat) None first.2 demo_library_key
              (mk_LibrariesEntry 0 [] [["/w/**"]] "My.py" [] "/w" "/w" None
                 (Some demo_doc) true)
              eq_refl eq_refl) as (e' & H1 & _ & H2 & _).
  exists e'. split; [exact H1 | exact H2].
Defined.

(** ** Removal of an entry when a sentinel is finalized *)

Lemma invalidate_trace (entry : _LibrariesEntry) (w : World) :
  w_trace (l_invalidate (entry, w)).2.2
  = w_trace w ++ map EvRemoveFileWatcher (l_file_watchers entry).
Proof.
  unfold l_invalidate.
  destruct (is_none (l_lib_doc entry) && is_nil (l_file_watchers entry))
    eqn:Hskip; simpl.
  - apply andb_prop in Hskip as [_ Hnil].
    destruct (l_file_watchers entry); [|discriminate]. simpl.
    rewrite app_nil_r. reflexivity.
  - rewrite remove_file_watchers_emits. reflexivity.
Qed.

(** X12.  [__remove_library_entry] as the finalizer of a sentinel calls
    it (without [now]) always empties the cache of resolved library
    paths, also when it removes nothing, and touches neither the
    resources nor the variables.  It removes the entry only when the
    entry has no reference left and is still the one registered under
    the key; it then invalidates it.  An entry with a reference, and
    the successor of the entry under the same key, stay. *)
Theorem remove_library_entry_without_now (key : _LibrariesEntryKey)
    (entry : _LibrariesEntry) (mgr : ImportsManager) :
  let out := __remove_library_entry key entry false mgr in
  _library_files_cache (world out.2) = []
  /\ _resources out.2 = _resources mgr
  /\ _variables out.2 = _variables mgr
  /\ (l_references entry <> [] ->
      _libaries out.2 = _libaries mgr
      /\ w_trace (world out.2) = w_trace (world mgr))
  /\ (forall e1,
        l_references entry = [] ->
        od_get key (_libaries mgr) = Some e1 -> l_id e1 = l_id entry ->
        _libaries out.2 = od_pop key (_libaries mgr)
        /\ w_trace (world out.2)
           = w_trace (world mgr)
             ++ map EvRemoveFileWatcher (l_file_watchers entry))
  /\ ((forall e1, od_get key (_libaries mgr) = Some e1 ->
                  l_id e1 <> l_id entry) ->
      _libaries out.2 = _libaries mgr
      /\ w_trace (world out.2) = w_trace (world mgr)).
Proof.
  intros out. subst out. unfold __remove_library_entry. munfold.
  rewrite orb_false_r.
  destruct mgr as [w ls rs vs nid tm docs].
  destruct (l_references entry) as [|s refs] eqn:Href; simpl;
    [destruct (od_get key ls) as [e1|] eqn:Hget; simpl;
     [destruct (decide (l_id e1 = l_id entry)) as [Hid|Hid]; simpl|]|];
    repeat split; intros; simplify_eq; try congruence;
    try exact (invalidate_trace entry w);
    try (exfalso; eauto; fail);
    match goal with
    | Hs : forall e2, Some ?e = Some e2 -> _ <> _, Hi : _ = _ |- _ =>
        destruct (Hs e eq_refl Hi)
    end.
Qed.

Lemma remove_library_entry_without_now_witness :
  let out :=
    __remove_library_entry demo_library_key loaded_library_entry false
      demo_manager in
  _libaries out.2 = _libaries demo_manager
  /\ w_trace (world out.2) = w_trace (world demo_manager).
Proof.
  intros out.
  destruct (remove_library_entry_without_now demo_library_key
              loaded_library_entry demo_manager)
    as (_ & _ & _ & Hkept & _).
  apply Hkept. discriminate.
Defined.

(** ** The debounce timer and the pending documents *)

(** X13.  The debounce keeps its bookkeeping consistent: a timer runs
    exactly while documents are pending, and no document is pending
    twice.  A notification leaves the document pending with a timer
    running, and changes nothing at all when the document was pending
    already; the expiry of the timer leaves no timer and no pending
    document, whatever the reconciliation does. *)
Theorem debounce_bookkeeping (E : Env) (document : TextDocument)
    (mgr : ImportsManager) :
  debounce_ok mgr ->
  (let out := resource_document_changed document mgr in
   out.1 = Ok tt
   /\ debounce_ok out.2
   /\ pending document (_resource_document_changed_documents out.2) = true
   /\ _resource_document_changed_timer out.2 <> None
   /\ (pending document (_resource_document_changed_documents mgr) = true ->
       out.2 = mgr))
  /\ (let out := timer_expired E mgr in
      _resource_document_changed_timer out.2 = None
      /\ _resource_document_changed_documents out.2 = []).
Proof.
  intros [Hiff Hnd]. split.
  - intros out. subst out.
    destruct (pending document (_resource_document_changed_documents mgr))
      eqn:Hp.
    + assert (Hsame : resource_document_changed document mgr = (Ok tt, mgr)).
      { unfold resource_document_changed. munfold. rewrite Hp. reflexivity. }
      rewrite Hsame. cbn [fst snd]. rewrite Hp.
      repeat split; auto; try apply Hiff; try exact Hnd.
      intros Ht. rewrite (proj1 Hiff Ht) in Hp. discriminate.
    + assert (Hfresh : document_uri document
                       ∉ map document_uri
                           (_resource_document_changed_documents mgr)).
      { intros Hin. apply list_elem_of_fmap in Hin as (d & Huri & Hd).
        unfold pending in Hp.
        assert (existsb (fun d0 => bool_decide
                           (document_uri d0 = document_uri document))
                  (_resource_document_changed_documents mgr) = true)
          as Hex; [|congruence].
        apply existsb_exists. exists d. split.
        - apply list_elem_of_In, Hd.
        - apply bool_decide_eq_true. congruence. }
      assert (Hrun : exists w',
                 resource_document_changed document mgr
                 = (Ok tt,
                    set_world w'
                      (set_timer
                         (Some _resource_document_changed_timer_interval)
                         (_resource_document_changed_documents mgr
                          ++ [document]) mgr))).
      { unfold resource_document_changed. munfold. rewrite Hp.
        destruct mgr as [w ls rs vs nid [t|] docs]; simpl; eexists;
          reflexivity. }
      destruct Hrun as (w' & ->). cbn [fst snd].
      unfold debounce_ok, set_world, set_timer.
      cbn [_resource_document_changed_timer
           _resource_document_changed_documents].
      split; [reflexivity|]. split; [split; [split|]|].
      * discriminate.
      * intros Hnil.
        destruct (_resource_document_changed_documents mgr);
          discriminate Hnil.
      * rewrite map_app. apply NoDup_app. repeat split.
        -- exact Hnd.
        -- intros u Hu Hu'. apply list_elem_of_singleton in Hu'. subst u.
           exact (Hfresh Hu).
        -- apply NoDup_singleton.
      * split; [|split; [discriminate|discriminate]].
        unfold pending. rewrite existsb_app. simpl.
        rewrite bool_decide_eq_true_2 by reflexivity.
        apply orb_true_r.
  - intros out. subst out. unfold timer_expired. munfold.
    destruct (_resource_document_changed_timer mgr) as [t|] eqn:Ht.
    + unfold __resource_documents_changed. munfold.
      destruct (reconcile_all_keeps_timer E
                  (_resource_document_changed_documents mgr)
                  (set_timer None [] mgr)) as [H1 H2].
      split; [rewrite H1 | rewrite H2]; reflexivity.
    + simpl. split; [exact Ht | apply Hiff; reflexivity].
Qed.

Lemma debounce_bookkeeping_witness :
  let out := resource_document_changed demo_document demo_manager in
  debounce_ok out.2
  /\ _resource_document_changed_documents out.2 = [demo_document].
Proof.
  intros out.
  destruct (debounce_bookkeeping calm demo_document demo_manager)
    as ((_ & Hok & _) & _).
  - split; [split; reflexivity | constructor].
  - split; [exact Hok | reflexivity].
Defined.

(** ** The stored pair: what is saved is what is loaded *)

Lemma save_spec_stores E cp m base d w st mt :
  filepath_base (pathlib E) m = Ok base ->
  mkdir_fault E (path_parent (pathlib E) (spec_file_of cp base)) = None ->
  write_fault E (spec_file_of cp base) = None ->
  write_fault E (meta_file_of cp base) = None ->
  as_json_doc E d = Ok st ->
  as_json_meta E m = Ok mt ->
  (save_spec E cp (Some m) d w).1 = Ok tt
  /\ w_fs (save_spec E cp (Some m) d w).2
     = <[meta_file_of cp base := mt]>
         (<[spec_file_of cp base := st]> (w_fs w)).
Proof.
  intros Hb Hmk Hws Hwm Hd Hm. unfold save_spec. munfold.
  rewrite Hb. simpl. rewrite Hmk. simpl. rewrite Hd. simpl.
  rewrite Hws. simpl. rewrite Hm. simpl. rewrite Hwm. simpl. auto.
Qed.

(** X14.  What a build saves is what the next build loads.  When the
    directory can be made, both files can be written and read, and the
    JSON codec gives back what it was given, [save_spec] succeeds and
    [load_spec] with the same meta then returns the doc that was saved,
    without touching anything; with a meta that has the same file name
    but differs (a new mtime, say), [load_spec] finds nothing. *)
Theorem saved_pair_is_loaded (E : Env) (cp : string) (m : LibraryMetaData)
    (base : string) (d : LibraryDoc) (w : World) (st mt : string) :
  filepath_base (pathlib E) m = Ok base ->
  mkdir_fault E (path_parent (pathlib E) (spec_file_of cp base)) = None ->
  write_fault E (spec_file_of cp base) = None ->
  write_fault E (meta_file_of cp base) = None ->
  read_fault E (spec_file_of cp base) = None ->
  read_fault E (meta_file_of cp base) = None ->
  as_json_doc E d = Ok st -> from_json_doc E st = Ok d ->
  as_json_meta E m = Ok mt -> from_json_meta E mt = Ok m ->
  let saved := save_spec E cp (Some m) d w in
  saved.1 = Ok tt
  /\ load_spec E cp (Some m) saved.2 = (Ok (Some d), saved.2)
  /\ forall m',
       filepath_base (pathlib E) m' = Ok base -> m' <> m ->
       load_spec E cp (Some m') saved.2 = (Ok None, saved.2).
Proof.
  intros Hb Hmk Hws Hwm Hrs Hrm Hd Hd' Hm Hm' saved. subst saved.
  destruct (save_spec_stores E cp m base d w st mt Hb Hmk Hws Hwm Hd Hm)
    as [Hok Hfs].
  split; [exact Hok|]. split.
  - apply load_spec_hit. exists base, mt, st.
    rewrite Hfs. repeat split; auto.
    + apply lookup_insert_eq.
    + rewrite lookup_insert_ne
        by (intros H; symmetry in H;
            exact (spec_file_is_not_meta_file cp base H)).
      apply lookup_insert_eq.
  - intros m' Hb' Hne.
    apply (load_spec_mismatch E cp m' _ base mt m); auto.
    rewrite Hfs. apply lookup_insert_eq.
Qed.

Lemma saved_pair_is_loaded_witness :
  let saved :=
    save_spec calm "/c/libdoc" (Some demo_meta) demo_doc empty_world in
  saved.1 = Ok tt
  /\ load_spec calm "/c/libdoc" (Some demo_meta) saved.2
     = (Ok (Some demo_doc), saved.2)
  /\ load_spec calm "/c/libdoc" (Some (demo_meta_at 99)) saved.2
     = (Ok None, saved.2).
Proof.
  intros saved.
  destruct (saved_pair_is_loaded calm "/c/libdoc" demo_meta "00d700a7_My"
              demo_doc empty_world "keywords of My" "meta of My at 100"
              eq_refl eq_refl eq_refl eq_refl eq_refl eq_refl
              eq_refl eq_refl eq_refl eq_refl) as (H1 & H2 & H3).
  split; [exact H1|]. split; [exact H2|].
  apply H3; [reflexivity | discriminate].
Defined.

(** ** A build after a build *)

Lemma lru_get_stores {K} `{EqDecision K}
    (getc : World -> SimpleLRUCache K)
    (setc : SimpleLRUCache K -> World -> World)
    (func : K -> M World string) (key : K) w r w1 :
  (forall c w', getc (setc c w') = c) ->
  SimpleLRUCache_get getc setc func key w = (Ok r, w1) ->
  lru_find key (getc w1) = Some r.
Proof.
  intros Hget. unfold SimpleLRUCache_get. munfold.
  destruct (lru_find key (getc w)) as [v|] eqn:Hfind.
  - intros [= <- <-]. rewrite Hget. apply lru_find_put.
  - destruct (func key w) as [[v|ex] w'] eqn:Hfunc; [|discriminate].
    intros [= <- <-]. rewrite Hget. apply lru_find_put.
Qed.

Lemma get_library_meta_again E n b v w ms w1 w' :
  get_library_meta E n b v w = (Ok ms, w1) ->
  _library_files_cache w' = _library_files_cache w1 ->
  (get_library_meta E n b v w').1 = Ok ms.
Proof.
  unfold get_library_meta.
  destruct (find_library E n b v w) as [[nm|e] w0] eqn:Hfind.
  - intros Hms Hcache.
    assert (w1 = w0) as ->.
    { revert Hms. simpl. repeat case_match; congruence. }
    assert (Hagain : find_library E n b v w' = (Ok nm, (find_library E n b v w').2)).
    { pose proof (lru_get_stores _ _ _ _ _ _ _ (fun c w2 => eq_refl) Hfind)
        as Hstored.
      unfold find_library, SimpleLRUCache_get. munfold.
      rewrite Hcache, Hstored. reflexivity. }
    rewrite Hagain. revert Hms. simpl.
    destruct (rbind (identify E (is_library_by_path E nm) nm) _) as [r|e];
      [|destruct (is_exit e)]; simpl; intros H; congruence.
  - simpl. destruct (is_exit e); intros H; discriminate H.
Qed.

Lemma save_spec_keeps_cache E cp meta d w :
  _library_files_cache (save_spec E cp meta d w).2 = _library_files_cache w.
Proof.
  unfold save_spec. munfold.
  repeat (case_match; simplify_eq/=); reflexivity.
Qed.

Lemma load_spec_keeps_cache E cp meta w :
  _library_files_cache (load_spec E cp meta w).2 = _library_files_cache w.
Proof.
  unfold load_spec. munfold.
  repeat (case_match; simplify_eq/=); reflexivity.
Qed.

(** X15.  A library build that succeeds with a fingerprint leaves the
    cache so that the same build, run again, is served from it.  When
    the cache directory works (no fault in making it, in writing or in
    reading the two files of the fingerprint) and the JSON codec gives
    back the meta and the doc it was given, the second build returns
    the same doc, starts no worker and writes no file. *)
Theorem second_build_is_served_from_cache (E : Env) (v : option Vars)
    (n : string) (a : list string) (wd bd : string) (w w' : World)
    (d : LibraryDoc) (m : LibraryMetaData) (src base st mt : string) :
  library_get_libdoc E v n a wd bd w = (Ok d, w') ->
  (get_library_meta E n bd v w).1 = Ok (Some m, src) ->
  filepath_base (pathlib E) m = Ok base ->
  mkdir_fault E
    (path_parent (pathlib E) (spec_file_of (lib_doc_cache_path E) base))
  = None ->
  write_fault E (spec_file_of (lib_doc_cache_path E) base) = None ->
  write_fault E (meta_file_of (lib_doc_cache_path E) base) = None ->
  read_fault E (spec_file_of (lib_doc_cache_path E) base) = None ->
  read_fault E (meta_file_of (lib_doc_cache_path E) base) = None ->
  as_json_doc E d = Ok st -> from_json_doc E st = Ok d ->
  as_json_meta E m = Ok mt -> from_json_meta E mt = Ok m ->
  let again := library_get_libdoc E v n a wd bd w' in
  again.1 = Ok d
  /\ w_executors again.2 = w_executors w'
  /\ w_fs again.2 = w_fs w'.
Proof.
  intros Hbuild Hfresh Hb Hmk Hws Hwm Hrs Hrm Hd Hd' Hm Hm' again.
  subst again. set (cp := lib_doc_cache_path E) in *.
  rewrite library_get_libdoc_eq in *. fold cp in Hbuild. fold cp.
  destruct (get_library_meta E n bd v w) as [rm w1] eqn:Hmeta.
  simpl in Hfresh. subst rm.
  pose proof (get_library_meta_quiet E n bd v w) as (Hfs1 & Hex1 & _).
  rewrite Hmeta in Hfs1, Hex1. simpl in Hfs1, Hex1.
  assert (Hstate : stored_pair E cp w' m d
                   /\ _library_files_cache w' = _library_files_cache w1).
  { destruct (load_spec E cp (Some m) w1) as [rl w2] eqn:Hl.
    destruct (load_spec_cases E cp m w1 rl w2 Hl) as
      [(doc & -> & -> & Hsp)
      | [(-> & Hw2 & Hno & _)
        | [(e & -> & -> & _) | (e & -> & Hx & -> & _)]]].
    - rewrite (get_libdoc_with_hit E _ cp _ w m src w1 doc Hmeta Hfs1) in Hbuild
        by (eapply stored_pair_fs; [exact Hfs1 | exact Hsp]).
      injection Hbuild as <- <-. auto.
    - rewrite (build_miss_eq E _ cp Library n a wd bd _ v w (Some m) src w1 w2
                 Hmeta Hl) in Hbuild.
      cbv zeta in Hbuild.
      destruct (worker_outcome E (w_executors w2) Library n a wd bd
                  (all_command_line_vars E) v) as [d0|e]; [|discriminate].
      set (w3 := blocked_for _ _) in Hbuild.
      destruct (save_spec_stores E cp m base d0 w3 st mt) as [Hok Hfs];
        auto.
      { assert (d0 = d); [|congruence].
        destruct (save_spec E cp (Some m) d0 w3) as [[[]|e] w4];
          simpl in Hbuild; congruence. }
      rewrite Hok in Hbuild. injection Hbuild as <- <-. split.
      + exists base, mt, st. rewrite Hfs. repeat split; auto.
        * apply lookup_insert_eq.
        * rewrite lookup_insert_ne
            by (intros H; symmetry in H;
                exact (spec_file_is_not_meta_file cp base H)).
          apply lookup_insert_eq.
      + rewrite save_spec_keeps_cache. subst w3.
        destruct Hw2 as [-> | ->]; reflexivity.
    - unfold get_libdoc_with in Hbuild. unfold bind at 1 in Hbuild.
      rewrite Hmeta in Hbuild. unfold bind at 1 in Hbuild.
      simpl fst in Hbuild. rewrite Hl in Hbuild. discriminate.
    - unfold get_libdoc_with in Hbuild. unfold bind at 1 in Hbuild.
      rewrite Hmeta in Hbuild. unfold bind at 1 in Hbuild.
      simpl fst in Hbuild. rewrite Hl in Hbuild. discriminate. }
  destruct Hstate as [Hsp Hcache].
  pose proof (get_library_meta_again E n bd v w (Some m, src) w1 w' Hmeta
                Hcache) as Hagain.
  pose proof (get_library_meta_quiet E n bd v w') as (Hfs2 & Hex2 & _).
  destruct (get_library_meta E n bd v w') as [rm' w1'] eqn:Hmeta'.
  simpl in Hagain, Hfs2, Hex2. subst rm'.
  rewrite (get_libdoc_with_hit E _ cp _ w' m src w1' d Hmeta' Hfs2 Hsp).
  auto.
Qed.

Lemma second_build_is_served_from_cache_witness :
  let first := library_get_libdoc calm None "My.py" [] "/w" "/w" empty_world in
  let again := library_get_libdoc calm None "My.py" [] "/w" "/w" first.2 in
  w_executors first.2 = 1%nat
  /\ again.1 = Ok demo_doc
  /\ w_executors again.2 = 1%nat.
Proof.
  intros first again.
  destruct (second_build_is_served_from_cache calm None "My.py" [] "/w" "/w"
              empty_world first.2 demo_doc demo_meta "/w/My.py" "00d700a7_My"
              "keywords of My" "meta of My at 100"
              eq_refl eq_refl eq_refl eq_refl eq_refl eq_refl eq_refl eq_refl
              eq_refl eq_refl eq_refl eq_refl) as (H1 & H2 & _).
  split; [reflexivity|]. split; [exact H1 | exact H2].
Defined.

(** * Properties of the workspace part *)

Lemma split_on_nonempty sep s : WorkspacePart.split_on sep s <> [].
Proof.
  destruct s as [|c s]; simpl; [discriminate|].
  destruct (Ascii.eqb c sep); [discriminate|].
  destruct (WorkspacePart.split_on sep s); discriminate.
Qed.

Lemma split_on_app sep a b :
  WorkspacePart.split_on sep (a +:+ String sep b)
  = WorkspacePart.split_on sep a ++ WorkspacePart.split_on sep b.
Proof.
  induction a as [|c a IH]; simpl.
  - rewrite Ascii.eqb_refl. reflexivity.
  - destruct (Ascii.eqb c sep); [rewrite IH; reflexivity|].
    rewrite IH.
    pose proof (split_on_nonempty sep a) as Hne.
    destruct (WorkspacePart.split_on sep a) as [|x xs]; [congruence|].
    reflexivity.
Qed.

Lemma lookup_section_empty_dict ks :
  WorkspacePart.lookup_section ks (WorkspacePart.JDict [])
  = Ok (WorkspacePart.JDict []).
Proof. destruct ks; reflexivity. Qed.

Lemma lookup_section_app ks1 ks2 v :
  WorkspacePart.lookup_section (ks1 ++ ks2) v
  = (r <~ WorkspacePart.lookup_section ks1 v ;;
     WorkspacePart.lookup_section ks2 r).
Proof.
  revert v. induction ks1 as [|k ks1 IH]; intros v; [reflexivity|]. simpl.
  destruct (WorkspacePart.contains k v) as [[]|e]; simpl.
  - destruct (WorkspacePart.get_item k v) as [v'|e]; simpl;
      [apply IH | reflexivity].
  - symmetry. apply lookup_section_empty_dict.
  - reflexivity.
Qed.

(** X16.  Sections compose along their dots: looking up ["a.b"] in the
    settings is looking up ["a"] and then ["b"] in what was found,
    errors included; this holds for every two strings. *)
Theorem sections_compose (settings : WorkspacePart.json) (a b : string)
    (scope_uri : option string) (request : bool) :
  WorkspacePart.get_configuration_raw false settings
    (Some (a +:+ "." +:+ b)) scope_uri request
  = match WorkspacePart.get_configuration_raw false settings (Some a)
            scope_uri request with
    | Ok (WorkspacePart.Completed [found]) =>
        WorkspacePart.get_configuration_raw false found (Some b) scope_uri
          request
    | other => other
    end.
Proof.
  unfold WorkspacePart.get_configuration_raw, WorkspacePart.str_of. simpl.
  change ("." +:+ b) with (String "." b).
  rewrite split_on_app, lookup_section_app.
  destruct (WorkspacePart.lookup_section (WorkspacePart.split_on "." a)
              settings) as [r|e]; reflexivity.
Qed.

Lemma lookup_section_dict_path ks v found :
  WorkspacePart.dict_path ks v = Some found ->
  WorkspacePart.lookup_section ks v = Ok found.
Proof.
  revert v. induction ks as [|k ks IH]; intros v; simpl.
  - intros [= <-]. reflexivity.
  - destruct v as [| | | | |d]; try discriminate.
    destruct (od_get k d) as [v'|] eqn:Hk; [|discriminate].
    intros Hpath. simpl. rewrite Hk. simpl. apply IH, Hpath.
Qed.

(** X17.  The lookup of a section in the settings the server holds:
    a path of keys through nested dicts gives the value it leads to; a
    key that a dict does not have gives the empty dict, whatever
    follows; a value that is null, a boolean or a number where a key is
    still to be looked up raises TypeError; a string raises
    AttributeError when the key occurs in it and gives the empty dict
    otherwise.  A section that is None is looked up as ["None"]. *)
Theorem lookup_of_a_section (settings : WorkspacePart.json)
    (scope_uri : option string) (request : bool) :
  (forall section found,
     WorkspacePart.dict_path (WorkspacePart.split_on "." section) settings
     = Some found ->
     WorkspacePart.get_configuration_raw false settings (Some section)
       scope_uri request
     = Ok (WorkspacePart.Completed [found]))
  /\ (forall d k ks,
        od_get k d = None ->
        WorkspacePart.lookup_section (k :: ks) (WorkspacePart.JDict d)
        = Ok (WorkspacePart.JDict []))
  /\ (forall k ks v,
        v = WorkspacePart.JNull
        \/ (exists b, v = WorkspacePart.JBool b)
        \/ (exists z, v = WorkspacePart.JNumber z) ->
        WorkspacePart.lookup_section (k :: ks) v = Raise (Error "TypeError"))
  /\ (forall k ks s,
        WorkspacePart.lookup_section (k :: ks) (WorkspacePart.JString s)
        = if WorkspacePart.string_contains k s
          then Raise (Error "AttributeError")
          else Ok (WorkspacePart.JDict []))
  /\ WorkspacePart.get_configuration_raw false settings None scope_uri
       request
     = WorkspacePart.get_configuration_raw false settings (Some "None")
         scope_uri request.
Proof.
  split; [|split; [|split; [|split]]].
  - intros section found Hpath.
    unfold WorkspacePart.get_configuration_raw, WorkspacePart.str_of. simpl.
    rewrite (lookup_section_dict_path _ _ _ Hpath). reflexivity.
  - intros d k ks Hk. simpl. rewrite Hk. reflexivity.
  - intros k ks v [-> | [[b ->] | [z ->]]]; reflexivity.
  - intros k ks s. simpl.
    destruct (WorkspacePart.string_contains k s); reflexivity.
  - reflexivity.
Qed.

Lemma lookup_of_a_section_witness :
  let settings :=
    WorkspacePart.JDict
      [("robotcode",
        WorkspacePart.JDict
          [("analysis", WorkspacePart.JDict [("cache", WorkspacePart.JNull)])])] in
  WorkspacePart.get_configuration_raw false settings
    (Some "robotcode.analysis") None true
  = Ok (WorkspacePart.Completed
          [WorkspacePart.JDict [("cache", WorkspacePart.JNull)]])
  /\ WorkspacePart.get_configuration_raw false settings
       (Some "robotcode.analysis.cache.save_location") None true
     = Raise (Error "TypeError").
Proof.
  intros settings. split.
  - apply (proj1 (lookup_of_a_section settings None true)). reflexivity.
  - reflexivity.
Defined.

(** ** The folder of a uri *)

Lemma insert_desc_head {A} (key : A -> nat) (x : A) (l : list A) :
  head (WorkspacePart.insert_desc key x l)
  = match head l with
    | Some y => if (key x <? key y)%nat then Some y else Some x
    | None => Some x
    end.
Proof.
  destruct l as [|y rest]; simpl; [reflexivity|].
  destruct (key x <? key y)%nat; reflexivity.
Qed.

Lemma sorted_desc_head {A} (key : A -> nat) (l : list A) :
  match head (WorkspacePart.sorted_desc key l) with
  | Some x =>
      exists pre post,
        l = pre ++ x :: post
        /\ Forall (fun y => (key y < key x)%nat) pre
        /\ Forall (fun y => (key y <= key x)%nat) post
  | None => l = []
  end.
Proof.
  induction l as [|a rest IH]; simpl; [reflexivity|].
  rewrite insert_desc_head.
  destruct (head (WorkspacePart.sorted_desc key rest)) as [y|].
  - destruct IH as (pre & post & -> & Hpre & Hpost).
    destruct (key a <? key y)%nat eqn:Hlt.
    + apply Nat.ltb_lt in Hlt.
      exists (a :: pre), post. repeat split; auto.
    + apply Nat.ltb_ge in Hlt.
      exists [], (pre ++ y :: post). repeat split; auto.
      apply Forall_app. split.
      * eapply Forall_impl; [exact Hpre|]. simpl. intros z Hz. lia.
      * constructor; [exact Hlt|].
        eapply Forall_impl; [exact Hpost|]. simpl. intros z Hz. lia.
  - subst rest. exists [], []. repeat split; auto.
Qed.

Lemma filter_split {A} (P : A -> bool) (l pre post : list A) x :
  List.filter P l = pre ++ x :: post ->
  exists pre' post',
    l = pre' ++ x :: post'
    /\ List.filter P pre' = pre /\ List.filter P post' = post
    /\ P x = true.
Proof.
  revert pre. induction l as [|a l IH]; intros pre; simpl.
  - destruct pre; discriminate.
  - destruct (P a) eqn:Ha.
    + destruct pre as [|b pre]; simpl.
      * intros [= -> <-]. exists [], l. auto.
      * intros [= -> Hrest]. destruct (IH pre Hrest)
          as (pre' & post' & -> & H1 & H2 & H3).
        exists (b :: pre'), post'. simpl. rewrite Ha, H1. auto.
    + intros Hrest. destruct (IH pre Hrest)
        as (pre' & post' & -> & H1 & H2 & H3).
      exists (a :: pre'), post'. simpl. rewrite Ha. auto.
Qed.

Lemma Forall_filter_bool {A} (P : A -> bool) (Q : A -> Prop) (l : list A) :
  Forall Q (List.filter P l) -> Forall (fun y => P y = true -> Q y) l.
Proof.
  induction l as [|a l IH]; simpl; [constructor|].
  destruct (P a) eqn:Ha.
  - intros H. inversion H; subst. constructor; auto.
  - intros H. constructor; [congruence | auto].
Qed.

(** X18.  [get_workspace_folder] returns a folder of the workspace that
    contains the path of the uri, none of the folders that contain it
    has a longer uri, and among those of the same length it is the one
    that comes first in the workspace; it returns None exactly when no
    folder contains the path. *)
Theorem get_workspace_folder_is_longest (E : Env) (uri_len : string -> nat)
    (folders : list WorkspacePart.WorkspaceFolder) (uri : string) :
  let holds f :=
    path_is_relative_to E (uri_to_path E uri)
      (uri_to_path E (WorkspacePart.wf_uri f)) in
  let len f := uri_len (WorkspacePart.wf_uri f) in
  match WorkspacePart.get_workspace_folder E uri_len folders uri with
  | Some f =>
      holds f = true
      /\ exists pre post,
           folders = pre ++ f :: post
           /\ Forall (fun g => holds g = true -> (len g < len f)%nat) pre
           /\ Forall (fun g => holds g = true -> (len g <= len f)%nat) post
  | None => Forall (fun g => holds g = false) folders
  end.
Proof.
  intros holds len. unfold WorkspacePart.get_workspace_folder.
  fold holds.
  pose proof (sorted_desc_head len (List.filter holds folders)) as Hhead.
  subst len.
  destruct (WorkspacePart.sorted_desc _ (List.filter holds folders))
    as [|f rest]; simpl in Hhead.
  - clear -Hhead. induction folders as [|g l IH]; [constructor|].
    simpl in Hhead. destruct (holds g) eqn:Hg; [discriminate|].
    constructor; auto.
  - destruct Hhead as (pre & post & Hsplit & Hpre & Hpost).
    destruct (filter_split holds folders pre post f Hsplit)
      as (pre' & post' & -> & <- & <- & Hf).
    split; [exact Hf|]. exists pre', post'. split; [reflexivity|].
    split; apply Forall_filter_bool; assumption.
Qed.

Example get_workspace_folder_nested :
  let root := WorkspacePart.mkWorkspaceFolder 0 "w" "file:///w" "file:///w" in
  let sub :=
    WorkspacePart.mkWorkspaceFolder 1 "sub" "file:///w/sub" "file:///w/sub" in
  WorkspacePart.get_workspace_folder calm String.length [root; sub]
    "file:///w/sub/a.robot" = Some sub
  /\ WorkspacePart.get_workspace_folder calm String.length [root; sub]
       "file:///w/a.robot" = Some root
  /\ WorkspacePart.get_workspace_folder calm String.length [root; sub]
       "file:///elsewhere/a.robot" = None.
Proof. repeat split; reflexivity. Qed.

(** ** Changes of the workspace folders *)

Lemma list_remove_absent id (F : list WorkspacePart.WorkspaceFolder) :
  id ∉ map WorkspacePart.wf_id F -> WorkspacePart.list_remove id F = None.
Proof.
  induction F as [|w F IH]; simpl; [reflexivity|].
  intros Hnot. destruct (decide (WorkspacePart.wf_id w = id)) as [<-|Hne].
  - exfalso. apply Hnot. left.
  - rewrite IH; [reflexivity|]. intros Hin. apply Hnot. right. exact Hin.
Qed.

Lemma list_remove_present id (F : list WorkspacePart.WorkspaceFolder) :
  NoDup (map WorkspacePart.wf_id F) ->
  id ∈ map WorkspacePart.wf_id F ->
  WorkspacePart.list_remove id F
  = Some (List.filter
            (fun w => negb (bool_decide (WorkspacePart.wf_id w = id))) F).
Proof.
  induction F as [|w F IH]; simpl.
  - intros _ Hin. inversion Hin.
  - intros Hnd Hin. apply NoDup_cons in Hnd as [Hw Hnd].
    destruct (decide (WorkspacePart.wf_id w = id)) as [<-|Hne].
    + rewrite bool_decide_eq_true_2 by reflexivity. simpl. f_equal.
      symmetry. clear -Hw. induction F as [|x F IH]; [reflexivity|]. simpl.
      rewrite bool_decide_eq_false_2.
      * simpl. f_equal. apply IH. intros Hin. apply Hw. right. exact Hin.
      * intros Heq. apply Hw. rewrite <- Heq. left.
    + rewrite bool_decide_eq_false_2 by exact Hne. simpl.
      apply elem_of_cons in Hin as [Heq|Hin]; [congruence|].
      rewrite (IH Hnd Hin). reflexivity.
Qed.

Lemma filter_ids_subset (P : WorkspacePart.WorkspaceFolder -> bool) F id :
  id ∈ map WorkspacePart.wf_id (List.filter P F) ->
  id ∈ map WorkspacePart.wf_id F.
Proof.
  intros Hin. apply list_elem_of_fmap in Hin as (w & -> & Hw).
  apply list_elem_of_fmap. exists w. split; [reflexivity|].
  apply list_elem_of_In in Hw. apply filter_In in Hw as [Hw _].
  apply list_elem_of_In. exact Hw.
Qed.

Lemma filter_ids_NoDup (P : WorkspacePart.WorkspaceFolder -> bool) F :
  NoDup (map WorkspacePart.wf_id F) ->
  NoDup (map WorkspacePart.wf_id (List.filter P F)).
Proof.
  induction F as [|w F IH]; simpl; [auto|].
  intros Hnd. apply NoDup_cons in Hnd as [Hw Hnd].
  destruct (P w); simpl; [|auto].
  apply NoDup_cons. split; [|auto].
  intros Hin. apply Hw. eapply filter_ids_subset, Hin.
Qed.

Lemma filter_filter_bool {A} (P Q : A -> bool) (l : list A) :
  List.filter P (List.filter Q l) = List.filter (fun x => Q x && P x) l.
Proof.
  induction l as [|x l IH]; simpl; [reflexivity|].
  destruct (Q x); simpl; [destruct (P x); simpl; rewrite IH|]; auto.
Qed.

Lemma filter_id_present (F : list WorkspacePart.WorkspaceFolder) id id' :
  id ∈ map WorkspacePart.wf_id F -> id <> id' ->
  id ∈ map WorkspacePart.wf_id
         (List.filter
            (fun w => negb (bool_decide (WorkspacePart.wf_id w = id'))) F).
Proof.
  intros Hin Hne. apply list_elem_of_fmap in Hin as (w & -> & Hw).
  apply list_elem_of_fmap. exists w. split; [reflexivity|].
  apply list_elem_of_In, filter_In. split; [apply list_elem_of_In, Hw|].
  rewrite bool_decide_eq_false_2 by exact Hne. reflexivity.
Qed.

Lemma filter_id_absent (F : list WorkspacePart.WorkspaceFolder) id :
  id ∉ map WorkspacePart.wf_id
         (List.filter
            (fun w => negb (bool_decide (WorkspacePart.wf_id w = id))) F).
Proof.
  intros Hin. apply list_elem_of_fmap in Hin as (w & -> & Hw).
  apply list_elem_of_In, filter_In in Hw as [_ Hw].
  rewrite bool_decide_eq_true_2 in Hw by reflexivity. discriminate.
Qed.

Lemma filter_sublist_bool {A} (P : A -> bool) (l : list A) :
  sublist (List.filter P l) l.
Proof.
  induction l as [|x l IH]; simpl; [constructor|].
  destruct (P x); [apply sublist_skip | apply sublist_cons]; exact IH.
Qed.

Lemma remove_folders_ok {C} (R F : list WorkspacePart.WorkspaceFolder)
    (cache : list ((option nat * string) * C)) (nid : nat) :
  NoDup (map WorkspacePart.wf_id F) ->
  NoDup (map WorkspacePart.wf_id R) ->
  (forall id, id ∈ map WorkspacePart.wf_id R ->
              id ∈ map WorkspacePart.wf_id F) ->
  WorkspacePart.remove_folders R (WorkspacePart.mkWorkspace F cache nid)
  = (Ok tt,
     WorkspacePart.mkWorkspace
       (List.filter (fun w => negb (is_one_of R (WorkspacePart.wf_id w))) F)
       (List.filter
          (fun kc => match kc.1.1 with
                     | Some id => negb (is_one_of R id)
                     | None => true
                     end) cache)
       nid).
Proof.
  revert F cache. induction R as [|r R IH]; intros F cache HF HR Hsub.
  - simpl. f_equal. f_equal.
    + symmetry. clear. induction F as [|x F IH]; simpl; congruence.
    + symmetry. clear. induction cache as [|[[[id|] s] c] l IH]; simpl;
        congruence.
  - simpl in HR. apply NoDup_cons in HR as [Hr HR].
    simpl. unfold bind at 1, get at 1. simpl.
    rewrite list_remove_present; [|exact HF|apply Hsub; left].
    unfold bind, modify. simpl.
    rewrite IH; [| apply filter_ids_NoDup, HF | exact HR |].
    + f_equal. f_equal.
      * rewrite filter_filter_bool. apply filter_ext. intros w.
        rewrite negb_orb. reflexivity.
      * rewrite filter_filter_bool. apply filter_ext.
        intros [[[id|] s] c]; simpl; [|reflexivity].
        rewrite negb_orb. f_equal. f_equal.
        destruct (decide (id = WorkspacePart.wf_id r)) as [->|Hne].
        -- rewrite !bool_decide_eq_true_2 by reflexivity. reflexivity.
        -- rewrite !bool_decide_eq_false_2 by congruence. reflexivity.
    + intros id Hid. apply filter_id_present.
      * apply Hsub. right. exact Hid.
      * intros ->. exact (Hr Hid).
Qed.

Lemma remove_folders_fails {C} (R F : list WorkspacePart.WorkspaceFolder)
    (cache : list ((option nat * string) * C)) (nid : nat) :
  NoDup (map WorkspacePart.wf_id F) ->
  (~ NoDup (map WorkspacePart.wf_id R)
   \/ exists id, id ∈ map WorkspacePart.wf_id R
                 /\ id ∉ map WorkspacePart.wf_id F) ->
  exists ws',
    WorkspacePart.remove_folders R (WorkspacePart.mkWorkspace F cache nid)
    = (Raise (Error "ValueError"), ws')
    /\ sublist (WorkspacePart._workspace_folders ws') F
    /\ WorkspacePart.next_folder_id ws' = nid.
Proof.
  revert F cache. induction R as [|r R IH]; intros F cache HF Hbad.
  - exfalso. destruct Hbad as [Hnd | (id & Hin & _)].
    + apply Hnd. constructor.
    + inversion Hin.
  - simpl. unfold bind at 1, get at 1. simpl.
    destruct (decide (WorkspacePart.wf_id r ∈ map WorkspacePart.wf_id F))
      as [Hr|Hr].
    + rewrite list_remove_present by assumption.
      unfold bind, modify. simpl.
      set (F1 := List.filter _ F).
      destruct (IH F1 (List.filter
                         (fun kc => negb (bool_decide
                                            (kc.1.1
                                             = Some (WorkspacePart.wf_id r))))
                         cache)) as (ws' & Hrun & Hsub & Hid).
      * apply filter_ids_NoDup, HF.
      * destruct (decide (WorkspacePart.wf_id r ∈ map WorkspacePart.wf_id R))
          as [Hdup|Hfresh].
        { right. exists (WorkspacePart.wf_id r). split; [exact Hdup|].
          apply filter_id_absent. }
        destruct Hbad as [Hnd | (id & Hin & Hout)].
        { left. intros HR. apply Hnd. simpl. apply NoDup_cons. auto. }
        right. exists id. split.
        -- simpl in Hin. apply elem_of_cons in Hin as [->|Hin];
             [contradiction | exact Hin].
        -- intros Hin1. apply Hout. eapply filter_ids_subset, Hin1.
      * exists ws'. split; [exact Hrun|]. split; [|exact Hid].
        etransitivity; [exact Hsub | apply filter_sublist_bool].
    + rewrite list_remove_absent by exact Hr.
      eexists. split; [reflexivity|]. split; reflexivity.
Qed.

Lemma append_folders_eq {C} (l : list WorkspacePart.TypesWorkspaceFolder)
    (F : list WorkspacePart.WorkspaceFolder)
    (cache : list ((option nat * string) * C)) (nid : nat) :
  WorkspacePart.append_folders l (WorkspacePart.mkWorkspace F cache nid)
  = (Ok tt,
     WorkspacePart.mkWorkspace (F ++ new_folders nid l) cache
       (nid + length l)).
Proof.
  revert F nid. induction l as [|a l IH]; intros F nid; simpl.
  - rewrite app_nil_r, Nat.add_0_r. reflexivity.
  - unfold bind, modify. simpl. rewrite IH.
    rewrite <- app_assoc, Nat.add_succ_r. reflexivity.
Qed.

Lemma flat_map_ids_subset (uri_eq : string -> string -> bool)
    (F : list WorkspacePart.WorkspaceFolder)
    (l : list WorkspacePart.TypesWorkspaceFolder) id :
  id ∈ map WorkspacePart.wf_id (flat_map (WorkspacePart.folders_of uri_eq F) l)
  -> id ∈ map WorkspacePart.wf_id F.
Proof.
  intros Hin. apply list_elem_of_fmap in Hin as (w & -> & Hw).
  apply list_elem_of_In, in_flat_map in Hw as (f & _ & Hw).
  apply filter_In in Hw as [Hw _].
  apply list_elem_of_fmap. exists w. split; [reflexivity|].
  apply list_elem_of_In, Hw.
Qed.

Lemma NoDup_ids_inj (F : list WorkspacePart.WorkspaceFolder) x y :
  NoDup (map WorkspacePart.wf_id F) -> In x F -> In y F ->
  WorkspacePart.wf_id x = WorkspacePart.wf_id y -> x = y.
Proof.
  induction F as [|w F IH]; simpl; [tauto|].
  intros Hnd Hx Hy Hid. apply NoDup_cons in Hnd as [Hw Hnd].
  destruct Hx as [->|Hx]; destruct Hy as [->|Hy]; auto.
  - exfalso. apply Hw. rewrite Hid. apply list_elem_of_fmap.
    exists y. split; [reflexivity | apply list_elem_of_In, Hy].
  - exfalso. apply Hw. rewrite <- Hid. apply list_elem_of_fmap.
    exists x. split; [reflexivity | apply list_elem_of_In, Hx].
Qed.

Lemma is_one_of_matched (uri_eq : string -> string -> bool)
    (F : list WorkspacePart.WorkspaceFolder)
    (l : list WorkspacePart.TypesWorkspaceFolder) w :
  NoDup (map WorkspacePart.wf_id F) -> In w F ->
  is_one_of (flat_map (WorkspacePart.folders_of uri_eq F) l)
    (WorkspacePart.wf_id w)
  = existsb (fun f => uri_eq (WorkspacePart.wf_uri w)
                        (WorkspacePart.twf_uri f)) l.
Proof.
  intros HF Hw. apply eq_true_iff_eq. unfold is_one_of.
  rewrite !existsb_exists. split.
  - intros (r & Hr & Hid). apply bool_decide_eq_true in Hid.
    apply in_flat_map in Hr as (f & Hf & Hr).
    apply filter_In in Hr as [HrF Hmatch].
    assert (w = r) as <- by (eapply NoDup_ids_inj; eauto).
    exists f. auto.
  - intros (f & Hf & Hmatch). exists w. split.
    + apply in_flat_map. exists f. split; [exact Hf|].
      apply filter_In. auto.
    + apply bool_decide_eq_true. reflexivity.
Qed.

Lemma is_one_of_app l1 l2 id :
  is_one_of (l1 ++ l2) id = is_one_of l1 id || is_one_of l2 id.
Proof. apply existsb_app. Qed.

Lemma filter_ext_in_bool {A} (P Q : A -> bool) (l : list A) :
  (forall x, In x l -> P x = Q x) -> List.filter P l = List.filter Q l.
Proof.
  induction l as [|x l IH]; simpl; [reflexivity|].
  intros H. rewrite (H x) by auto. rewrite IH by auto. reflexivity.
Qed.

(** X19.  A change of the workspace folders removes every folder whose
    uri equals the uri of a folder of the event, of the removed ones
    and of the added ones, drops the cached settings of the folders it
    removes, keeps the other folders in their order and appends the
    added folders as new ones.  That is so when no folder is named
    twice by the event; when one is (the same uri among the removed
    ones and the added ones, say), the second removal of the folder
    raises ValueError and no folder is appended. *)
Theorem workspace_folders_change {C} (uri_eq : string -> string -> bool)
    (event : WorkspacePart.WorkspaceFoldersChangeEvent)
    (ws : WorkspacePart.Workspace C) :
  NoDup (map WorkspacePart.wf_id (WorkspacePart._workspace_folders ws)) ->
  let folders := WorkspacePart._workspace_folders ws in
  let to_remove :=
    flat_map (WorkspacePart.folders_of uri_eq folders)
      (WorkspacePart.removed event)
    ++ flat_map (WorkspacePart.folders_of uri_eq folders)
         (WorkspacePart.added event) in
  let out :=
    WorkspacePart._workspace_did_change_workspace_folders uri_eq event ws in
  (NoDup (map WorkspacePart.wf_id to_remove) ->
   out.1 = Ok tt
   /\ WorkspacePart._workspace_folders out.2
      = List.filter
          (fun w =>
             negb (existsb
                     (fun f => uri_eq (WorkspacePart.wf_uri w)
                                 (WorkspacePart.twf_uri f))
                     (WorkspacePart.removed event
                      ++ WorkspacePart.added event)))
          folders
        ++ new_folders (WorkspacePart.next_folder_id ws)
             (WorkspacePart.added event)
   /\ WorkspacePart._settings_cache out.2
      = List.filter
          (fun kc => match kc.1.1 with
                     | Some id => negb (is_one_of to_remove id)
                     | None => true
                     end)
          (WorkspacePart._settings_cache ws))
  /\ (~ NoDup (map WorkspacePart.wf_id to_remove) ->
      out.1 = Raise (Error "ValueError")
      /\ sublist (WorkspacePart._workspace_folders out.2) folders).
Proof.
  intros HF folders to_remove out.
  destruct ws as [F cache nid]. simpl in HF, folders. subst folders.
  assert (Hsub : forall id, id ∈ map WorkspacePart.wf_id to_remove ->
                            id ∈ map WorkspacePart.wf_id F).
  { intros id Hin. subst to_remove. rewrite map_app in Hin.
    apply elem_of_app in Hin as [Hin|Hin];
      eapply flat_map_ids_subset, Hin. }
  assert (Hout : out
                 = (let run :=
                      WorkspacePart.remove_folders to_remove
                        (WorkspacePart.mkWorkspace F cache nid) in
                    match run.1 with
                    | Ok _ =>
                        WorkspacePart.append_folders
                          (WorkspacePart.added event) run.2
                    | Raise e => (Raise e, run.2)
                    end)).
  { subst out. unfold WorkspacePart._workspace_did_change_workspace_folders.
    unfold bind at 1, get at 1. simpl. unfold bind. fold to_remove.
    destruct (WorkspacePart.remove_folders to_remove _) as [[[]|e] ws1];
      reflexivity. }
  rewrite Hout. clear Hout. cbv zeta. split.
  - intros HR.
    rewrite (remove_folders_ok to_remove F cache nid HF HR Hsub).
    cbn [fst snd]. rewrite append_folders_eq. cbn [fst snd].
    split; [reflexivity|]. split; [|reflexivity].
    cbn [WorkspacePart._workspace_folders WorkspacePart.next_folder_id].
    f_equal. apply filter_ext_in_bool. intros w Hw. f_equal.
    subst to_remove. rewrite is_one_of_app, existsb_app.
    rewrite !(is_one_of_matched uri_eq F _ w HF Hw). reflexivity.
  - intros HR.
    destruct (remove_folders_fails to_remove F cache nid HF (or_introl HR))
      as (ws' & -> & Hsubl & _).
    cbn [fst snd]. auto.
Qed.

Lemma workspace_folders_change_witness :
  let a := WorkspacePart.mkWorkspaceFolder 0 "a" "file:///a" "file:///a" in
  let b := WorkspacePart.mkWorkspaceFolder 1 "b" "file:///b" "file:///b" in
  let ws :=
    WorkspacePart.mkWorkspace [a; b] [((Some 0%nat, "robotcode"), 5%nat)] 2 in
  let gone := WorkspacePart.mkTypesWorkspaceFolder "file:///a" "a" in
  let new := WorkspacePart.mkTypesWorkspaceFolder "file:///c" "c" in
  let replaced :=
    WorkspacePart._workspace_did_change_workspace_folders String.eqb
      (WorkspacePart.mkWorkspaceFoldersChangeEvent [new] [gone]) ws in
  let twice :=
    WorkspacePart._workspace_did_change_workspace_folders String.eqb
      (WorkspacePart.mkWorkspaceFoldersChangeEvent [gone] [gone]) ws in
  (replaced.1 = Ok tt
   /\ WorkspacePart._workspace_folders replaced.2
      = [b; WorkspacePart.mkWorkspaceFolder 2 "c" "file:///c" "file:///c"]
   /\ WorkspacePart._settings_cache replaced.2 = [])
  /\ twice.1 = Raise (Error "ValueError").
Proof.
  intros a b ws gone new replaced twice.
  assert (Hws : NoDup (map WorkspacePart.wf_id
                         (WorkspacePart._workspace_folders ws))).
  { apply (bool_decide_unpack _). exact I. }
  split.
  - apply (proj1 (workspace_folders_change String.eqb
                    (WorkspacePart.mkWorkspaceFoldersChangeEvent [new] [gone])
                    ws Hws)).
    apply (bool_decide_unpack _). exact I.
  - apply (proj2 (workspace_folders_change String.eqb
                    (WorkspacePart.mkWorkspaceFoldersChangeEvent [gone] [gone])
                    ws Hws)).
    simpl. intros Hnd. apply NoDup_cons in Hnd as [Hin _].
    apply Hin. left.
Defined.

(** * Properties of the code lens and inlay hint parts *)

Lemma fold_alter_lookup {O} (f : O -> O) (ids : list nat) (h : gmap nat O)
    (a : nat) :
  fold_left (fun h r => alter f r h) ids h !! a
  = Nat.iter (count_occ Nat.eq_dec ids a) f <$> h !! a.
Proof.
  revert h. induction ids as [|r ids IH]; intros h; simpl.
  - destruct (h !! a); reflexivity.
  - rewrite IH. destruct (Nat.eq_dec r a) as [->|Hne].
    + rewrite lookup_alter_eq. destruct (h !! a) as [c|]; simpl; [|reflexivity].
      f_equal. clear. induction (count_occ Nat.eq_dec ids a) as [|n IHn];
        simpl; congruence.
    + rewrite lookup_alter_ne by exact Hne. reflexivity.
Qed.

Lemma log_unless_cancelled_eq {O} (e : exn) (s : LensParts.PartState O) :
  LensParts.log_unless_cancelled e s
  = (Ok tt,
     LensParts.mkPartState (LensParts.objects s)
       (LensParts.logged s
        ++ (if LensParts.is_cancelled e then [] else [e]))).
Proof.
  unfold LensParts.log_unless_cancelled.
  destruct (LensParts.is_cancelled e); simpl.
  - rewrite app_nil_r. destruct s; reflexivity.
  - reflexivity.
Qed.

Lemma logged_of_cons {A} (r : LensParts.handled A) rs :
  logged_of (r :: rs)
  = match r with
    | LensParts.Raised e => if LensParts.is_cancelled e then [] else [e]
    | LensParts.Returned _ => []
    end ++ logged_of rs.
Proof.
  unfold logged_of. cbn [omap list_omap].
  destruct r as [e|v]; [destruct (LensParts.is_cancelled e)|]; reflexivity.
Qed.

Lemma code_lens_collect_eq (canceled : nat -> bool) rs i acc
    (s : LensParts.PartState LensParts.CodeLens) :
  (forall j, (j < length rs)%nat -> canceled (i + j)%nat = false) ->
  LensParts.code_lens_collect canceled i rs acc s
  = (Ok (acc ++ collected rs),
     LensParts.mkPartState (LensParts.objects s)
       (LensParts.logged s ++ logged_of rs)).
Proof.
  revert i acc s. induction rs as [|r rs IH]; intros i acc s Hc.
  - simpl. rewrite !app_nil_r. destruct s; reflexivity.
  - assert (Hi : canceled i = false).
    { rewrite <- (Nat.add_0_r i). apply Hc. simpl. lia. }
    cbn [LensParts.code_lens_collect]. unfold bind at 1.
    unfold LensParts.check_current_task_canceled.
    rewrite Hi. unfold ret at 1.
    assert (Hrest : forall j, (j < length rs)%nat ->
                              canceled (S i + j)%nat = false).
    { intros j Hj. replace (S i + j)%nat with (i + S j)%nat by lia.
      apply Hc. simpl. lia. }
    rewrite logged_of_cons.
    destruct r as [e|[l|]].
    + unfold bind. rewrite log_unless_cancelled_eq.
      rewrite (IH (S i) acc _ Hrest). cbn [LensParts.objects LensParts.logged].
      rewrite <- app_assoc. reflexivity.
    + rewrite (IH (S i) (acc ++ l) s Hrest). unfold collected. simpl.
      rewrite <- app_assoc. reflexivity.
    + rewrite (IH (S i) acc s Hrest). reflexivity.
Qed.

Lemma code_lens_collect_cancelled (canceled : nat -> bool) rs i k acc
    (s : LensParts.PartState LensParts.CodeLens) :
  (forall j, (j < k)%nat -> canceled (i + j)%nat = false) ->
  canceled (i + k)%nat = true ->
  (k < length rs)%nat ->
  LensParts.code_lens_collect canceled i rs acc s
  = (Raise (Error "CancelledError"),
     LensParts.mkPartState (LensParts.objects s)
       (LensParts.logged s ++ logged_of (take k rs))).
Proof.
  revert i k acc s. induction rs as [|r rs IH]; intros i k acc s Hc Hk Hlen.
  - simpl in Hlen. lia.
  - cbn [LensParts.code_lens_collect]. unfold bind at 1.
    unfold LensParts.check_current_task_canceled.
    destruct k as [|k].
    + rewrite Nat.add_0_r in Hk. rewrite Hk. unfold raise. simpl.
      rewrite app_nil_r. destruct s; reflexivity.
    + assert (Hi : canceled i = false).
      { rewrite <- (Nat.add_0_r i). apply Hc. lia. }
      rewrite Hi. unfold ret at 1.
      assert (Hrest : forall j, (j < k)%nat -> canceled (S i + j)%nat = false).
      { intros j Hj. replace (S i + j)%nat with (i + S j)%nat by lia.
        apply Hc. lia. }
      assert (Hk' : canceled (S i + k)%nat = true).
      { replace (S i + k)%nat with (i + S k)%nat by lia. exact Hk. }
      simpl in Hlen. assert (Hlen' : (k < length rs)%nat) by lia.
      cbn [take]. rewrite logged_of_cons.
      destruct r as [e|[l|]].
      * unfold bind. rewrite log_unless_cancelled_eq.
        rewrite (IH (S i) k acc _ Hrest Hk' Hlen').
        cbn [LensParts.objects LensParts.logged].
        rewrite <- app_assoc. reflexivity.
      * rewrite (IH (S i) k (acc ++ l) s Hrest Hk' Hlen'). reflexivity.
      * rewrite (IH (S i) k acc s Hrest Hk' Hlen'). reflexivity.
Qed.

(** X20.  [textDocument/codeLens].  For an unknown document the answer
    is None and nothing happens.  Otherwise, when the task is not
    cancelled, the answer lists the lenses of all handlers in the order
    of the handlers, or is None when there is none; an exception of a
    handler never reaches the caller, it is logged unless it is a
    CancelledError; and every lens of the answer has its range
    converted once for each time it is listed, so twice when two
    handlers return the same object.  When the task is cancelled at
    the k-th handler the call raises CancelledError and no lens has
    been touched. *)
Theorem code_lens_collection
    (range_to_utf16 : TextDocument -> LensParts.Range -> LensParts.Range)
    (canceled : nat -> bool) (document : TextDocument)
    (rs : list (LensParts.handled (list nat)))
    (s : LensParts.PartState LensParts.CodeLens) :
  LensParts._text_document_code_lens range_to_utf16 canceled None rs s
  = (Ok None, s)
  /\ ((forall j, (j < length rs)%nat -> canceled j = false) ->
      let out :=
        LensParts._text_document_code_lens range_to_utf16 canceled
          (Some document) rs s in
      out.1 = Ok (if is_nil (collected rs) then None
                  else Some (collected rs))
      /\ LensParts.logged out.2 = LensParts.logged s ++ logged_of rs
      /\ forall a,
           LensParts.objects out.2 !! a
           = Nat.iter (count_occ Nat.eq_dec (collected rs) a)
               (convert_lens range_to_utf16 document)
             <$> LensParts.objects s !! a)
  /\ (forall k,
        (forall j, (j < k)%nat -> canceled j = false) ->
        canceled k = true -> (k < length rs)%nat ->
        LensParts._text_document_code_lens range_to_utf16 canceled
          (Some document) rs s
        = (Raise (Error "CancelledError"),
           LensParts.mkPartState (LensParts.objects s)
             (LensParts.logged s ++ logged_of (take k rs)))).
Proof.
  split; [reflexivity|]. split.
  - intros Hc out.
    assert (Hrun : out
                   = (Ok (if is_nil (collected rs) then None
                          else Some (collected rs)),
                      LensParts.mkPartState
                        (fold_left
                           (fun h r =>
                              alter (convert_lens range_to_utf16 document) r h)
                           (collected rs) (LensParts.objects s))
                        (LensParts.logged s ++ logged_of rs))).
    { subst out. unfold LensParts._text_document_code_lens.
      unfold bind at 1.
      rewrite (code_lens_collect_eq canceled rs 0 [] s Hc). simpl app.
      destruct (collected rs) as [|a0 l]; reflexivity. }
    rewrite Hrun. cbn [fst snd LensParts.objects LensParts.logged].
    split; [reflexivity|]. split; [reflexivity|]. intros a.
    apply fold_alter_lookup.
  - intros k Hc Hk Hlen. unfold LensParts._text_document_code_lens.
    unfold bind at 1.
    rewrite (code_lens_collect_cancelled canceled rs 0 k [] s Hc Hk Hlen).
    reflexivity.
Qed.

Lemma code_lens_collection_witness :
  let lens := LensParts.mkCodeLens ((1, 2), (1, 5))%nat None None in
  let s := LensParts.mkPartState {[ 7%nat := lens ]} [] in
  let utf16 (d : TextDocument) (r : LensParts.Range) : LensParts.Range :=
    ((r.1.1, 2 * r.1.2), (r.2.1, 2 * r.2.2))%nat in
  let out :=
    LensParts._text_document_code_lens utf16 (fun _ => false)
      (Some demo_document)
      [LensParts.Returned (Some [7%nat]); LensParts.Raised (Error "ValueError");
       LensParts.Returned (Some [7%nat])] s in
  out.1 = Ok (Some [7%nat; 7%nat])
  /\ LensParts.logged out.2 = [Error "ValueError"]
  /\ LensParts.objects out.2 !! 7%nat
     = Some (LensParts.mkCodeLens ((1, 8), (1, 20))%nat None None).
Proof.
  intros lens s utf16 out.
  destruct (proj1 (proj2 (code_lens_collection utf16 (fun _ => false)
                            demo_document
                            [LensParts.Returned (Some [7%nat]);
                             LensParts.Raised (Error "ValueError");
                             LensParts.Returned (Some [7%nat])] s))
              (fun _ _ => eq_refl)) as (H1 & H2 & H3).
  split; [exact H1|]. split; [exact H2|].
  exact (eq_trans (H3 7%nat) eq_refl).
Defined.

Lemma values_of_cons {A} (r : LensParts.handled A) rs :
  values_of (r :: rs)
  = match r with
    | LensParts.Returned (Some v) => [v]
    | _ => []
    end ++ values_of rs.
Proof.
  unfold values_of. cbn [omap list_omap]. destruct r as [e|[v|]]; reflexivity.
Qed.

Lemma code_lens_resolve_collect_eq (canceled : nat -> bool) rs i acc
    (s : LensParts.PartState LensParts.CodeLens) :
  (forall j, (j < length rs)%nat -> canceled (i + j)%nat = false) ->
  LensParts.code_lens_resolve_collect canceled i rs acc s
  = (Ok (acc ++ values_of rs),
     LensParts.mkPartState (LensParts.objects s)
       (LensParts.logged s ++ logged_of rs)).
Proof.
  revert i acc s. induction rs as [|r rs IH]; intros i acc s Hc.
  - simpl. rewrite !app_nil_r. destruct s; reflexivity.
  - assert (Hi : canceled i = false).
    { rewrite <- (Nat.add_0_r i). apply Hc. simpl. lia. }
    cbn [LensParts.code_lens_resolve_collect]. unfold bind at 1.
    unfold LensParts.check_current_task_canceled.
    rewrite Hi. unfold ret at 1.
    assert (Hrest : forall j, (j < length rs)%nat ->
                              canceled (S i + j)%nat = false).
    { intros j Hj. replace (S i + j)%nat with (i + S j)%nat by lia.
      apply Hc. simpl. lia. }
    rewrite logged_of_cons, values_of_cons.
    destruct r as [e|[c|]].
    + unfold bind. rewrite log_unless_cancelled_eq.
      rewrite (IH (S i) acc _ Hrest). cbn [LensParts.objects LensParts.logged].
      rewrite <- app_assoc. reflexivity.
    + rewrite (IH (S i) (acc ++ [c]) s Hrest). rewrite <- app_assoc.
      reflexivity.
    + rewrite (IH (S i) acc s Hrest). reflexivity.
Qed.

Lemma last_default_irrelevant {A} (l : list A) (d d' : A) :
  l <> [] -> List.last l d = List.last l d'.
Proof.
  induction l as [|x l IH]; [congruence|]. intros _.
  destruct l as [|y l]; [reflexivity|].
  change (List.last (y :: l) d = List.last (y :: l) d').
  apply IH. discriminate.
Qed.

(** X21.  [codeLens/resolve] answers with the lens it was asked about
    unless two or more handlers returned a lens; only then it answers
    with the last one returned.  So the lens of a single resolver is
    discarded.  Exceptions of the handlers are logged unless they are
    CancelledErrors, and do not reach the caller. *)
Theorem code_lens_resolve_needs_two_results (canceled : nat -> bool)
    (params : LensParts.CodeLens)
    (rs : list (LensParts.handled LensParts.CodeLens))
    (s : LensParts.PartState LensParts.CodeLens) :
  (forall j, (j < length rs)%nat -> canceled j = false) ->
  let out := LensParts._code_lens_resolve canceled params rs s in
  out.1 = Ok (match values_of rs with
              | [] | [_] => params
              | c :: c' :: rest => List.last (c' :: rest) c
              end)
  /\ LensParts.logged out.2 = LensParts.logged s ++ logged_of rs
  /\ LensParts.objects out.2 = LensParts.objects s.
Proof.
  intros Hc out. subst out. unfold LensParts._code_lens_resolve, bind.
  rewrite (code_lens_resolve_collect_eq canceled rs 0 [] s Hc). simpl app.
  destruct (values_of rs) as [|c [|c' rest]]; simpl; auto.
  repeat split.
  f_equal. apply (last_default_irrelevant (c' :: rest)). discriminate.
Qed.

Lemma code_lens_resolve_needs_two_results_witness :
  let asked := LensParts.mkCodeLens ((1, 2), (1, 5))%nat None (Some "d") in
  let resolved :=
    LensParts.mkCodeLens ((1, 2), (1, 5))%nat (Some "Run") (Some "d") in
  let s := LensParts.mkPartState ∅ [] in
  (LensParts._code_lens_resolve (fun _ => false) asked
     [LensParts.Returned (Some resolved)] s).1 = Ok asked
  /\ (LensParts._code_lens_resolve (fun _ => false) asked
        [LensParts.Returned (Some resolved);
         LensParts.Returned (Some resolved)] s).1 = Ok resolved.
Proof.
  intros asked resolved s. split.
  - exact (proj1 (code_lens_resolve_needs_two_results (fun _ => false) asked
                    [LensParts.Returned (Some resolved)] s
                    (fun _ _ => eq_refl))).
  - exact (proj1 (code_lens_resolve_needs_two_results (fun _ => false) asked
                    [LensParts.Returned (Some resolved);
                     LensParts.Returned (Some resolved)] s
                    (fun _ _ => eq_refl))).
Defined.

(** X22.  [inlayHint/resolve] answers with the first hint a handler
    returned, and with the hint it was asked about when no handler
    returned one.  Only the exceptions of the handlers before that
    first hint are logged, CancelledErrors excepted. *)
Theorem inlay_hint_resolve_takes_first (params : LensParts.InlayHint)
    (rs : list (LensParts.handled LensParts.InlayHint))
    (s : LensParts.PartState LensParts.InlayHint) :
  LensParts._inlay_hint_resolve params rs s
  = (Ok (default params (head (values_of rs))),
     LensParts.mkPartState (LensParts.objects s)
       (LensParts.logged s ++ logged_of (until_value rs))).
Proof.
  revert s. induction rs as [|r rs IH]; intros s.
  - simpl. rewrite app_nil_r. destruct s; reflexivity.
  - cbn [LensParts._inlay_hint_resolve until_value].
    rewrite values_of_cons.
    destruct r as [e|[hint|]].
    + unfold bind. rewrite log_unless_cancelled_eq, IH, logged_of_cons.
      cbn [LensParts.objects LensParts.logged]. rewrite <- app_assoc.
      reflexivity.
    + simpl. rewrite app_nil_r. destruct s; reflexivity.
    + rewrite IH, logged_of_cons. reflexivity.
Qed.

Lemma inlay_hint_collect_eq rs acc
    (s : LensParts.PartState LensParts.InlayHint) :
  LensParts.inlay_hint_collect rs acc s
  = (Ok (acc ++ collected rs),
     LensParts.mkPartState (LensParts.objects s)
       (LensParts.logged s ++ logged_of rs)).
Proof.
  revert acc s. induction rs as [|r rs IH]; intros acc s.
  - simpl. rewrite !app_nil_r. destruct s; reflexivity.
  - cbn [LensParts.inlay_hint_collect]. rewrite logged_of_cons.
    destruct r as [e|[l|]].
    + unfold bind. rewrite log_unless_cancelled_eq, IH.
      cbn [LensParts.objects LensParts.logged]. rewrite <- app_assoc.
      reflexivity.
    + rewrite IH. unfold collected. simpl. rewrite <- app_assoc.
      reflexivity.
    + rewrite IH. reflexivity.
Qed.

(** X23.  [textDocument/inlayHint] answers None for an unknown document
    and when no handler returned a hint; otherwise it lists the hints
    of all handlers in the order of the handlers.  Exceptions of the
    handlers are logged unless they are CancelledErrors, and never
    reach the caller.  Every hint of the answer has its position
    converted once for each time it is listed. *)
Theorem inlay_hint_collection
    (position_to_utf16 : TextDocument -> LensParts.Position
                         -> LensParts.Position)
    (document : TextDocument)
    (rs : list (LensParts.handled (list nat)))
    (s : LensParts.PartState LensParts.InlayHint) :
  LensParts._text_document_inlay_hint position_to_utf16 None rs s
  = (Ok None, s)
  /\ (let out :=
        LensParts._text_document_inlay_hint position_to_utf16
          (Some document) rs s in
      out.1 = Ok (if is_nil (collected rs) then None
                  else Some (collected rs))
      /\ LensParts.logged out.2 = LensParts.logged s ++ logged_of rs
      /\ forall a,
           LensParts.objects out.2 !! a
           = Nat.iter (count_occ Nat.eq_dec (collected rs) a)
               (convert_hint position_to_utf16 document)
             <$> LensParts.objects s !! a).
Proof.
  split; [reflexivity|]. intros out.
  assert (Hrun : out
                 = (Ok (if is_nil (collected rs) then None
                        else Some (collected rs)),
                    LensParts.mkPartState
                      (fold_left
                         (fun h r =>
                            alter (convert_hint position_to_utf16 document)
                              r h)
                         (collected rs) (LensParts.objects s))
                      (LensParts.logged s ++ logged_of rs))).
  { subst out. unfold LensParts._text_document_inlay_hint.
    unfold bind at 1. rewrite inlay_hint_collect_eq. simpl app.
    destruct (collected rs) as [|a0 l]; reflexivity. }
  rewrite Hrun. cbn [fst snd LensParts.objects LensParts.logged].
  split; [reflexivity|]. split; [reflexivity|]. intros a.
  apply fold_alter_lookup.
Qed.

(** ** Edits for files that are about to be created *)

Lemma merge_from {TextEdit} (acc : @CreateFiles.Changes TextEdit) results uri :
  Forall (fun e => ~ mentions uri e) results ->
  foldl (fun result e =>
           match e with
           | LensParts.Returned (Some m) => CreateFiles.update result m
           | _ => result
           end) acc results !! uri = acc !! uri.
Proof.
  intros H. revert acc. induction H as [|e results He _ IH]; intros acc;
    simpl; [reflexivity|].
  rewrite IH. destruct e as [ex|[m|]]; try reflexivity.
  unfold CreateFiles.update. simpl in He.
  apply (lookup_union_r (M:=gmap string)).
  destruct (m !! uri) eqn:Hm; [|exact Hm].
  exfalso. apply He. eauto.
Qed.

(** X25. [_workspace_will_create_files] answers without an edit exactly
    when no handler is registered.  Otherwise, for each uri the merged
    changes hold the edits of the last handler whose mapping has that uri:
    edits of earlier handlers for the same uri are dropped, not joined; a
    uri that no mapping has is absent; handlers that raised or returned
    nothing contribute nothing. *)
Theorem will_create_files_last_mapping_wins {TextEdit}
    (handlers : list (@CreateFiles.handler TextEdit)) (files : list string) :
  (CreateFiles._workspace_will_create_files handlers files = None
   <-> handlers = [])
  /\ (forall before h after m uri,
        handlers = before ++ h :: after ->
        h files = LensParts.Returned (Some m) ->
        Forall (fun h' => ~ mentions uri (h' files)) after ->
        exists changes,
          CreateFiles._workspace_will_create_files handlers files
          = Some changes
          /\ changes !! uri = m !! uri
               ∪ CreateFiles.merge
                   (CreateFiles.will_create_files before files) !! uri
          /\ (is_Some (m !! uri) -> changes !! uri = m !! uri))
  /\ (forall changes uri,
        CreateFiles._workspace_will_create_files handlers files
        = Some changes ->
        Forall (fun h => ~ mentions uri (h files)) handlers ->
        changes !! uri = None).
Proof.
  unfold CreateFiles._workspace_will_create_files,
    CreateFiles.will_create_files.
  split; [|split].
  - destruct handlers; simpl; split; intros H; congruence.
  - intros before h after m uri -> Hh Hafter.
    rewrite length_map, length_app. simpl.
    replace (length before + S (length after) =? 0)%nat with false
      by (symmetry; apply Nat.eqb_neq; lia).
    eexists. split; [reflexivity|].
    assert (Hl : CreateFiles.merge
                   (map (fun h0 => h0 files) (before ++ h :: after)) !! uri
                 = m !! uri
                     ∪ CreateFiles.merge (map (fun h0 => h0 files) before)
                         !! uri).
    { unfold CreateFiles.merge.
      rewrite map_app, foldl_app. simpl. rewrite Hh.
      rewrite merge_from.
      - unfold CreateFiles.update. apply (lookup_union (M:=gmap string)).
      - apply Forall_map. exact Hafter. }
    split; [exact Hl|].
    intros [edits Hm]. rewrite Hl, Hm.
    match goal with |- Some _ ∪ ?x = _ => destruct x; reflexivity end.
  - intros changes uri Hrun Hnone.
    destruct (length _ =? 0)%nat; [discriminate|].
    injection Hrun as <-. unfold CreateFiles.merge.
    rewrite merge_from; [apply (lookup_empty (M:=gmap string))|].
    apply Forall_map. exact Hnone.
Qed.

Lemma will_create_files_last_mapping_wins_witness :
  exists changes,
    CreateFiles._workspace_will_create_files
      [ (fun _ => LensParts.Returned (Some {["a.robot" := [1%nat]]}));
        (fun _ => LensParts.Raised (Error "ValueError"));
        (fun _ => LensParts.Returned (Some {["a.robot" := [2%nat; 3%nat]]}));
        (fun _ => LensParts.Returned None) ] ["a.robot"]
    = Some changes
    /\ changes !! "a.robot" = Some [2%nat; 3%nat].
Proof.
  destruct (proj1 (proj2 (will_create_files_last_mapping_wins
              [ (fun _ => LensParts.Returned (Some {["a.robot" := [1%nat]]}));
                (fun _ => LensParts.Raised (Error "ValueError"));
                (fun _ => LensParts.Returned
                            (Some {["a.robot" := [2%nat; 3%nat]]}));
                (fun _ => LensParts.Returned None) ] ["a.robot"]))
              [ (fun _ => LensParts.Returned (Some {["a.robot" := [1%nat]]}));
                (fun _ => LensParts.Raised (Error "ValueError")) ]
              (fun _ => LensParts.Returned
                          (Some {["a.robot" := [2%nat; 3%nat]]}))
              [ (fun _ => LensParts.Returned None) ]
              {["a.robot" := [2%nat; 3%nat]]} "a.robot"
              eq_refl eq_refl)
    as (changes & Hrun & _ & Hlast).
  - repeat constructor. simpl. auto.
  - exists changes. split; [exact Hrun|].
    rewrite Hlast; [apply (lookup_singleton_eq (M:=gmap string))|].
    exists [2%nat; 3%nat]. apply (lookup_singleton_eq (M:=gmap string)).
Defined.
